(** * iocost_monitor: the blk-iocost sampler, embedded and verified

    A shallow embedding of [tools/cgroup/iocost_monitor.py]: the drgn script
    that walks the blkcg hierarchy of one block device, derives per-cgroup
    statistics from the raw iocost counters and prints them as a table or as
    one JSON object per line.

    Layout: Python numbers and string formatting, the [re] and [json] pieces
    the script uses, the kernel objects it reads, then the script itself
    ([BlkgIterator], [IocStat], [IocgStat], the root lookup and the sampling
    loop), and finally the theorems. *)

From Stdlib Require Import ZArith QArith Qround Qreduction Qabs Qpower.
From Stdlib Require Import Bool List String Ascii Lia Lqa.
From Stdlib Require Import DecimalString HexadecimalString DecimalZ HexadecimalZ.
From Stdlib Require Import DecimalPos.
Import ListNotations.

Local Open Scope string_scope.
Local Open Scope Z_scope.

(** ** Exceptions and fallible computations *)

Inductive exn : Type :=
| ZeroDivisionError
| OverflowError
| ValueError
| OSError
| ReError.

Inductive result (A : Type) : Type :=
| Ok (a : A)
| Raise (e : exn).
Arguments Ok {A} a.
Arguments Raise {A} e.

Definition bind {A B : Type} (m : result A) (k : A -> result B) : result B :=
  match m with
  | Ok a => k a
  | Raise e => Raise e
  end.

Notation "x <- m ;; k" := (bind m (fun x => k))
  (at level 61, m at next level, right associativity).

(** ** Python numbers

    A Python [float] is an IEEE binary64.  Every float this script builds is
    finite (it comes from [int / int], which raises instead of overflowing,
    or from [float / int], which only shrinks), so a float is kept as its
    sign and the exact rational magnitude it denotes, in lowest terms; each
    operation rounds the exact result to nearest-even on the binary64 grid. *)

Module PyFloat.

Record t : Type := mk { neg : bool; mag : Q }.

Definition zero : t := mk false 0.

(** [2 ^ k] as a rational, for any integer [k]. *)
Definition pow2 (k : Z) : Q := Qpower 2 k.
Definition pow10 (k : Z) : Q := Qpower 10 k.

(** [floor (log2 x)] of a positive rational. *)
Definition ilog2 (x : Q) : Z :=
  let l := Z.log2 (Qnum x) - Z.log2 (Zpos (Qden x)) in
  if Qle_bool (pow2 l) x then l else l - 1.

(** Nearest integer, ties to the even one: the rounding of [round(x)] and of
    binary64 arithmetic. *)
Definition round_half_even (x : Q) : Z :=
  let f := Qfloor x in
  match Qcompare (x - inject_Z f) (1 # 2) with
  | Lt => f
  | Gt => f + 1
  | Eq => if Z.even f then f else f + 1
  end.

(** Round a non-negative rational to the nearest binary64 magnitude: 53
    significant bits, and steps of [2^-1074] in the subnormal range. *)
Definition round (x : Q) : Q :=
  let x := Qred x in
  if Qle_bool x 0 then 0%Q
  else
    let e := Z.max (ilog2 x - 52) (-1074) in
    Qred (inject_Z (round_half_even (x / pow2 e)) * pow2 e).

(** The least magnitude that rounds past the largest binary64:
    [2^1024 - 2^970], half-way between [DBL_MAX] and [2^1024]. *)
Definition overflow_threshold : Z := 2 ^ 1024 - 2 ^ 970.

(** The signed exact value. *)
Definition value (x : t) : Q := if neg x then (- mag x)%Q else mag x.

(** [float(n)] for an int. *)
Definition of_int (n : Z) : result t :=
  if overflow_threshold <=? Z.abs n then Raise OverflowError
  else Ok (mk (n <? 0) (round (inject_Z (Z.abs n)))).

End PyFloat.

Definition pyfloat : Type := PyFloat.t.

(** [a / b] on two ints: the correctly rounded quotient, [ZeroDivisionError]
    on a zero divisor, [OverflowError] when the quotient is too large for a
    float.  The sign of a zero quotient follows the operands' signs. *)
Definition int_quotient (a b : Z) : pyfloat :=
  PyFloat.mk (xorb (a <? 0) (b <? 0))
             (PyFloat.round (Z.abs a # Z.to_pos (Z.abs b))).

Definition py_int_truediv (a b : Z) : result pyfloat :=
  if b =? 0 then Raise ZeroDivisionError
  else if PyFloat.overflow_threshold * Z.abs b <=? Z.abs a then Raise OverflowError
  else Ok (int_quotient a b).

(** [x / b] on a float and an int: the int is converted first, and a zero
    divisor raises. *)
Definition py_float_truediv_int (x : pyfloat) (b : Z) : result pyfloat :=
  y <- PyFloat.of_int b ;;
  if Qeq_bool (PyFloat.mag y) 0 then Raise ZeroDivisionError
  else Ok (PyFloat.mk (xorb (PyFloat.neg x) (PyFloat.neg y))
                      (PyFloat.round (PyFloat.mag x / PyFloat.mag y))).

(** A value that is an int on some paths and a float on others. *)
Inductive pynum : Type :=
| PInt (n : Z)
| PFloat (x : pyfloat).

Definition num_value (v : pynum) : Q :=
  match v with
  | PInt n => inject_Z n
  | PFloat x => PyFloat.value x
  end.

(** Mixed int/float comparison is exact in Python. *)
Definition py_gt (a b : pynum) : bool :=
  match Qcompare (num_value a) (num_value b) with
  | Gt => true
  | _ => false
  end.

(** [max(a, b)] keeps [a] unless [b > a]. *)
Definition py_max (a b : pynum) : pynum := if py_gt b a then b else a.

(** [min(a, b)] on ints. *)
Definition py_min_int (a b : Z) : Z := if b <? a then b else a.

(** [math.ceil(x)] and [round(x)] on a float. *)
Definition math_ceil (x : pyfloat) : Z := Qceiling (PyFloat.value x).
Definition py_round (x : pyfloat) : Z :=
  let n := PyFloat.round_half_even (PyFloat.mag x) in
  if PyFloat.neg x then - n else n.

(** ** Python strings and format specifications

    A [str] is kept as a [string]: the code points below 256, which covers
    every name made of ASCII or Latin-1 characters. *)

Local Infix "+++" := String.append (right associativity, at level 60).

Definition str_int (n : Z) : string :=
  DecimalString.NilZero.string_of_int (Z.to_int n).

(** [hex(n)]: lowercase digits behind a [0x] prefix, the sign in front. *)
Definition py_hex (n : Z) : string :=
  ((if n <? 0 then "-" else "") +++ "0x"
   +++ HexadecimalString.NilZero.string_of_int (Z.to_hex_int (Z.abs n))).

Fixpoint repeat_char (c : ascii) (n : nat) : string :=
  match n with
  | O => ""
  | S n' => String c (repeat_char c n')
  end.

Definition ljust (w : nat) (s : string) : string :=
  (s +++ repeat_char " " (w - String.length s)).

Definition rjust (w : nat) (s : string) : string :=
  (repeat_char " " (w - String.length s) +++ s).

(** Zero padding goes between the sign and the digits. *)
Definition zfill (w : nat) (sign digits : string) : string :=
  (sign +++ repeat_char "0" (w - String.length sign - String.length digits)
   +++ digits).

(** [f'{s:w}'] and [f'{s:>w}'] on a string. *)
Definition format_str (w : nat) (s : string) : string := ljust w s.
Definition format_str_right (w : nat) (s : string) : string := rjust w s.

(** [f'{n:w}'], [f'{n:+w}'] and [f'{n:0w}'] on an int: numbers are
    right-aligned. *)
Definition format_int (w : nat) (n : Z) : string := rjust w (str_int n).

Definition format_int_plus (w : nat) (n : Z) : string :=
  rjust w ((if n <? 0 then "-" else "+") +++ str_int (Z.abs n)).

Definition format_int_zero (w : nat) (n : Z) : string :=
  zfill w (if n <? 0 then "-" else "") (str_int (Z.abs n)).

(** The float a format code [f] sees: an int is converted first (exactly
    below [2^53]; the only int the script formats this way is [0]). *)
Definition float_of_num (v : pynum) : pyfloat :=
  match v with
  | PInt n => PyFloat.mk (n <? 0) (PyFloat.round (inject_Z (Z.abs n)))
  | PFloat x => x
  end.

(** [p] digits after the point, the exact binary value rounded half-even. *)
Definition fixed_digits (p : nat) (x : pyfloat) : string :=
  let scale := 10 ^ Z.of_nat p in
  let r := PyFloat.round_half_even (PyFloat.mag x * inject_Z scale) in
  ((if PyFloat.neg x then "-" else "") +++ str_int (r / scale)
   +++ match p with
      | O => ""
      | _ => "." +++ zfill p "" (str_int (r mod scale))
      end).

(** [f'{v:w.pf}']. *)
Definition format_fixed (w p : nat) (v : pynum) : string :=
  rjust w (fixed_digits p (float_of_num v)).

(** *** [repr] of a float: the shortest decimal that reads back as it *)

Definition ilog10 (x : Q) : Z :=
  let k := PyFloat.ilog2 x * 30103 / 100000 in
  if Qle_bool (PyFloat.pow10 (k + 1)) x then k + 1
  else if Qle_bool (PyFloat.pow10 k) x then k
  else k - 1.

(** With [n] significant digits and the leading one at [10^k]: the decimal
    just below or just above [x] that rounds back to [x], the nearer one when
    both do. *)
Definition decimal_candidate (x : Q) (k n : Z) : option Z :=
  let u := PyFloat.pow10 (k - n + 1) in
  let s := (x / u)%Q in
  let lo := Qfloor s in
  let hi := lo + 1 in
  let back (d : Z) := Qeq_bool (PyFloat.round (inject_Z d * u)) x in
  match back lo, back hi with
  | true, true => Some (PyFloat.round_half_even s)
  | true, false => Some lo
  | false, true => Some hi
  | false, false => None
  end.

Fixpoint shortest_digits (fuel : nat) (x : Q) (k n : Z) : Z * Z :=
  match fuel with
  | O => (PyFloat.round_half_even (x / PyFloat.pow10 (k - n + 1)), n)
  | S fuel' =>
      match decimal_candidate x k n with
      | Some d => (d, n)
      | None => shortest_digits fuel' x k (n + 1)
      end
  end.

Fixpoint strip_zeros (fuel : nat) (d : Z) : Z :=
  match fuel with
  | O => d
  | S fuel' => if (d mod 10 =? 0) && negb (d =? 0) then strip_zeros fuel' (d / 10) else d
  end.

Definition exponent_str (e : Z) : string :=
  ((if e <? 0 then "-" else "+") +++ zfill 2 "" (str_int (Z.abs e))).

Definition repr_magnitude (x : Q) : string :=
  let k := ilog10 x in
  let '(d, n) := shortest_digits 16 x k 1 in
  (* [d] has [n] digits, or is [10^n] when the upper neighbour carried *)
  let decpt := if d =? 10 ^ n then k + 2 else k + 1 in
  let ds := str_int (strip_zeros 18 d) in
  let nd := Z.of_nat (String.length ds) in
  if (decpt <=? -4) || (16 <? decpt) then
    (substring 0 1 ds
     +++ (if 1 <? nd then "." +++ substring 1 (String.length ds - 1) ds else "")
     +++ "e" +++ exponent_str (decpt - 1))
  else if decpt <=? 0 then
    ("0." +++ repeat_char "0" (Z.to_nat (- decpt)) +++ ds)
  else if nd <=? decpt then
    (ds +++ repeat_char "0" (Z.to_nat (decpt - nd)) +++ ".0")
  else
    (substring 0 (Z.to_nat decpt) ds +++ "."
     +++ substring (Z.to_nat decpt) (String.length ds - Z.to_nat decpt) ds).

(** [str(x)] on a float, which is also [f'{x}']. *)
Definition str_float (x : pyfloat) : string :=
  ((if PyFloat.neg x then "-" else "")
   +++ (if Qeq_bool (PyFloat.mag x) 0 then "0.0" else repr_magnitude (PyFloat.mag x))).

Definition str_num (v : pynum) : string :=
  match v with
  | PInt n => str_int n
  | PFloat x => str_float x
  end.

(** [str(int(b))] on a bool. *)
Definition str_bool_int (b : bool) : string := if b then "1" else "0".

(** Does every character of [s] pass the test? *)
Fixpoint string_forall (test : ascii -> bool) (s : string) : bool :=
  match s with
  | EmptyString => true
  | String c s' => test c && string_forall test s'
  end.

Definition is_not (c : ascii) (d : ascii) : bool := negb (Ascii.eqb d c).

(** [sub in s] *)
Fixpoint contains (sub s : string) : bool :=
  String.prefix sub s
  || match s with
     | EmptyString => false
     | String _ s' => contains sub s'
     end.

(** The truth value of a string and of an int. *)
Definition nonempty (s : string) : bool := negb (String.eqb s "").
Definition nonzero (n : Z) : bool := negb (n =? 0).

(** [range(n)] *)
Definition py_range (n : Z) : list Z := map Z.of_nat (seq 0 (Z.to_nat n)).

(** [s[-n:]]: the last [n] characters, the whole string when it is shorter. *)
Definition last_chars (n : nat) (s : string) : string :=
  substring (String.length s - n) n s.

(** [s.rstrip(c)]: every trailing [c] goes. *)
Fixpoint rstrip (c : ascii) (s : string) : string :=
  match s with
  | EmptyString => EmptyString
  | String d s' =>
      match rstrip c s' with
      | EmptyString => if Ascii.eqb d c then EmptyString else String d EmptyString
      | r => String d r
      end
  end.

(** ** The [re] module

    The script needs [re.compile] and [Pattern.match]; which regular
    expression language sits behind them does not matter to it, so the
    engine is a parameter.  [compile] answers [None] where [re.compile]
    raises [re.error]; [matches p s] says whether [p.match(s)], which is
    anchored at the start of [s], finds a match. *)

Record re_engine : Type := {
  re_pattern : Type;
  re_compile : string -> option re_pattern;
  re_matches : re_pattern -> string -> bool
}.

(** An engine to run the examples with.  It knows literal characters, [.],
    [^], [$] and top-level [|], and on patterns made of these it answers as
    Python's [re] does.  It is not Python's [re]: a pattern with any other
    metacharacter, which [re.compile] may well accept, is answered [None]
    here.  The examples stay inside the fragment, and the theorems are
    stated for any engine. *)
Module Re.

Inductive atom : Type :=
| Lit (c : ascii)
| AnyChar
| Bol
| Eol.

(** An alternation of sequences. *)
Definition pattern : Type := list (list atom).

Definition newline : ascii := "010"%char.

Definition is_other_meta (c : ascii) : bool :=
  existsb (Ascii.eqb c)
    ["\"; "("; ")"; "["; "]"; "{"; "}"; "*"; "+"; "?"]%char.

Definition atom_of (c : ascii) : atom :=
  if Ascii.eqb c "." then AnyChar
  else if Ascii.eqb c "^" then Bol
  else if Ascii.eqb c "$" then Eol
  else Lit c.

(** [cur] holds the atoms of the alternative being read, last one first. *)
Fixpoint parse (s : string) (cur : list atom) : option pattern :=
  match s with
  | EmptyString => Some [rev cur]
  | String c s' =>
      if Ascii.eqb c "|" then option_map (cons (rev cur)) (parse s' [])
      else if is_other_meta c then None
      else parse s' (atom_of c :: cur)
  end.

Definition compile (p : string) : option pattern := parse p [].

(** Does the sequence match a prefix of [s]?  [at_start] tells whether [s]
    is still the whole subject. *)
Fixpoint match_seq (atoms : list atom) (at_start : bool) (s : string) : bool :=
  match atoms with
  | [] => true
  | Lit c :: rest =>
      match s with
      | String d s' => Ascii.eqb c d && match_seq rest false s'
      | EmptyString => false
      end
  | AnyChar :: rest =>
      match s with
      | String d s' => negb (Ascii.eqb d newline) && match_seq rest false s'
      | EmptyString => false
      end
  | Bol :: rest => at_start && match_seq rest at_start s
  | Eol :: rest =>
      (String.eqb s EmptyString || String.eqb s (String newline EmptyString))
      && match_seq rest at_start s
  end.

Definition matches (p : pattern) (s : string) : bool :=
  existsb (fun alt => match_seq alt true s) p.

Definition engine : re_engine :=
  {| re_pattern := pattern; re_compile := compile; re_matches := matches |}.

End Re.

(** ** [json.dumps] on a dict of strings *)

Module Json.

Definition dquote : ascii := "034"%char.

Definition hex_digit (n : N) : ascii :=
  match n with
  | 0 => "0" | 1 => "1" | 2 => "2" | 3 => "3" | 4 => "4" | 5 => "5"
  | 6 => "6" | 7 => "7" | 8 => "8" | 9 => "9" | 10 => "a" | 11 => "b"
  | 12 => "c" | 13 => "d" | 14 => "e" | _ => "f"
  end%N%char.

(** With [ensure_ascii], everything outside [' '..'~'] is escaped, and so
    are the quote and the backslash. *)
Definition escape_char (c : ascii) : string :=
  let n := N_of_ascii c in
  if Ascii.eqb c dquote then String "\" (String dquote "")
  else if Ascii.eqb c "\" then "\\"
  else if (n =? 10)%N then "\n"
  else if (n =? 13)%N then "\r"
  else if (n =? 9)%N then "\t"
  else if (n =? 8)%N then "\b"
  else if (n =? 12)%N then "\f"
  else if (n <? 32)%N || (126 <? n)%N then
    "\u00" +++ String (hex_digit (n / 16)) (String (hex_digit (n mod 16)) "")
  else String c "".

Fixpoint escape (s : string) : string :=
  match s with
  | EmptyString => EmptyString
  | String c s' => escape_char c +++ escape s'
  end.

Definition quote (s : string) : string :=
  String dquote (escape s) +++ String dquote "".

Definition item (kv : string * string) : string :=
  quote (fst kv) +++ ": " +++ quote (snd kv).

(** A dict is kept as its items in insertion order. *)
Definition dumps (d : list (string * string)) : string :=
  "{" +++ String.concat ", " (map item d) +++ "}".

End Json.

(** ** The inspected kernel

    What drgn hands to the script: the constants it looks up in [prog] and
    the fields of the kernel objects it reads, each [value_()] an int. *)

Record Prog : Type := {
  CSS_ONLINE : Z;
  IOC_RUNNING : Z;
  NR_USAGE_SLOTS : Z;
  HWEIGHT_WHOLE : Z;
  VTIME_PER_SEC : Z;
  VTIME_PER_USEC : Z;
  AUTOP_SSD_FAST : Z;
  AUTOP_SSD_DFL : Z;
  AUTOP_SSD_QD1 : Z;
  AUTOP_HDD : Z
}.

(** [struct ioc], the per-device controller. *)
Module ioc.
Record t : Type := {
  enabled : Z;
  running : Z;
  period_us : Z;
  period_at : Z;
  period_at_vtime : Z;
  vtime_rate : Z;
  busy_level : Z;
  autop_idx : Z;
  user_cost_model : Z;
  user_qos_params : Z
}.
End ioc.

(** [struct ioc_gq], the per-cgroup policy data.  [ioc] is the controller it
    points to; [use_delay] and [delay_nsec] are the counters of [pd.blkg],
    the [blkcg_gq] it points back to; [address] is the pointer itself. *)
Module ioc_gq.
Record t : Type := {
  ioc : ioc.t;
  address : Z;
  active_list_empty : bool;
  weight : Z;
  active : Z;
  inuse : Z;
  hweight_active : Z;
  hweight_inuse : Z;
  done_vtime : Z;
  vtime : Z;
  abs_vdebt : Z;
  use_delay : Z;
  delay_nsec : Z;
  usage_idx : Z;
  usages : list Z
}.
End ioc_gq.

(** [struct request_queue]: its id, and the name of its disk.  Reading
    [q.kobj.parent.name] faults on a queue without a disk: [None]. *)
Module request_queue.
Record t : Type := {
  id : Z;
  kobj_parent_name : option string
}.
End request_queue.

(** [struct blkcg_gq]: [pd] is the array of per-policy data pointers, [None]
    for a null one. *)
Module blkcg_gq.
Record t : Type := {
  q : request_queue.t;
  pd : list (option ioc_gq.t)
}.

(** [blkg.pd[plid]] *)
Definition pd_at (blkg : t) (plid : Z) : option ioc_gq.t :=
  nth (Z.to_nat plid) (pd blkg) None.
End blkcg_gq.

(** A radix tree, as its entries in index order. *)
Definition radix_tree (A : Type) : Type := list (Z * A).

Fixpoint radix_tree_lookup {A : Type} (tree : radix_tree A) (index : Z) : option A :=
  match tree with
  | [] => None
  | (i, a) :: rest => if i =? index then Some a else radix_tree_lookup rest index
  end.

(** [struct blkcg]: [css_flags] is [css.flags], [name] is
    [css.cgroup.kn.name] as [string_().decode('utf-8')] returns it,
    [children] is the list headed at [css.children].  A member whose name
    cannot be read, or is not UTF-8, has no [name] to give: the walk of the
    script dies there of the exception, and such a hierarchy is none of
    these. *)
Module blkcg.
#[local] Unset Elimination Schemes.
Inductive t : Type := mk {
  css_flags : Z;
  name : string;
  blkg_tree : radix_tree blkcg_gq.t;
  children : list t
}.
#[local] Set Elimination Schemes.
End blkcg.

(** ** The script *)

(** The newline the script joins its lines with. *)
Definition nl : string := String "010"%char EmptyString.

(** [blkcg.css.flags.value_() & prog['CSS_ONLINE'].value_()], as a truth
    value. *)
Definition css_online (prog : Prog) (b : blkcg.t) : bool :=
  nonzero (Z.land (blkcg.css_flags b) (CSS_ONLINE prog)).

Module BlkgIterator.

Definition blkcg_name (b : blkcg.t) : string := blkcg.name b.

(** [walk] appends to [self.blkgs]; the list is threaded through. *)
Fixpoint walk (prog : Prog) (include_dying : bool) (b : blkcg.t) (q_id : Z)
    (parent_path : string) (blkgs : list (string * blkcg_gq.t))
    {struct b} : list (string * blkcg_gq.t) :=
  if negb include_dying && negb (css_online prog b) then blkgs
  else
    let name := blkcg_name b in
    let path :=
      if nonempty parent_path then parent_path +++ "/" +++ name else name in
    match radix_tree_lookup (blkcg.blkg_tree b) q_id with
    | None => blkgs
    | Some blkg =>
        let blkgs := (blkgs ++ [(if nonempty path then path else "/", blkg)])%list in
        fold_left (fun acc c => walk prog include_dying c q_id path acc)
                  (blkcg.children b) blkgs
    end.

(** [BlkgIterator(root_blkcg, q_id, include_dying)], iterated. *)
Definition init (prog : Prog) (root_blkcg : blkcg.t) (q_id : Z)
    (include_dying : bool) : list (string * blkcg_gq.t) :=
  walk prog include_dying root_blkcg q_id "" [].

End BlkgIterator.

(** [autop_names]: a dict literal, where a later entry replaces an earlier
    one with the same key. *)
Definition autop_names (prog : Prog) : list (Z * string) :=
  [ (AUTOP_SSD_FAST prog, "ssd_fast");
    (AUTOP_SSD_DFL prog, "ssd_dfl");
    (AUTOP_SSD_QD1 prog, "ssd_qd1");
    (AUTOP_HDD prog, "hdd") ].

Definition dict_get {A : Type} (d : list (Z * A)) (k : Z) : option A :=
  option_map snd (find (fun kv => fst kv =? k) (rev d)).

Module IocStat.

Record t : Type := {
  enabled : Z;
  running : bool;
  period_ms : pyfloat;
  period_at : pyfloat;
  vperiod_at : pyfloat;
  vrate_pct : pyfloat;
  busy_level : Z;
  autop_idx : Z;
  user_cost_model : Z;
  user_qos_params : Z;
  autop_name : string
}.

(** [IocStat(ioc)] *)
Definition init (prog : Prog) (c : ioc.t) : result t :=
  period_ms <- py_int_truediv (ioc.period_us c) 1000 ;;
  period_at <- py_int_truediv (ioc.period_at c) 1000000 ;;
  vperiod_at <- py_int_truediv (ioc.period_at_vtime c) (VTIME_PER_SEC prog) ;;
  vrate_pct <- py_int_truediv (ioc.vtime_rate c * 100) (VTIME_PER_USEC prog) ;;
  Ok {| enabled := ioc.enabled c;
        running := ioc.running c =? IOC_RUNNING prog;
        period_ms := period_ms;
        period_at := period_at;
        vperiod_at := vperiod_at;
        vrate_pct := vrate_pct;
        busy_level := ioc.busy_level c;
        autop_idx := ioc.autop_idx c;
        user_cost_model := ioc.user_cost_model c;
        user_qos_params := ioc.user_qos_params c;
        autop_name :=
          match dict_get (autop_names prog) (ioc.autop_idx c) with
          | Some n => n
          | None => "?"
          end |}.

Definition dict (devname : string) (self : t) (now : pyfloat)
    : list (string * string) :=
  [ ("device", devname);
    ("timestamp", str_float now);
    ("enabled", str_int (enabled self));
    ("running", str_bool_int (running self));
    ("period_ms", str_float (period_ms self));
    ("period_at", str_float (period_at self));
    ("period_vtime_at", str_float (vperiod_at self));
    ("busy_level", str_int (busy_level self));
    ("vrate_pct", str_float (vrate_pct self)) ].

Definition state (self : t) : string :=
  if nonzero (enabled self) then (if running self then "RUN" else "IDLE")
  else "OFF".

Definition table_preamble_str (devname : string) (self : t) : string :=
  let output :=
    devname +++ " " +++ format_str 4 (state self) +++ " "
    +++ "per=" +++ str_float (period_ms self) +++ "ms "
    +++ "cur_per=" +++ format_fixed 0 3 (PFloat (period_at self))
    +++ ":v" +++ format_fixed 0 3 (PFloat (vperiod_at self)) +++ " "
    +++ "busy=" +++ format_int_plus 3 (busy_level self) +++ " "
    +++ "vrate=" +++ format_fixed 6 2 (PFloat (vrate_pct self)) +++ "% "
    +++ "params=" +++ autop_name self in
  if nonzero (user_cost_model self) || nonzero (user_qos_params self) then
    output +++ "("
    +++ (if nonzero (user_cost_model self) then "C" else "")
    +++ (if nonzero (user_qos_params self) then "Q" else "") +++ ")"
  else output.

Definition table_header_str : string :=
  format_str 25 "" +++ " active " +++ format_str_right 9 "weight" +++ " "
  +++ format_str_right 13 "hweight%" +++ " " +++ format_str_right 6 "inflt%"
  +++ " " +++ format_str_right 3 "dbt" +++ " " +++ format_str_right 6 "delay"
  +++ " " +++ "usages%".

End IocStat.

Module IocgStat.

Record t : Type := {
  is_active : bool;
  weight : Z;
  active : Z;
  inuse : Z;
  hwa_pct : pyfloat;
  hwi_pct : pyfloat;
  address : Z;
  inflight_pct : pynum;
  debt_ms : pyfloat;
  use_delay : Z;
  delay_ms : pyfloat;
  usages : list pyfloat;
  usage : pynum
}.

(** The loop over the usage slots: [usages] and [usage] are the two
    attributes it updates, [todo] what is left of [range(NR_USAGE_SLOTS)]. *)
Fixpoint usage_loop (prog : Prog) (iocg : ioc_gq.t) (usage_idx : Z)
    (todo : list Z) (usages : list pyfloat) (usage : pynum)
    : result (list pyfloat * pynum) :=
  match todo with
  | [] => Ok (usages, usage)
  | i :: todo' =>
      let slot := (usage_idx + i) mod NR_USAGE_SLOTS prog in
      let raw := nth (Z.to_nat slot) (ioc_gq.usages iocg) 0 in
      upct <- py_int_truediv (raw * 100) (HWEIGHT_WHOLE prog) ;;
      usage_loop prog iocg usage_idx todo' (usages ++ [upct])%list
                 (py_max usage (PFloat upct))
  end.

(** [IocgStat(iocg)] *)
Definition init (prog : Prog) (iocg : ioc_gq.t) : result t :=
  let c := ioc_gq.ioc iocg in
  hwa_pct <- py_int_truediv (ioc_gq.hweight_active iocg * 100) (HWEIGHT_WHOLE prog) ;;
  hwi_pct <- py_int_truediv (ioc_gq.hweight_inuse iocg * 100) (HWEIGHT_WHOLE prog) ;;
  let vdone := ioc_gq.done_vtime iocg in
  let vtime := ioc_gq.vtime iocg in
  let vrate := ioc.vtime_rate c in
  let period_vtime := ioc.period_us c * vrate in
  inflight_pct <-
    (if nonzero period_vtime then
       x <- py_int_truediv ((vtime - vdone) * 100) period_vtime ;; Ok (PFloat x)
     else Ok (PInt 0)) ;;
  debt_ms <-
    (x <- py_int_truediv (ioc_gq.abs_vdebt iocg) (VTIME_PER_USEC prog) ;;
     py_float_truediv_int x 1000) ;;
  delay_ms <- py_int_truediv (ioc_gq.delay_nsec iocg) 1000000 ;;
  ring <- usage_loop prog iocg (ioc_gq.usage_idx iocg)
            (py_range (NR_USAGE_SLOTS prog)) [] (PInt 0) ;;
  Ok {| is_active := negb (ioc_gq.active_list_empty iocg);
        weight := ioc_gq.weight iocg;
        active := ioc_gq.active iocg;
        inuse := ioc_gq.inuse iocg;
        hwa_pct := hwa_pct;
        hwi_pct := hwi_pct;
        address := ioc_gq.address iocg;
        inflight_pct := inflight_pct;
        debt_ms := debt_ms;
        use_delay := ioc_gq.use_delay iocg;
        delay_ms := delay_ms;
        usages := fst ring;
        usage := snd ring |}.

(** The [usage_pct_<i>] items, for [i] from [start] on. *)
Fixpoint usage_items (start : Z) (us : list pyfloat) : list (string * string) :=
  match us with
  | [] => []
  | u :: rest =>
      ("usage_pct_" +++ str_int start, str_float u) :: usage_items (start + 1) rest
  end.

Definition dict (self : t) (now : pyfloat) (path : string)
    : list (string * string) :=
  ([ ("cgroup", path);
     ("timestamp", str_float now);
     ("is_active", str_bool_int (is_active self));
     ("weight", str_int (weight self));
     ("weight_active", str_int (active self));
     ("weight_inuse", str_int (inuse self));
     ("hweight_active_pct", str_float (hwa_pct self));
     ("hweight_inuse_pct", str_float (hwi_pct self));
     ("inflight_pct", str_num (inflight_pct self));
     ("debt_ms", str_float (debt_ms self));
     ("use_delay", str_int (use_delay self));
     ("delay_ms", str_float (delay_ms self));
     ("usage_pct", str_num (usage self));
     ("address", py_hex (address self)) ]
   ++ usage_items 0 (usages self))%list.

(** The columns of a table row, in the order of the f-string. *)
Definition path_column (path : string) : string := format_str 28 (last_chars 28 path).
Definition active_column (self : t) : string := if is_active self then "*" else " ".
Definition weight_column (self : t) : string :=
  format_int 5 (inuse self) +++ "/" +++ format_int 5 (active self).
Definition hweight_column (self : t) : string :=
  format_fixed 6 2 (PFloat (hwi_pct self)) +++ "/"
  +++ format_fixed 6 2 (PFloat (hwa_pct self)).
Definition inflight_column (self : t) : string :=
  format_fixed 6 2 (inflight_pct self).
Definition debt_column (self : t) : string :=
  format_int 3 (py_min_int (math_ceil (debt_ms self)) 999).
Definition delay_column (self : t) : string :=
  format_int 2 (py_min_int (use_delay self) 99) +++ "*"
  +++ format_int_zero 3 (py_min_int (math_ceil (delay_ms self)) 999).
Definition usage_column (u : pyfloat) : string :=
  format_int_zero 3 (py_min_int (py_round u) 999) +++ ":".

Definition table_row_str (self : t) (path : string) : string :=
  let out :=
    path_column path +++ " " +++ active_column self +++ " "
    +++ weight_column self +++ " " +++ hweight_column self +++ " "
    +++ inflight_column self +++ " " +++ debt_column self +++ " "
    +++ delay_column self +++ " " in
  let out := fold_left (fun out u => out +++ usage_column u) (usages self) out in
  rstrip ":" out.

End IocgStat.

(** *** Arguments, root lookup and the sampling loop *)

(** [--interval]: argparse applies [float] to the text of the option, and
    [float] also reads [nan], [inf] and [-inf]; the default, the int [1],
    is left as it is. *)
Inductive interval_arg : Type :=
| Seconds (v : pynum)
| Infinite (negative : bool)
| NotANumber.

(** [time.sleep(secs)], as far as it returns or raises (CPython 3.11 on
    Linux).  The length is turned into nanoseconds: a float is multiplied by
    [1e9] and rounded away from zero, an int is multiplied by [10^9].  A
    length that does not fit a signed 64-bit int is an [OverflowError], a
    NaN and a negative length are a [ValueError]; a float that comes to
    [2^63] exactly passes the range check and wraps to a negative length.
    The deadline is the monotonic clock plus the length: past [2^63]
    nanoseconds it wraps, and [clock_nanosleep] answers [EINVAL]. *)
Definition sleep_length (secs : interval_arg) : result Z :=
  match secs with
  | NotANumber => Raise ValueError
  | Infinite _ => Raise OverflowError
  | Seconds (PInt n) =>
      if (n <? - 9223372036) || (9223372036 <? n) then Raise OverflowError
      else if n <? 0 then Raise ValueError
      else Ok (n * 10 ^ 9)
  | Seconds (PFloat x) =>
      let ns :=
        Qceiling (PyFloat.round (PyFloat.mag x * inject_Z (10 ^ 9))) in
      if 2 ^ 63 <? ns then Raise OverflowError
      else if PyFloat.neg x then
        if 0 <? ns then Raise ValueError else Ok 0
      else if ns =? 2 ^ 63 then Raise ValueError
      else Ok ns
  end.

Definition time_sleep (secs : interval_arg) (monotonic : Z) : result unit :=
  ns <- sleep_length secs ;;
  if 2 ^ 63 <=? monotonic + ns then Raise OSError else Ok tt.

(** [args], as argparse leaves it: [cgroup] is [None] when no [--cgroup]
    was given. *)
Record Args : Type := {
  devname : string;
  cgroup : option (list string);
  interval : interval_arg;
  json : bool
}.

(** What the process has done when it is observed: the strings printed to
    each stream, and how it ended, if it did.  An uncaught exception ends it
    with a traceback, which is not kept among the strings. *)
Inductive ending : Type :=
| Looping
| Exit (status : Z)
| Uncaught (e : exn).

Record Run : Type := {
  stdout : list string;
  stderr : list string;
  ended : ending
}.

(** [err(s)]: one line on the error stream, then [sys.exit(1)]. *)
Definition err (s : string) : Run :=
  {| stdout := []; stderr := [s]; ended := Exit 1 |}.

(** The two lookups of the first [try]: [None] where [prog[...]] raises. *)
Record Symbols : Type := {
  blkcg_root : option blkcg.t;
  blkcg_policy_iocost_plid : option Z
}.

Definition table_fmt (args : Args) : bool := negb (json args).

(** [re_str]: the patterns joined by [|], [None] without any. *)
Definition re_str (args : Args) : option string :=
  match cgroup args with
  | None => None
  | Some rs =>
      fold_left
        (fun acc r =>
           match acc with
           | None => Some r
           | Some s => Some (s +++ "|" +++ r)
           end)
        rs None
  end.

(** [filter_re = re.compile(re_str) if re_str else None] *)
Definition filter_re (re : re_engine) (args : Args)
    : result (option (re_pattern re)) :=
  match re_str args with
  | None => Ok None
  | Some s =>
      if nonempty s then
        match re_compile re s with
        | Some p => Ok (Some p)
        | None => Raise ReError
        end
      else Ok None
  end.

(** The values of [q_id], [root_iocg] and [ioc] after the root lookup. *)
Inductive roots : Type :=
| NoQueue
| NoIoc (q_id : Z)
| Found (q_id : Z) (root_iocg : ioc_gq.t).

(** The loop over [radix_tree_for_each(blkcg_root.blkg_tree)]: an entry whose
    name cannot be read is passed over, the first one named [devname] ends
    the search. *)
Fixpoint locate_roots (devname : string) (plid : Z)
    (entries : radix_tree blkcg_gq.t) : roots :=
  match entries with
  | [] => NoQueue
  | (_, blkg) :: rest =>
      match request_queue.kobj_parent_name (blkcg_gq.q blkg) with
      | None => locate_roots devname plid rest
      | Some n =>
          if String.eqb devname n then
            let q_id := request_queue.id (blkcg_gq.q blkg) in
            match blkcg_gq.pd_at blkg plid with
            | Some root_iocg => Found q_id root_iocg
            | None => NoIoc q_id
            end
          else locate_roots devname plid rest
      end
  end.

(** What one iteration of [while True] reads: the clock, the controller and
    the hierarchy as they are then, and the monotonic clock, in nanoseconds,
    as [time.sleep] finds it at the end of the iteration. *)
Record Snapshot : Type := {
  now : pyfloat;
  ioc_now : ioc.t;
  blkcg_root_now : blkcg.t;
  monotonic : Z
}.

Section Sampling.

Variable re : re_engine.
Variable prog : Prog.
Variable plid : Z.
Variable args : Args.
Variable filter : option (re_pattern re).

(** [filter_re and not filter_re.match(path)] *)
Definition filtered_out (path : string) : bool :=
  match filter with
  | Some p => negb (re_matches re p path)
  | None => false
  end.

Definition no_filter : bool :=
  match filter with
  | Some _ => false
  | None => true
  end.

(** The body of the loop over the walker's pairs; [Ok output] unchanged is
    a [continue]. *)
Definition node_step (now : pyfloat) (output : string)
    (entry : string * blkcg_gq.t) : result string :=
  let (path, blkg) := entry in
  if filtered_out path then Ok output
  else
    match blkcg_gq.pd_at blkg plid with
    | None => Ok output
    | Some iocg =>
        iocg_stat <- IocgStat.init prog iocg ;;
        if no_filter && negb (IocgStat.is_active iocg_stat) then Ok output
        else if table_fmt args then
          Ok (output +++ nl +++ IocgStat.table_row_str iocg_stat path)
        else
          Ok (output +++ nl +++ Json.dumps (IocgStat.dict iocg_stat now path))
    end.

Fixpoint node_loop (now : pyfloat) (entries : list (string * blkcg_gq.t))
    (output : string) : result string :=
  match entries with
  | [] => Ok output
  | entry :: rest =>
      output <- node_step now output entry ;;
      node_loop now rest output
  end.

(** One iteration of [while True], up to the [print]. *)
Definition tick (q_id : Z) (snap : Snapshot) : result string :=
  iocstat <- IocStat.init prog (ioc_now snap) ;;
  let output :=
    if table_fmt args then
      nl +++ IocStat.table_preamble_str (devname args) iocstat
      +++ nl +++ IocStat.table_header_str
    else Json.dumps (IocStat.dict (devname args) iocstat (now snap)) in
  node_loop (now snap)
            (BlkgIterator.init prog (blkcg_root_now snap) q_id false) output.

(** The loop itself, observed over the given snapshots: an exception of
    the tick or of the sleep after it ends the process, otherwise it is
    still looping after the last one. *)
Fixpoint sampling_loop (q_id : Z) (snaps : list Snapshot) (printed : list string)
    : Run :=
  match snaps with
  | [] => {| stdout := printed; stderr := []; ended := Looping |}
  | snap :: rest =>
      match tick q_id snap with
      | Ok output =>
          let printed := (printed ++ [output])%list in
          match time_sleep (interval args) (monotonic snap) with
          | Ok _ => sampling_loop q_id rest printed
          | Raise e => {| stdout := printed; stderr := []; ended := Uncaught e |}
          end
      | Raise e => {| stdout := printed; stderr := []; ended := Uncaught e |}
      end
  end.

End Sampling.

(** The script from its first [try] on. *)
Definition main (re : re_engine) (prog : Prog) (syms : Symbols) (args : Args)
    (snaps : list Snapshot) : Run :=
  match blkcg_root syms, blkcg_policy_iocost_plid syms with
  | Some root, Some plid =>
      match filter_re re args with
      | Raise e => {| stdout := []; stderr := []; ended := Uncaught e |}
      | Ok filter =>
          match locate_roots (devname args) plid (blkcg.blkg_tree root) with
          | Found q_id _ => sampling_loop re prog plid args filter q_id snaps []
          | _ => err ("Could not find ioc for " +++ devname args)
          end
      end
  | _, _ => err "The kernel does not have iocost enabled"
  end.

(** * Statements

    The properties the specification claims, written out where the code
    does not have them, and the concrete kernels used as examples. *)

(** ** The walker as the specification words it *)

(** "If the member is not marked online, the member itself is skipped but
    all of its descendants are still visited": an online child with an
    accounting node would then show up in the walk of an offline member. *)
Definition offline_member_hides_only_itself : Prop :=
  forall prog b q_id parent_path c blkg,
    css_online prog b = false ->
    In c (blkcg.children b) ->
    css_online prog c = true ->
    radix_tree_lookup (blkcg.blkg_tree c) q_id = Some blkg ->
    In blkg (map snd (BlkgIterator.walk prog false b q_id parent_path [])).

(** "If the lookup finds none, the member is not added but the walker still
    recurses into the member's children." *)
Definition missing_node_still_recurses : Prop :=
  forall prog b q_id parent_path c blkg,
    css_online prog b = true ->
    radix_tree_lookup (blkcg.blkg_tree b) q_id = None ->
    In c (blkcg.children b) ->
    css_online prog c = true ->
    radix_tree_lookup (blkcg.blkg_tree c) q_id = Some blkg ->
    In blkg (map snd (BlkgIterator.walk prog false b q_id parent_path [])).

(** What [walk] adds for the member [b] reached under [parent_path]: the
    member's own pair, and what its children add, as long as the member
    passes both tests. *)
Inductive yields (prog : Prog) (include_dying : bool) (q_id : Z)
    : blkcg.t -> string -> string * blkcg_gq.t -> Prop :=
| yields_self b parent_path blkg :
    include_dying || css_online prog b = true ->
    radix_tree_lookup (blkcg.blkg_tree b) q_id = Some blkg ->
    yields prog include_dying q_id b parent_path
      (let path := if nonempty parent_path
                   then parent_path +++ "/" +++ blkcg.name b else blkcg.name b in
       (if nonempty path then path else "/", blkg))
| yields_child b parent_path blkg c entry :
    include_dying || css_online prog b = true ->
    radix_tree_lookup (blkcg.blkg_tree b) q_id = Some blkg ->
    In c (blkcg.children b) ->
    yields prog include_dying q_id c
      (if nonempty parent_path
       then parent_path +++ "/" +++ blkcg.name b else blkcg.name b) entry ->
    yields prog include_dying q_id b parent_path entry.

(** ** The range of what is read

    Every [value_()] the derivations divide is the value of a C integer of at
    most 64 bits, signed or unsigned. *)

Definition c_int (n : Z) : bool := (- 2 ^ 63 <=? n) && (n <? 2 ^ 64).

Definition ioc_in_range (c : ioc.t) : bool :=
  c_int (ioc.period_us c) && c_int (ioc.period_at c)
  && c_int (ioc.period_at_vtime c) && c_int (ioc.vtime_rate c).

Definition iocg_in_range (iocg : ioc_gq.t) : bool :=
  ioc_in_range (ioc_gq.ioc iocg)
  && c_int (ioc_gq.hweight_active iocg) && c_int (ioc_gq.hweight_inuse iocg)
  && c_int (ioc_gq.done_vtime iocg) && c_int (ioc_gq.vtime iocg)
  && c_int (ioc_gq.abs_vdebt iocg) && c_int (ioc_gq.delay_nsec iocg)
  && forallb c_int (ioc_gq.usages iocg).

(** The kernel's scaling constants are not zero. *)
Definition scales_nonzero (prog : Prog) : bool :=
  nonzero (HWEIGHT_WHOLE prog) && nonzero (VTIME_PER_SEC prog)
  && nonzero (VTIME_PER_USEC prog).

(** [period_vtime], as [IocgStat] computes it. *)
Definition period_vtime (iocg : ioc_gq.t) : Z :=
  ioc.period_us (ioc_gq.ioc iocg) * ioc.vtime_rate (ioc_gq.ioc iocg).

(** The float of usage slot [(usage_idx + i) % NR_USAGE_SLOTS], scaled to a
    percentage. *)
Definition slot_pct (prog : Prog) (iocg : ioc_gq.t) (i : Z) : pyfloat :=
  int_quotient
    (nth (Z.to_nat ((ioc_gq.usage_idx iocg + i) mod NR_USAGE_SLOTS prog))
         (ioc_gq.usages iocg) 0 * 100)
    (HWEIGHT_WHOLE prog).

(** [max] folded over the percentages of the indices [todo], from [start]. *)
Definition running_max (pct : Z -> pyfloat) (todo : list Z) (start : pynum)
    : pynum :=
  fold_left (fun m i => py_max m (PFloat (pct i))) todo start.

(** The slots hold unsigned values. *)
Definition slots_unsigned (iocg : ioc_gq.t) : bool :=
  forallb (fun u => 0 <=? u) (ioc_gq.usages iocg).

(** "Debt of 2,500,001 raw ticks with 1 tick/usec: [debt_ms] ceiling to 3
    in table mode." *)
Definition debt_example_shows_3 : Prop :=
  forall prog iocg st,
    VTIME_PER_USEC prog = 1 ->
    ioc_gq.abs_vdebt iocg = 2500001 ->
    IocgStat.init prog iocg = Ok st ->
    IocgStat.debt_column st = format_int 3 3.

(** ** The two renderings, as the specification words them

    Both modes render one record of numbers: the structured mode writes each
    number out as a string under its key, the table mode applies its
    rounding, capping and padding rules to the same numbers. *)

Module Spec.

(** The numbers of the controller record, named by their keys. *)
Record controller : Type := {
  enabled : Z;
  running : Z;
  period_ms : pyfloat;
  period_at : pyfloat;
  period_vtime_at : pyfloat;
  busy_level : Z;
  vrate_pct : pyfloat
}.

(** The numbers of a node record, named by their keys; [usage_pct_n] holds
    the ring, slot [i] going under [usage_pct_<i>]. *)
Record node : Type := {
  is_active : Z;
  weight : Z;
  weight_active : Z;
  weight_inuse : Z;
  hweight_active_pct : pyfloat;
  hweight_inuse_pct : pyfloat;
  inflight_pct : pynum;
  debt_ms : pyfloat;
  use_delay : Z;
  delay_ms : pyfloat;
  usage_pct : pynum;
  address : Z;
  usage_pct_n : list pyfloat
}.

Definition controller_of (c : IocStat.t) : controller :=
  {| enabled := IocStat.enabled c;
     running := if IocStat.running c then 1 else 0;
     period_ms := IocStat.period_ms c;
     period_at := IocStat.period_at c;
     period_vtime_at := IocStat.vperiod_at c;
     busy_level := IocStat.busy_level c;
     vrate_pct := IocStat.vrate_pct c |}.

Definition node_of (st : IocgStat.t) : node :=
  {| is_active := if IocgStat.is_active st then 1 else 0;
     weight := IocgStat.weight st;
     weight_active := IocgStat.active st;
     weight_inuse := IocgStat.inuse st;
     hweight_active_pct := IocgStat.hwa_pct st;
     hweight_inuse_pct := IocgStat.hwi_pct st;
     inflight_pct := IocgStat.inflight_pct st;
     debt_ms := IocgStat.debt_ms st;
     use_delay := IocgStat.use_delay st;
     delay_ms := IocgStat.delay_ms st;
     usage_pct := IocgStat.usage st;
     address := IocgStat.address st;
     usage_pct_n := IocgStat.usages st |}.

(** Table mode.  The state label comes from the two flags; the override
    marker is left out when neither parameter set is the user's. *)
Definition state_label (r : controller) : string :=
  if enabled r =? 0 then "OFF" else if running r =? 0 then "IDLE" else "RUN".

Definition override_marker (cost qos : bool) : string :=
  if cost || qos then
    "(" +++ (if cost then "C" else "") +++ (if qos then "Q" else "") +++ ")"
  else "".

Definition preamble (devname : string) (r : controller) (profile : string)
    (cost qos : bool) : string :=
  String.concat " "
    [ devname;
      format_str 4 (state_label r);
      "per=" +++ str_float (period_ms r) +++ "ms";
      "cur_per=" +++ format_fixed 0 3 (PFloat (period_at r))
        +++ ":v" +++ format_fixed 0 3 (PFloat (period_vtime_at r));
      "busy=" +++ format_int_plus 3 (busy_level r);
      "vrate=" +++ format_fixed 6 2 (PFloat (vrate_pct r)) +++ "%";
      "params=" +++ profile +++ override_marker cost qos ].

(** A row: the last 28 characters of the path, the active marker, the
    weights as integers, the hweights and the in-flight share to two
    decimals, the debt rounded up and capped at 999, the delay-use counter
    capped at 99 and the delay rounded up, capped at 999 and zero-padded,
    then the ring, each slot rounded to the nearest integer, capped at 999,
    zero-padded to three digits, colon-separated. *)
Definition row (r : node) (path : string) : string :=
  String.concat " "
    [ format_str 28 (last_chars 28 path);
      (if is_active r =? 0 then " " else "*");
      format_int 5 (weight_inuse r) +++ "/" +++ format_int 5 (weight_active r);
      format_fixed 6 2 (PFloat (hweight_inuse_pct r)) +++ "/"
        +++ format_fixed 6 2 (PFloat (hweight_active_pct r));
      format_fixed 6 2 (inflight_pct r);
      format_int 3 (Z.min (math_ceil (debt_ms r)) 999);
      format_int 2 (Z.min (use_delay r) 99) +++ "*"
        +++ format_int_zero 3 (Z.min (math_ceil (delay_ms r)) 999);
      String.concat ":"
        (map (fun u => format_int_zero 3 (Z.min (py_round u) 999))
             (usage_pct_n r)) ].

End Spec.

(** The controller of the specification's example: enabled, running, a
    period of 100000 us, busy level -5, and the nominal rate. *)
Definition nominal_controller (prog : Prog) (c : ioc.t) : Prop :=
  ioc.enabled c = 1
  /\ ioc.running c = IOC_RUNNING prog
  /\ ioc.period_us c = 100000
  /\ ioc.busy_level c = -5
  /\ ioc.vtime_rate c = VTIME_PER_USEC prog.

(** "The preamble shows state RUN, per=100.0ms, busy=-5, vrate=100.00%." *)
Definition preamble_example_as_worded : Prop :=
  forall prog c devname st,
    nominal_controller prog c ->
    IocStat.init prog c = Ok st ->
    let line := IocStat.table_preamble_str devname st in
    contains "RUN" line = true
    /\ contains "per=100.0ms" line = true
    /\ contains "busy=-5" line = true
    /\ contains "vrate=100.00%" line = true.

(** Does the pair carry iocost policy data? *)
Definition has_policy_data (plid : Z) (entry : string * blkcg_gq.t) : bool :=
  match blkcg_gq.pd_at (snd entry) plid with
  | Some _ => true
  | None => false
  end.

(** ** What a tick shows *)

Section Emitted.

Variable re : re_engine.
Variable prog : Prog.
Variable plid : Z.
Variable args : Args.
Variable filter : option (re_pattern re).

(** A pair appears in the output when the loop body appends something for
    it. *)
Definition appears (now : pyfloat) (entry : string * blkcg_gq.t) : bool :=
  match node_step re prog plid args filter now "" entry with
  | Ok output => nonempty output
  | Raise _ => false
  end.

(** The line of a pair that appears, in the mode [args] asks for. *)
Definition line (now : pyfloat) (entry : string * blkcg_gq.t) : string :=
  match blkcg_gq.pd_at (snd entry) plid with
  | Some iocg =>
      match IocgStat.init prog iocg with
      | Ok st =>
          if table_fmt args then IocgStat.table_row_str st (fst entry)
          else Json.dumps (IocgStat.dict st now (fst entry))
      | Raise _ => ""
      end
  | None => ""
  end.

End Emitted.

(** The filter policy as the specification words it: a visited node is
    shown when (a) at least one pattern is configured and their
    OR-combination, the patterns joined by [|], matches its path from the
    start, whatever its active flag, or (b) no pattern is configured and
    the node is active. *)
Definition shown_as_worded (re : re_engine) (plid : Z) (args : Args)
    (path : string) (blkg : blkcg_gq.t) : Prop :=
  (exists r rs s p,
      cgroup args = Some (r :: rs)
      /\ re_str args = Some s
      /\ re_compile re s = Some p
      /\ re_matches re p path = true)
  \/ ((cgroup args = None \/ cgroup args = Some [])
      /\ exists iocg,
          blkcg_gq.pd_at blkg plid = Some iocg
          /\ ioc_gq.active_list_empty iocg = false).

Definition filter_policy_as_worded : Prop :=
  forall re prog plid args filter now path blkg,
    filter_re re args = Ok filter ->
    appears re prog plid args filter now (path, blkg) = true
    <-> shown_as_worded re plid args path blkg.

(** The policy of the code: the pair must carry policy data, and the
    pattern case needs the joined string not to be empty; an empty one
    counts as no pattern. *)
Definition shown (re : re_engine) (plid : Z) (args : Args)
    (path : string) (blkg : blkcg_gq.t) : Prop :=
  exists iocg,
    blkcg_gq.pd_at blkg plid = Some iocg
    /\ ((exists s p,
            re_str args = Some s /\ s <> ""
            /\ re_compile re s = Some p
            /\ re_matches re p path = true)
        \/ ((re_str args = None \/ re_str args = Some "")
            /\ ioc_gq.active_list_empty iocg = false)).

(** Does every member of the hierarchy under [b], [b] itself included, pass
    the test? *)
Fixpoint all_members (test : blkcg.t -> bool) (b : blkcg.t) : bool :=
  test b && forallb (all_members test) (blkcg.children b).

(** ** What a run prints *)

(** The first lines of a tick: the preamble and the header in table mode,
    the controller's record in structured mode. *)
Definition tick_header (prog : Prog) (args : Args) (snap : Snapshot) : string :=
  match IocStat.init prog (ioc_now snap) with
  | Ok iocstat =>
      if table_fmt args then
        nl +++ IocStat.table_preamble_str (devname args) iocstat
        +++ nl +++ IocStat.table_header_str
      else Json.dumps (IocStat.dict (devname args) iocstat (now snap))
  | Raise _ => ""
  end.

(** The text of a tick: the header, then the lines of the pairs of the walk
    that appear, in walk order. *)
Definition tick_text (re : re_engine) (prog : Prog) (plid : Z) (args : Args)
    (filter : option (re_pattern re)) (q_id : Z) (snap : Snapshot) : string :=
  tick_header prog args snap
  +++ String.concat ""
        (map (fun entry => nl +++ line prog plid args (now snap) entry)
             (List.filter (appears re prog plid args filter (now snap))
                (BlkgIterator.init prog (blkcg_root_now snap) q_id false))).

(** Everything a tick divides is of C-integer size. *)
Definition snapshot_in_range (prog : Prog) (plid q_id : Z) (snap : Snapshot)
    : Prop :=
  ioc_in_range (ioc_now snap) = true
  /\ forall path blkg iocg,
      In (path, blkg) (BlkgIterator.init prog (blkcg_root_now snap) q_id false) ->
      blkcg_gq.pd_at blkg plid = Some iocg ->
      iocg_in_range iocg = true.

(** ** Lines and characters *)

(** The printable ASCII characters, space to tilde. *)
Definition printable (c : ascii) : bool :=
  let n := N_of_ascii c in (32 <=? n)%N && (n <=? 126)%N.

(** [s.count(c)] *)
Fixpoint count_char (c : ascii) (s : string) : nat :=
  match s with
  | EmptyString => O
  | String d s' => ((if Ascii.eqb d c then 1 else 0) + count_char c s')%nat
  end.

(** The counters the capped columns show hold unsigned values. *)
Definition counters_unsigned (iocg : ioc_gq.t) : bool :=
  (0 <=? ioc_gq.abs_vdebt iocg) && (0 <=? ioc_gq.use_delay iocg)
  && (0 <=? ioc_gq.delay_nsec iocg) && slots_unsigned iocg.

(** The same [ioc_gq] with another rotation index. *)
Definition with_usage_idx (iocg : ioc_gq.t) (usage_idx : Z) : ioc_gq.t :=
  {| ioc_gq.ioc := ioc_gq.ioc iocg;
     ioc_gq.address := ioc_gq.address iocg;
     ioc_gq.active_list_empty := ioc_gq.active_list_empty iocg;
     ioc_gq.weight := ioc_gq.weight iocg;
     ioc_gq.active := ioc_gq.active iocg;
     ioc_gq.inuse := ioc_gq.inuse iocg;
     ioc_gq.hweight_active := ioc_gq.hweight_active iocg;
     ioc_gq.hweight_inuse := ioc_gq.hweight_inuse iocg;
     ioc_gq.done_vtime := ioc_gq.done_vtime iocg;
     ioc_gq.vtime := ioc_gq.vtime iocg;
     ioc_gq.abs_vdebt := ioc_gq.abs_vdebt iocg;
     ioc_gq.use_delay := ioc_gq.use_delay iocg;
     ioc_gq.delay_nsec := ioc_gq.delay_nsec iocg;
     ioc_gq.usage_idx := usage_idx;
     ioc_gq.usages := ioc_gq.usages iocg |}.

(** ** Reading numbers back

    What the strings of the structured output denote, as [int], [float] and
    [int(_, 16)] read them.  The readers know the plain decimal and
    hexadecimal notations, which is what [str] and [hex] write. *)

Module Reading.

(** The value of a decimal digit, by its code point. *)
Definition digit_of (c : ascii) : option Z :=
  let n := Z.of_N (N_of_ascii c) - 48 in
  if (0 <=? n) && (n <=? 9) then Some n else None.

(** The same for a hexadecimal digit, letters in lower case. *)
Definition hex_digit_of (c : ascii) : option Z :=
  let n := Z.of_N (N_of_ascii c) - 97 in
  if (0 <=? n) && (n <=? 5) then Some (n + 10) else digit_of c.

(** The number a string of digits denotes in the given base, most
    significant digit first, continuing from [acc]. *)
Fixpoint digits_value (base : Z) (digit : ascii -> option Z) (s : string)
    (acc : Z) : option Z :=
  match s with
  | EmptyString => Some acc
  | String c s' =>
      match digit c with
      | Some d => digits_value base digit s' (acc * base + d)
      | None => None
      end
  end.

Definition uint_of_str (s : string) : option Z :=
  if nonempty s then digits_value 10 digit_of s 0 else None.

(** [int(s)] on a plain decimal. *)
Definition int_of_str (s : string) : option Z :=
  match s with
  | String "-" body => option_map Z.opp (uint_of_str body)
  | _ => uint_of_str s
  end.

(** [int(s, 16)] on what [hex] writes. *)
Definition int_of_hex (s : string) : option Z :=
  match s with
  | String "-" (String "0" (String "x" body)) =>
      if nonempty body then option_map Z.opp (digits_value 16 hex_digit_of body 0)
      else None
  | String "0" (String "x" body) =>
      if nonempty body then digits_value 16 hex_digit_of body 0 else None
  | _ => None
  end.

(** The text before and after the first [c]. *)
Fixpoint split_at (c : ascii) (s : string) : option (string * string) :=
  match s with
  | EmptyString => None
  | String d s' =>
      if Ascii.eqb d c then Some (EmptyString, s')
      else option_map (fun p => (String d (fst p), snd p)) (split_at c s')
  end.

(** Digits, with or without a fraction. *)
Definition mantissa_of_str (s : string) : option Q :=
  match split_at "." s with
  | None => option_map inject_Z (uint_of_str s)
  | Some (whole, fraction) =>
      if nonempty whole && nonempty fraction then
        option_map
          (fun n => (inject_Z n / inject_Z (10 ^ Z.of_nat (String.length fraction)))%Q)
          (digits_value 10 digit_of (whole +++ fraction) 0)
      else None
  end.

Definition exponent_of_str (s : string) : option Z :=
  match s with
  | String "+" body => uint_of_str body
  | String "-" body => option_map Z.opp (uint_of_str body)
  | _ => uint_of_str s
  end.

(** The rational a decimal text denotes, exactly. *)
Definition decimal_of_str (s : string) : option Q :=
  match split_at "e" s with
  | None => mantissa_of_str s
  | Some (m, e) =>
      match mantissa_of_str m, exponent_of_str e with
      | Some mv, Some ev => Some (mv * PyFloat.pow10 ev)%Q
      | _, _ => None
      end
  end.

(** [float(s)] on a plain decimal: the binary64 nearest the number the
    text denotes; [None] for another text and for one too large for a
    float. *)
Definition float_of_str (s : string) : option pyfloat :=
  let (neg, body) :=
    match s with
    | String "-" body => (true, body)
    | _ => (false, s)
    end in
  match decimal_of_str body with
  | Some q =>
      let m := PyFloat.round q in
      if Qle_bool (PyFloat.pow2 1024) m then None else Some (PyFloat.mk neg m)
  | None => None
  end.

(** A JSON consumer's reading of a number: an int where the text is one. *)
Definition num_of_str (s : string) : option pynum :=
  match int_of_str s with
  | Some n => Some (PInt n)
  | None => option_map PFloat (float_of_str s)
  end.

End Reading.

(** *** The grid of the floats and the layout of [repr]

    What the proof that [float(str(x))] is [x] needs to name. *)

(** The relative distance within which a decimal of seventeen digits stays
    from the value it was rounded from. *)
Definition seventeen : Q := 1 # 20000000000000000.

(** The estimate [l * 30103 / 100000] of [ilog10] is at most one off, for
    every binade of a binary64. *)
Definition ilog10_estimate_ok (l : Z) : bool :=
  let k := l * 30103 / 100000 in
  Qle_bool (PyFloat.pow10 (k - 1)) (PyFloat.pow2 l)
  && Qle_bool (PyFloat.pow2 (l + 1)) (PyFloat.pow10 (k + 2)).

(** The text [repr] lays out for the digits [ds] and the position [decpt]
    of the decimal point. *)
Definition decimal_layout (ds : string) (decpt : Z) : string :=
  let nd := Z.of_nat (String.length ds) in
  if (decpt <=? -4) || (16 <? decpt) then
    (substring 0 1 ds
     +++ (if 1 <? nd then "." +++ substring 1 (String.length ds - 1) ds else "")
     +++ "e" +++ exponent_str (decpt - 1))
  else if decpt <=? 0 then
    ("0." +++ repeat_char "0" (Z.to_nat (- decpt)) +++ ds)
  else if nd <=? decpt then
    (ds +++ repeat_char "0" (Z.to_nat (decpt - nd)) +++ ".0")
  else
    (substring 0 (Z.to_nat decpt) ds +++ "."
     +++ substring (Z.to_nat decpt) (String.length ds - Z.to_nat decpt) ds).

(** A float of the script: a value of the binary64 grid, below [2^1024]. *)
Definition binary64 (x : pyfloat) : Prop :=
  PyFloat.round (PyFloat.mag x) = PyFloat.mag x
  /\ (PyFloat.mag x < PyFloat.pow2 1024)%Q.

Definition binary64_num (v : pynum) : Prop :=
  match v with
  | PInt _ => True
  | PFloat x => binary64 x
  end.

(** ** Reading a structured record back

    What a consumer of the structured output has: the fields by key, and
    the numbers their strings denote. *)

Module Fields.

Definition field (record : list (string * string)) (key : string)
    : option string :=
  option_map snd (find (fun kv => String.eqb (fst kv) key) record).

Definition and_then {A B : Type} (m : option A) (k : A -> option B)
    : option B :=
  match m with
  | Some a => k a
  | None => None
  end.

Definition int_field (record : list (string * string)) (key : string)
    : option Z :=
  and_then (field record key) Reading.int_of_str.

Definition float_field (record : list (string * string)) (key : string)
    : option pyfloat :=
  and_then (field record key) Reading.float_of_str.

Definition num_field (record : list (string * string)) (key : string)
    : option pynum :=
  and_then (field record key) Reading.num_of_str.

Definition hex_field (record : list (string * string)) (key : string)
    : option Z :=
  and_then (field record key) Reading.int_of_hex.

Fixpoint all_some {A : Type} (l : list (option A)) : option (list A) :=
  match l with
  | [] => Some []
  | x :: rest =>
      and_then x (fun a => and_then (all_some rest) (fun r => Some (a :: r)))
  end.

(** The ring: the fields [usage_pct_<i>], as many as the record has. *)
Definition is_slot (kv : string * string) : bool :=
  String.prefix "usage_pct_" (fst kv).

Definition ring (record : list (string * string)) : option (list pyfloat) :=
  all_some
    (map (fun i => float_field record ("usage_pct_" +++ str_int i))
         (py_range (Z.of_nat (List.length (filter is_slot record))))).

(** The numbers of a controller record. *)
Definition controller (record : list (string * string))
    : option Spec.controller :=
  and_then (int_field record "enabled") (fun enabled =>
  and_then (int_field record "running") (fun running =>
  and_then (float_field record "period_ms") (fun period_ms =>
  and_then (float_field record "period_at") (fun period_at =>
  and_then (float_field record "period_vtime_at") (fun period_vtime_at =>
  and_then (int_field record "busy_level") (fun busy_level =>
  and_then (float_field record "vrate_pct") (fun vrate_pct =>
  Some {| Spec.enabled := enabled;
          Spec.running := running;
          Spec.period_ms := period_ms;
          Spec.period_at := period_at;
          Spec.period_vtime_at := period_vtime_at;
          Spec.busy_level := busy_level;
          Spec.vrate_pct := vrate_pct |}))))))).

(** The numbers of a node record. *)
Definition node (record : list (string * string)) : option Spec.node :=
  and_then (int_field record "is_active") (fun is_active =>
  and_then (int_field record "weight") (fun weight =>
  and_then (int_field record "weight_active") (fun weight_active =>
  and_then (int_field record "weight_inuse") (fun weight_inuse =>
  and_then (float_field record "hweight_active_pct") (fun hweight_active_pct =>
  and_then (float_field record "hweight_inuse_pct") (fun hweight_inuse_pct =>
  and_then (num_field record "inflight_pct") (fun inflight_pct =>
  and_then (float_field record "debt_ms") (fun debt_ms =>
  and_then (int_field record "use_delay") (fun use_delay =>
  and_then (float_field record "delay_ms") (fun delay_ms =>
  and_then (num_field record "usage_pct") (fun usage_pct =>
  and_then (hex_field record "address") (fun address =>
  and_then (ring record) (fun usage_pct_n =>
  Some {| Spec.is_active := is_active;
          Spec.weight := weight;
          Spec.weight_active := weight_active;
          Spec.weight_inuse := weight_inuse;
          Spec.hweight_active_pct := hweight_active_pct;
          Spec.hweight_inuse_pct := hweight_inuse_pct;
          Spec.inflight_pct := inflight_pct;
          Spec.debt_ms := debt_ms;
          Spec.use_delay := use_delay;
          Spec.delay_ms := delay_ms;
          Spec.usage_pct := usage_pct;
          Spec.address := address;
          Spec.usage_pct_n := usage_pct_n |}))))))))))))).

End Fields.







(** ** Example kernels *)

Module Sample.

(** The constants of a v5.4 kernel. *)
Definition prog : Prog :=
  {| CSS_ONLINE := 2; IOC_RUNNING := 1; NR_USAGE_SLOTS := 3;
     HWEIGHT_WHOLE := 65536; VTIME_PER_SEC := 137438953472;
     VTIME_PER_USEC := 137438;
     AUTOP_SSD_FAST := 3; AUTOP_SSD_DFL := 2; AUTOP_SSD_QD1 := 1;
     AUTOP_HDD := 0 |}.

Definition controller : ioc.t :=
  {| ioc.enabled := 1; ioc.running := 1; ioc.period_us := 100000;
     ioc.period_at := 123456789; ioc.period_at_vtime := 99999999999999;
     ioc.vtime_rate := 137438; ioc.busy_level := -5; ioc.autop_idx := 2;
     ioc.user_cost_model := 0; ioc.user_qos_params := 0 |}.

(** The same controller before its first period: no rate yet. *)
Definition stalled_controller : ioc.t :=
  {| ioc.enabled := 1; ioc.running := 0; ioc.period_us := 100000;
     ioc.period_at := 0; ioc.period_at_vtime := 0;
     ioc.vtime_rate := 0; ioc.busy_level := 0; ioc.autop_idx := 2;
     ioc.user_cost_model := 0; ioc.user_qos_params := 0 |}.

Definition iocg_on (c : ioc.t) (address : Z) (is_active : bool) : ioc_gq.t :=
  {| ioc_gq.ioc := c; ioc_gq.address := address;
     ioc_gq.active_list_empty := negb is_active;
     ioc_gq.weight := 100; ioc_gq.active := 100; ioc_gq.inuse := 50;
     ioc_gq.hweight_active := 65536; ioc_gq.hweight_inuse := 32768;
     ioc_gq.done_vtime := 1000000; ioc_gq.vtime := 900000000000;
     ioc_gq.abs_vdebt := 0; ioc_gq.use_delay := 0; ioc_gq.delay_nsec := 0;
     ioc_gq.usage_idx := 2; ioc_gq.usages := [100; 65536; 32768] |}.

Definition iocg : Z -> bool -> ioc_gq.t := iocg_on controller.

(** One tick per microsecond, and a cgroup 2,500,001 ticks in debt. *)
Definition prog_tick_per_usec : Prog :=
  {| CSS_ONLINE := 2; IOC_RUNNING := 1; NR_USAGE_SLOTS := 3;
     HWEIGHT_WHOLE := 65536; VTIME_PER_SEC := 1000000;
     VTIME_PER_USEC := 1;
     AUTOP_SSD_FAST := 3; AUTOP_SSD_DFL := 2; AUTOP_SSD_QD1 := 1;
     AUTOP_HDD := 0 |}.

Definition indebted : ioc_gq.t :=
  {| ioc_gq.ioc := controller; ioc_gq.address := 4096;
     ioc_gq.active_list_empty := false;
     ioc_gq.weight := 100; ioc_gq.active := 100; ioc_gq.inuse := 50;
     ioc_gq.hweight_active := 65536; ioc_gq.hweight_inuse := 32768;
     ioc_gq.done_vtime := 0; ioc_gq.vtime := 0;
     ioc_gq.abs_vdebt := 2500001; ioc_gq.use_delay := 0; ioc_gq.delay_nsec := 0;
     ioc_gq.usage_idx := 0; ioc_gq.usages := [0; 0; 0] |}.

Definition sda : request_queue.t :=
  {| request_queue.id := 7; request_queue.kobj_parent_name := Some "sda" |}.

(** Policy 1 is iocost. *)
Definition plid : Z := 1.

Definition blkg (address : Z) (is_active : bool) : blkcg_gq.t :=
  {| blkcg_gq.q := sda; blkcg_gq.pd := [None; Some (iocg address is_active)] |}.

Definition blkg_without_pd : blkcg_gq.t :=
  {| blkcg_gq.q := sda; blkcg_gq.pd := [None; None] |}.

Definition online (name : string) (b : blkcg_gq.t) (children : list blkcg.t)
    : blkcg.t :=
  blkcg.mk 2 name [(7, b)] children.

(** An online cgroup under one that is going away. *)
Definition kid : blkcg.t := online "kid" (blkg 4096 true) [].
Definition dying : blkcg.t := blkcg.mk 0 "dying" [(7, blkg 8192 true)] [kid].

(** An online cgroup under one with no [blkcg_gq] for the device. *)
Definition leaf : blkcg.t := online "leaf" (blkg 12288 true) [].
Definition unattached : blkcg.t := blkcg.mk 2 "unattached" [] [leaf].

(** A root whose only [blkcg_gq] for the disk has no iocost data attached. *)
Definition root_without_ioc : blkcg.t :=
  blkcg.mk 2 "" [(7, blkg_without_pd)] [].

Definition symbols_without_ioc : Symbols :=
  {| blkcg_root := Some root_without_ioc;
     blkcg_policy_iocost_plid := Some plid |}.

Definition table_args : Args :=
  {| devname := "sda"; cgroup := None; interval := Seconds (PInt 1); json := false |}.

Definition snapshot : Snapshot :=
  {| now := PyFloat.mk false (inject_Z 1700000000);
     ioc_now := controller;
     blkcg_root_now := root_without_ioc;
     monotonic := 19352246767449 |}.

(** Two pairs a walk can yield: a cgroup whose [blkcg_gq] has no iocost
    data, and one that is not active. *)
Definition unattached_pair : string * blkcg_gq.t := ("db", blkg_without_pd).
Definition idle_pair : string * blkcg_gq.t := ("db", blkg 4096 false).

Definition busy_pair : string * blkcg_gq.t := ("db/a", blkg 8192 true).

(** The nodes of the specification's filtering examples. *)
Definition db_a_idle : string * blkcg_gq.t := ("db/a", blkg 4096 false).
Definition cache_b : string * blkcg_gq.t := ("cache/b", blkg 8192 true).
Definition a_active : string * blkcg_gq.t := ("a", blkg 4096 true).
Definition b_idle : string * blkcg_gq.t := ("b", blkg 8192 false).

Definition args_with (patterns : list string) (as_json : bool) : Args :=
  {| devname := "sda"; cgroup := Some patterns; interval := Seconds (PInt 1);
     json := as_json |}.

(** A hierarchy with every member online: the root, [db] and [db/a]. *)
Definition db_a : blkcg.t := online "a" (blkg 12288 false) [].
Definition db : blkcg.t := online "db" (blkg 8192 true) [db_a].
Definition root : blkcg.t := online "" (blkg 4096 true) [db].

(** The disks of a machine: [sdb] without iocost data, then [sda] with. *)
Definition sdb : request_queue.t :=
  {| request_queue.id := 3; request_queue.kobj_parent_name := Some "sdb" |}.
Definition root_blkgs : radix_tree blkcg_gq.t :=
  [ (3, {| blkcg_gq.q := sdb; blkcg_gq.pd := [None; None] |});
    (7, blkg 4096 true) ].


Definition live_snapshot : Snapshot :=
  {| now := PyFloat.mk false (inject_Z 1700000000);
     ioc_now := controller;
     blkcg_root_now := root;
     monotonic := 19352246767449 |}.

Definition json_args : Args :=
  {| devname := "sda"; cgroup := None; interval := Seconds (PInt 1); json := true |}.

End Sample.

(** * Properties *)

(** ** The number model on known values

    What CPython prints for a few quotients, as fixed points of the
    model. *)

Example str_of_one_third :
  (x <- py_int_truediv 1 3 ;; Ok (str_float x)) = Ok "0.3333333333333333".
Proof. vm_compute. reflexivity. Qed.

Example str_of_a_hundred_thirds :
  (x <- py_int_truediv 100 3 ;; Ok (str_float x)) = Ok "33.333333333333336".
Proof. vm_compute. reflexivity. Qed.

Example str_of_small_and_large :
  (x <- py_int_truediv 1 100000 ;; y <- py_int_truediv (10 ^ 16) 1 ;;
   Ok (str_float x, str_float y)) = Ok ("1e-05", "1e+16").
Proof. vm_compute. reflexivity. Qed.

Example str_of_negative_zero :
  (x <- py_int_truediv 0 (-5) ;; Ok (str_float x, format_fixed 6 2 (PFloat x)))
  = Ok ("-0.0", " -0.00").
Proof. vm_compute. reflexivity. Qed.

Example fixed_rounds_the_binary_value :
  (x <- py_int_truediv 2675 1000 ;; y <- py_int_truediv 1 8 ;;
   Ok (format_fixed 6 2 (PFloat x), format_fixed 6 2 (PFloat y)))
  = Ok ("  2.67", "  0.12").
Proof. vm_compute. reflexivity. Qed.

Example ceil_and_round :
  (x <- py_int_truediv 5 2 ;; y <- py_int_truediv 7 2 ;;
   Ok (math_ceil x, py_round x, py_round y)) = Ok (3, 2, 4).
Proof. vm_compute. reflexivity. Qed.

Example zero_divisor_raises :
  py_int_truediv 1 0 = Raise ZeroDivisionError.
Proof. reflexivity. Qed.

Example signed_and_padded_ints :
  (format_int_plus 3 (-5), format_int_plus 3 5, format_int_zero 3 7,
   format_int 5 100, py_hex 255)
  = (" -5", " +5", "007", "  100", "0xff").
Proof. vm_compute. reflexivity. Qed.

(** What [time.sleep] does with a few lengths, the monotonic clock at
    19352 s: a negative length and a NaN are a [ValueError], an infinite or
    too long one an [OverflowError], [-0.0] and [1e-10] are taken, and
    9223372036 s, which would end past [2^63] ns on the clock, is an
    [OSError]. *)
Example sleep_lengths :
  let float_of neg q := Seconds (PFloat (PyFloat.mk neg (PyFloat.round q))) in
  let clock := 19352246767449 in
  map (fun secs => time_sleep secs clock)
      [ Seconds (PInt 1); Seconds (PInt (-1)); float_of true 1%Q;
        float_of true 0%Q; float_of false (1 # 10000000000)%Q;
        float_of true (1 # 10000000000)%Q; NotANumber; Infinite false;
        float_of false (inject_Z (10 ^ 10)); Seconds (PInt (10 ^ 10));
        float_of false (9223372036854776 # 1000000)%Q;
        Seconds (PInt 9223372036) ]
  = [ Ok tt; Raise ValueError; Raise ValueError;
      Ok tt; Ok tt;
      Raise ValueError; Raise ValueError; Raise OverflowError;
      Raise OverflowError; Raise OverflowError;
      Raise ValueError;
      Raise OSError ].
Proof. vm_compute. reflexivity. Qed.

(** ** The hierarchy walk *)

(** Induction on a cgroup with the hypothesis on every child. *)
Lemma blkcg_children_ind (P : blkcg.t -> Prop) :
  (forall flags name tree children,
      Forall P children -> P (blkcg.mk flags name tree children)) ->
  forall b, P b.
Proof.
  intros step. fix self 1. intros [flags name tree children].
  apply step. induction children as [|c cs IH]; constructor.
  - apply self.
  - exact IH.
Qed.

Lemma walk_children_app prog incl q_id path (cs : list blkcg.t) :
  Forall (fun c => forall pp acc,
            BlkgIterator.walk prog incl c q_id pp acc
            = (acc ++ BlkgIterator.walk prog incl c q_id pp [])%list) cs ->
  forall acc,
    fold_left (fun acc c => BlkgIterator.walk prog incl c q_id path acc) cs acc
    = (acc ++ flat_map (fun c => BlkgIterator.walk prog incl c q_id path []) cs)%list.
Proof.
  induction 1 as [|c cs Hc _ IH]; intros acc; simpl.
  - now rewrite app_nil_r.
  - rewrite IH, (Hc path acc), <- app_assoc. reflexivity.
Qed.

(** [walk] only appends. *)
Lemma walk_app prog incl q_id b :
  forall pp acc,
    BlkgIterator.walk prog incl b q_id pp acc
    = (acc ++ BlkgIterator.walk prog incl b q_id pp [])%list.
Proof.
  induction b as [flags name tree children IH] using blkcg_children_ind.
  intros pp acc. simpl.
  destruct (negb incl && negb (css_online prog _)).
  - now rewrite app_nil_r.
  - destruct (radix_tree_lookup tree q_id) as [blkg|].
    + rewrite !(walk_children_app _ _ _ _ _ IH).
      simpl. now rewrite <- app_assoc.
    + now rewrite app_nil_r.
Qed.

(** The walk of one member, unfolded once. *)
Lemma walk_unfold prog incl q_id b pp :
  BlkgIterator.walk prog incl b q_id pp []
  = if negb incl && negb (css_online prog b) then []
    else
      let path := if nonempty pp then pp +++ "/" +++ blkcg.name b
                  else blkcg.name b in
      match radix_tree_lookup (blkcg.blkg_tree b) q_id with
      | None => []
      | Some blkg =>
          (if nonempty path then path else "/", blkg)
          :: flat_map (fun c => BlkgIterator.walk prog incl c q_id path [])
                      (blkcg.children b)
      end.
Proof.
  destruct b as [flags name tree children]. simpl.
  destruct (negb incl && negb (css_online prog _)); [reflexivity|].
  destruct (radix_tree_lookup tree q_id); [|reflexivity].
  rewrite walk_children_app.
  - reflexivity.
  - apply Forall_forall. intros c _ pp' acc. apply walk_app.
Qed.

(** The pairs of a walk are exactly the ones [yields] describes. *)
Lemma walk_yields prog incl q_id b :
  forall pp entry,
    In entry (BlkgIterator.walk prog incl b q_id pp [])
    <-> yields prog incl q_id b pp entry.
Proof.
  induction b as [flags name tree children IH] using blkcg_children_ind.
  rewrite Forall_forall in IH.
  intros pp entry. rewrite walk_unfold, <- negb_orb. split.
  - destruct (incl || css_online prog _) eqn:V; [|intros []].
    cbn [negb blkcg.name blkcg.blkg_tree blkcg.children].
    destruct (radix_tree_lookup tree q_id) as [blkg|] eqn:L; [|intros []].
    intros [<-|Hin].
    + exact (yields_self prog incl q_id _ pp blkg V L).
    + apply in_flat_map in Hin as (c & Hc & Hin).
      apply (yields_child prog incl q_id _ pp blkg c entry V L Hc).
      now apply IH.
  - intros Y.
    inversion Y as [b' pp' blkg V L|b' pp' blkg c e V L Hc Yc]; subst;
      rewrite V; cbn [negb blkcg.name blkcg.blkg_tree blkcg.children] in *;
      rewrite L.
    + now left.
    + right. apply in_flat_map. exists c. split; [exact Hc|]. now apply IH.
Qed.

(** C1, as the specification words it, fails: the online child [kid] of the
    offline cgroup [dying] has an accounting node for the device, and the
    walk of [dying] does not reach it. *)
Lemma offline_member_hides_only_itself_fails :
  ~ offline_member_hides_only_itself.
Proof.
  intros claim.
  specialize (claim Sample.prog Sample.dying 7 "" Sample.kid
                    (Sample.blkg 4096 true)).
  cbv in claim. apply claim; try reflexivity. now left.
Qed.

(** C1 (amended): with [include_dying] false, a member that is not marked
    online is skipped together with its whole subtree: its visit returns at
    once, adds nothing to the output, and no pair of a descendant comes out
    of it. *)
Theorem walk_skips_offline_subtree :
  forall prog b q_id parent_path blkgs,
    css_online prog b = false ->
    BlkgIterator.walk prog false b q_id parent_path blkgs = blkgs
    /\ forall entry, ~ yields prog false q_id b parent_path entry.
Proof.
  intros prog b q_id pp blkgs Hoff. split.
  - rewrite walk_app, walk_unfold, Hoff. simpl. apply app_nil_r.
  - intros entry Y. apply walk_yields in Y.
    rewrite walk_unfold, Hoff in Y. exact Y.
Qed.

Lemma walk_skips_offline_subtree_witness :
  css_online Sample.prog Sample.dying = false
  /\ BlkgIterator.walk Sample.prog false Sample.dying 7 "" [] = []
  /\ forall entry, ~ yields Sample.prog false 7 Sample.dying "" entry.
Proof.
  split; [reflexivity|].
  apply (walk_skips_offline_subtree Sample.prog Sample.dying 7 "" []).
  reflexivity.
Defined.

(** C2, as the specification words it, fails: [unattached] has no
    [blkcg_gq] for the device, its child [leaf] has one, and the walk of
    [unattached] does not reach [leaf]. *)
Lemma missing_node_still_recurses_fails :
  ~ missing_node_still_recurses.
Proof.
  intros claim.
  specialize (claim Sample.prog Sample.unattached 7 "" Sample.leaf
                    (Sample.blkg 12288 true)).
  cbv in claim. apply claim; try reflexivity. now left.
Qed.

(** C2 (amended): when the device-indexed lookup finds no accounting node
    for a visited member, the member is not added and the walk does not
    descend into its children: the visit adds nothing to the output, for the
    member or for any descendant. *)
Theorem walk_skips_unattached_subtree :
  forall prog include_dying b q_id parent_path blkgs,
    radix_tree_lookup (blkcg.blkg_tree b) q_id = None ->
    BlkgIterator.walk prog include_dying b q_id parent_path blkgs = blkgs
    /\ forall entry, ~ yields prog include_dying q_id b parent_path entry.
Proof.
  intros prog incl b q_id pp blkgs Hnone.
  assert (E : BlkgIterator.walk prog incl b q_id pp [] = []).
  { rewrite walk_unfold, Hnone.
    now destruct (negb incl && negb (css_online prog b)). }
  split.
  - rewrite walk_app, E. apply app_nil_r.
  - intros entry Y. apply walk_yields in Y. rewrite E in Y. exact Y.
Qed.

Lemma walk_skips_unattached_subtree_witness :
  radix_tree_lookup (blkcg.blkg_tree Sample.unattached) 7 = None
  /\ BlkgIterator.walk Sample.prog false Sample.unattached 7 "" [] = []
  /\ forall entry, ~ yields Sample.prog false 7 Sample.unattached "" entry.
Proof.
  split; [reflexivity|].
  apply (walk_skips_unattached_subtree Sample.prog false Sample.unattached 7 "" []).
  reflexivity.
Defined.

(** ** Numbers *)

Lemma overflow_threshold_large : 2 ^ 80 <= PyFloat.overflow_threshold.
Proof. vm_compute. discriminate. Qed.

(** Dividing ints of C size never overflows a float. *)
Lemma py_int_truediv_ok a b :
  b <> 0 -> Z.abs a < 2 ^ 80 -> py_int_truediv a b = Ok (int_quotient a b).
Proof.
  intros Hb Ha. unfold py_int_truediv.
  destruct (Z.eqb_spec b 0) as [|_]; [contradiction|].
  pose proof overflow_threshold_large as T.
  generalize dependent PyFloat.overflow_threshold. intros t T.
  destruct (Z.leb_spec (t * Z.abs b) (Z.abs a)) as [H|_]; [|reflexivity].
  exfalso. assert (1 <= Z.abs b) by lia. nia.
Qed.

Lemma c_int_abs n : c_int n = true -> Z.abs n < 2 ^ 64.
Proof.
  unfold c_int. rewrite andb_true_iff, Z.leb_le, Z.ltb_lt.
  change (2 ^ 63) with 9223372036854775808.
  change (2 ^ 64) with 18446744073709551616. lia.
Qed.

Lemma c_int_scaled n : c_int n = true -> Z.abs (n * 100) < 2 ^ 80.
Proof.
  intros H%c_int_abs. rewrite Z.abs_mul.
  change (2 ^ 64) with 18446744073709551616 in H.
  change (2 ^ 80) with 1208925819614629174706176. lia.
Qed.

Lemma c_int_diff_scaled n m :
  c_int n = true -> c_int m = true -> Z.abs ((n - m) * 100) < 2 ^ 80.
Proof.
  intros Hn%c_int_abs Hm%c_int_abs. rewrite Z.abs_mul.
  change (2 ^ 64) with 18446744073709551616 in *.
  change (2 ^ 80) with 1208925819614629174706176. lia.
Qed.

Lemma c_int_small n : c_int n = true -> Z.abs n < 2 ^ 80.
Proof.
  intros H%c_int_abs.
  change (2 ^ 64) with 18446744073709551616 in H.
  change (2 ^ 80) with 1208925819614629174706176. lia.
Qed.

Lemma nonzero_neq n : nonzero n = true <-> n <> 0.
Proof. unfold nonzero. rewrite negb_true_iff. apply Z.eqb_neq. Qed.

(** Rounding sees the value of a rational, whichever fraction denotes it. *)
Lemma round_Qeq x y : (x == y)%Q -> PyFloat.round x = PyFloat.round y.
Proof. intros E. unfold PyFloat.round. now rewrite (Qred_complete _ _ E). Qed.

Lemma round_half_even_nonneg x : (0 <= x)%Q -> 0 <= PyFloat.round_half_even x.
Proof.
  intros Hx. unfold PyFloat.round_half_even.
  assert (0 <= Qfloor x).
  { change 0 with (Qfloor 0). now apply Qfloor_resp_le. }
  destruct (Qcompare _ _); [destruct (Z.even _)| |]; lia.
Qed.

Lemma round_nonneg x : (0 <= PyFloat.round x)%Q.
Proof.
  unfold PyFloat.round.
  destruct (Qle_bool (Qred x) 0) eqn:E; [apply Qle_refl|].
  rewrite Qred_correct.
  assert (Hpos : (0 < Qred x)%Q).
  { apply Qnot_le_lt. intros H%Qle_bool_iff. congruence. }
  set (e := Z.max _ _).
  assert (Hp : (0 < PyFloat.pow2 e)%Q) by (apply Qpower_0_lt; reflexivity).
  apply Qmult_le_0_compat; [|now apply Qlt_le_weak].
  change 0%Q with (inject_Z 0). rewrite <- Zle_Qle.
  apply round_half_even_nonneg.
  apply Qle_shift_div_l; [exact Hp|]. rewrite Qmult_0_l. now apply Qlt_le_weak.
Qed.

Lemma py_float_truediv_1000 x :
  py_float_truediv_int x 1000
  = Ok (PyFloat.mk (PyFloat.neg x) (PyFloat.round (PyFloat.mag x / inject_Z 1000))).
Proof.
  unfold py_float_truediv_int.
  change (PyFloat.of_int 1000) with (Ok (PyFloat.mk false (inject_Z 1000))).
  cbn. now rewrite xorb_false_r.
Qed.

(** ** Deriving the statistics of one cgroup *)

Lemma usage_slot_in_range iocg k :
  forallb c_int (ioc_gq.usages iocg) = true ->
  c_int (nth k (ioc_gq.usages iocg) 0) = true.
Proof.
  intros H. destruct (nth_in_or_default k (ioc_gq.usages iocg) 0) as [Hin| ->].
  - rewrite forallb_forall in H. now apply H.
  - reflexivity.
Qed.

(** The loop over the slots never raises, appends one percentage per index
    and folds [max] over them. *)
Lemma usage_loop_ok prog iocg :
  HWEIGHT_WHOLE prog <> 0 ->
  forallb c_int (ioc_gq.usages iocg) = true ->
  forall todo usages usage,
    IocgStat.usage_loop prog iocg (ioc_gq.usage_idx iocg) todo usages usage
    = Ok ((usages ++ map (slot_pct prog iocg) todo)%list,
          fold_left (fun m i => py_max m (PFloat (slot_pct prog iocg i)))
                    todo usage).
Proof.
  intros Hw Hr. induction todo as [|i todo IH]; intros usages usage; simpl.
  - now rewrite app_nil_r.
  - rewrite py_int_truediv_ok;
      [|exact Hw|apply c_int_scaled, usage_slot_in_range, Hr].
    simpl. rewrite IH, <- app_assoc. reflexivity.
Qed.

(** Within the ranges of the kernel's types [IocgStat(iocg)] does not raise,
    and this is the object it builds. *)
Lemma IocgStat_init_ok prog iocg :
  scales_nonzero prog = true ->
  iocg_in_range iocg = true ->
  IocgStat.init prog iocg
  = Ok {| IocgStat.is_active := negb (ioc_gq.active_list_empty iocg);
          IocgStat.weight := ioc_gq.weight iocg;
          IocgStat.active := ioc_gq.active iocg;
          IocgStat.inuse := ioc_gq.inuse iocg;
          IocgStat.hwa_pct :=
            int_quotient (ioc_gq.hweight_active iocg * 100) (HWEIGHT_WHOLE prog);
          IocgStat.hwi_pct :=
            int_quotient (ioc_gq.hweight_inuse iocg * 100) (HWEIGHT_WHOLE prog);
          IocgStat.address := ioc_gq.address iocg;
          IocgStat.inflight_pct :=
            if nonzero (period_vtime iocg) then
              PFloat (int_quotient
                        ((ioc_gq.vtime iocg - ioc_gq.done_vtime iocg) * 100)
                        (period_vtime iocg))
            else PInt 0;
          IocgStat.debt_ms :=
            (let x := int_quotient (ioc_gq.abs_vdebt iocg) (VTIME_PER_USEC prog) in
             PyFloat.mk (PyFloat.neg x)
                        (PyFloat.round (PyFloat.mag x / inject_Z 1000)));
          IocgStat.use_delay := ioc_gq.use_delay iocg;
          IocgStat.delay_ms := int_quotient (ioc_gq.delay_nsec iocg) 1000000;
          IocgStat.usages := map (slot_pct prog iocg) (py_range (NR_USAGE_SLOTS prog));
          IocgStat.usage :=
            fold_left (fun m i => py_max m (PFloat (slot_pct prog iocg i)))
                      (py_range (NR_USAGE_SLOTS prog)) (PInt 0) |}.
Proof.
  unfold scales_nonzero, iocg_in_range, ioc_in_range.
  rewrite !andb_true_iff, !nonzero_neq.
  intros [[Hw _] Hu] [[[[[[[_ Hhwa] Hhwi] Hdone] Hvtime] Hdebt] Hdelay] Hslots].
  unfold IocgStat.init.
  rewrite (py_int_truediv_ok _ _ Hw (c_int_scaled _ Hhwa)).
  rewrite (py_int_truediv_ok _ _ Hw (c_int_scaled _ Hhwi)).
  cbn [bind]. fold (period_vtime iocg).
  rewrite (py_int_truediv_ok _ _ Hu (c_int_small _ Hdebt)).
  cbn [bind]. rewrite py_float_truediv_1000.
  rewrite (py_int_truediv_ok (ioc_gq.delay_nsec iocg) 1000000)
    by (discriminate || now apply c_int_small).
  rewrite (usage_loop_ok prog iocg Hw Hslots).
  destruct (nonzero (period_vtime iocg)) eqn:Hp.
  - apply nonzero_neq in Hp.
    rewrite (py_int_truediv_ok _ _ Hp (c_int_diff_scaled _ _ Hvtime Hdone)).
    reflexivity.
  - reflexivity.
Qed.

(** C3: when [period_vtime], the controller's [period_us] times its rate
    counter, is zero, deriving a node's statistics raises nothing and sets
    [inflight_pct] to the int [0]; when it is not zero, [inflight_pct] is the
    float [(vtime - done_vtime) * 100 / period_vtime]. *)
Theorem inflight_pct_guarded :
  forall prog iocg,
    scales_nonzero prog = true ->
    iocg_in_range iocg = true ->
    exists st,
      IocgStat.init prog iocg = Ok st
      /\ (period_vtime iocg = 0 -> IocgStat.inflight_pct st = PInt 0)
      /\ (period_vtime iocg <> 0 ->
          exists x,
            py_int_truediv
              ((ioc_gq.vtime iocg - ioc_gq.done_vtime iocg) * 100)
              (period_vtime iocg) = Ok x
            /\ IocgStat.inflight_pct st = PFloat x).
Proof.
  intros prog iocg Hs Hr. eexists. split; [apply IocgStat_init_ok; assumption|].
  cbn [IocgStat.inflight_pct].
  pose proof Hr as Hr'. unfold iocg_in_range in Hr'.
  rewrite !andb_true_iff in Hr'.
  destruct Hr' as [[[[[[[_ _] _] Hdone] Hvtime] _] _] _].
  split.
  - intros ->. reflexivity.
  - intros Hp. exists (int_quotient
                         ((ioc_gq.vtime iocg - ioc_gq.done_vtime iocg) * 100)
                         (period_vtime iocg)).
    split.
    + apply py_int_truediv_ok; [exact Hp|now apply c_int_diff_scaled].
    + apply nonzero_neq in Hp. now rewrite Hp.
Qed.

Lemma inflight_pct_guarded_witness :
  period_vtime (Sample.iocg_on Sample.stalled_controller 4096 true) = 0
  /\ exists st,
      IocgStat.init Sample.prog
        (Sample.iocg_on Sample.stalled_controller 4096 true) = Ok st
      /\ IocgStat.inflight_pct st = PInt 0.
Proof.
  split; [reflexivity|].
  destruct (inflight_pct_guarded Sample.prog
              (Sample.iocg_on Sample.stalled_controller 4096 true)
              eq_refl eq_refl) as (st & Hst & Hzero & _).
  exists st. split; [exact Hst|]. apply Hzero. reflexivity.
Defined.

(** *** The usage ring *)

Lemma py_gt_spec a b : py_gt a b = true <-> (num_value b < num_value a)%Q.
Proof.
  unfold py_gt. rewrite Qgt_alt.
  destruct (num_value a ?= num_value b)%Q; split; congruence.
Qed.

Lemma py_max_cases m x : py_max m x = m \/ py_max m x = x.
Proof. unfold py_max. destruct (py_gt x m); auto. Qed.

Lemma py_max_upper m x :
  (num_value m <= num_value (py_max m x))%Q
  /\ (num_value x <= num_value (py_max m x))%Q.
Proof.
  unfold py_max. destruct (py_gt x m) eqn:E.
  - apply py_gt_spec in E. split; [now apply Qlt_le_weak|apply Qle_refl].
  - split; [apply Qle_refl|]. apply Qnot_lt_le. intros H.
    apply py_gt_spec in H. congruence.
Qed.

Section RunningMax.

Variable pct : Z -> pyfloat.

Lemma running_max_upper todo :
  forall start,
    (num_value start <= num_value (running_max pct todo start))%Q
    /\ forall i, In i todo ->
         (PyFloat.value (pct i) <= num_value (running_max pct todo start))%Q.
Proof.
  induction todo as [|j todo IH]; intros start; simpl.
  - split; [apply Qle_refl|intros i []].
  - destruct (IH (py_max start (PFloat (pct j)))) as [Hm Hall].
    destruct (py_max_upper start (PFloat (pct j))) as [Hs Hj].
    split; [eapply Qle_trans; eassumption|].
    intros i [<-|Hi]; [|now apply Hall].
    eapply Qle_trans; [exact Hj|exact Hm].
Qed.

Lemma running_max_cases todo :
  forall start,
    running_max pct todo start = start
    \/ exists i, In i todo /\ running_max pct todo start = PFloat (pct i).
Proof.
  induction todo as [|j todo IH]; intros start; simpl; [now left|].
  destruct (IH (py_max start (PFloat (pct j)))) as [E|(i & Hi & E)].
  - rewrite E. destruct (py_max_cases start (PFloat (pct j))) as [->| ->].
    + now left.
    + right. exists j. split; [now left|reflexivity].
  - right. exists i. split; [now right|exact E].
Qed.

(** Over percentages that are not negative, the maximum that starts from
    [0] is the value of one of them. *)
Lemma running_max_attained todo :
  todo <> [] ->
  (forall i, In i todo -> (0 <= PyFloat.value (pct i))%Q) ->
  exists i, In i todo
    /\ (PyFloat.value (pct i) == num_value (running_max pct todo (PInt 0)))%Q.
Proof.
  intros Hne Hpos.
  destruct (running_max_cases todo (PInt 0)) as [E|(i & Hi & E)].
  - destruct todo as [|j todo]; [contradiction|].
    exists j. split; [now left|].
    destruct (running_max_upper (j :: todo) (PInt 0)) as [_ Hall].
    apply Qle_antisym; [apply Hall; now left|].
    rewrite E. apply Hpos. now left.
  - exists i. split; [exact Hi|]. rewrite E. apply Qeq_refl.
Qed.

End RunningMax.

Lemma py_range_length n : 0 <= n -> Z.of_nat (List.length (py_range n)) = n.
Proof.
  intros Hn. unfold py_range. rewrite length_map, length_seq. lia.
Qed.

Lemma py_range_nth n k :
  0 <= k < n -> nth_error (py_range n) (Z.to_nat k) = Some k.
Proof.
  intros Hk. unfold py_range.
  rewrite nth_error_map, nth_error_seq.
  destruct (Nat.ltb_spec (Z.to_nat k) (Z.to_nat n)); [|lia].
  simpl. f_equal. lia.
Qed.

Lemma py_range_In n i : In i (py_range n) -> 0 <= i < n.
Proof.
  unfold py_range. rewrite in_map_iff. intros (k & <- & Hk%in_seq). lia.
Qed.

Lemma int_quotient_nonneg a b :
  0 <= a -> 0 < b -> (0 <= PyFloat.value (int_quotient a b))%Q.
Proof.
  intros Ha Hb. unfold int_quotient, PyFloat.value. cbn [PyFloat.neg PyFloat.mag].
  destruct (Z.ltb_spec a 0); [lia|]. destruct (Z.ltb_spec b 0); [lia|].
  cbn [xorb]. apply round_nonneg.
Qed.

Lemma slot_pct_nonneg prog iocg i :
  0 < HWEIGHT_WHOLE prog ->
  slots_unsigned iocg = true ->
  (0 <= PyFloat.value (slot_pct prog iocg i))%Q.
Proof.
  intros Hw Hu. unfold slot_pct. apply int_quotient_nonneg; [|exact Hw].
  apply Z.mul_nonneg_nonneg; [|lia].
  unfold slots_unsigned in Hu.
  destruct (nth_in_or_default
              (Z.to_nat ((ioc_gq.usage_idx iocg + i) mod NR_USAGE_SLOTS prog))
              (ioc_gq.usages iocg) 0) as [Hin| ->]; [|lia].
  rewrite forallb_forall in Hu. apply Z.leb_le. now apply Hu.
Qed.

(** C5: for every rotation index and slot count [N], the derived ring has
    exactly [N] entries; entry [k] is storage slot [(usage_idx + k) % N]
    multiplied by 100 and divided by [HWEIGHT_WHOLE]; and the node's usage
    figure is the maximum over the ring. *)
Theorem usage_ring_rotation :
  forall prog iocg,
    scales_nonzero prog = true ->
    iocg_in_range iocg = true ->
    0 < HWEIGHT_WHOLE prog ->
    0 < NR_USAGE_SLOTS prog ->
    Z.of_nat (List.length (ioc_gq.usages iocg)) = NR_USAGE_SLOTS prog ->
    slots_unsigned iocg = true ->
    exists st,
      IocgStat.init prog iocg = Ok st
      /\ Z.of_nat (List.length (IocgStat.usages st)) = NR_USAGE_SLOTS prog
      /\ (forall k, 0 <= k < NR_USAGE_SLOTS prog ->
          exists raw upct,
            nth_error (ioc_gq.usages iocg)
              (Z.to_nat ((ioc_gq.usage_idx iocg + k) mod NR_USAGE_SLOTS prog))
            = Some raw
            /\ py_int_truediv (raw * 100) (HWEIGHT_WHOLE prog) = Ok upct
            /\ nth_error (IocgStat.usages st) (Z.to_nat k) = Some upct)
      /\ (forall u, In u (IocgStat.usages st) ->
          (PyFloat.value u <= num_value (IocgStat.usage st))%Q)
      /\ (exists u, In u (IocgStat.usages st)
          /\ (PyFloat.value u == num_value (IocgStat.usage st))%Q).
Proof.
  intros prog iocg Hs Hr Hw Hn Hlen Hu.
  eexists. split; [apply IocgStat_init_ok; assumption|].
  cbn [IocgStat.usages IocgStat.usage].
  fold (running_max (slot_pct prog iocg) (py_range (NR_USAGE_SLOTS prog)) (PInt 0)).
  assert (Hslots : forallb c_int (ioc_gq.usages iocg) = true).
  { unfold iocg_in_range in Hr. now apply andb_true_iff in Hr as [_ Hr]. }
  split; [|split; [|split]].
  - rewrite length_map. apply py_range_length. lia.
  - intros k Hk.
    set (slot := (ioc_gq.usage_idx iocg + k) mod NR_USAGE_SLOTS prog).
    assert (Hslot : 0 <= slot < NR_USAGE_SLOTS prog)
      by (apply Z.mod_pos_bound; exact Hn).
    destruct (nth_error (ioc_gq.usages iocg) (Z.to_nat slot)) as [raw|] eqn:E.
    + exists raw, (slot_pct prog iocg k). split; [reflexivity|].
      assert (Hraw : nth (Z.to_nat slot) (ioc_gq.usages iocg) 0 = raw)
        by now apply nth_error_nth.
      split.
      * unfold slot_pct. fold slot. rewrite Hraw.
        apply py_int_truediv_ok; [lia|].
        apply c_int_scaled. rewrite <- Hraw. now apply usage_slot_in_range.
      * rewrite nth_error_map, (py_range_nth _ _ Hk). reflexivity.
    + apply nth_error_None in E. lia.
  - intros u (i & <- & Hi)%in_map_iff.
    now apply running_max_upper.
  - destruct (running_max_attained (slot_pct prog iocg)
                (py_range (NR_USAGE_SLOTS prog))) as (i & Hi & E).
    + intros Hnil. pose proof (py_range_length (NR_USAGE_SLOTS prog)) as L.
      rewrite Hnil in L. simpl in L. lia.
    + intros i _. now apply slot_pct_nonneg.
    + exists (slot_pct prog iocg i). split; [|exact E].
      apply in_map_iff. now exists i.
Qed.

Lemma usage_ring_rotation_witness :
  exists st,
    IocgStat.init Sample.prog (Sample.iocg 4096 true) = Ok st
    /\ Z.of_nat (List.length (IocgStat.usages st)) = 3
    /\ (exists u, In u (IocgStat.usages st)
        /\ (PyFloat.value u == num_value (IocgStat.usage st))%Q).
Proof.
  destruct (usage_ring_rotation Sample.prog (Sample.iocg 4096 true)
              eq_refl eq_refl eq_refl eq_refl eq_refl eq_refl)
    as (st & Hst & Hlen & _ & _ & Hmax).
  exists st. repeat split; assumption.
Defined.

(** *** Debt *)

(** C6, as the specification words it, fails: with one tick per microsecond
    a debt of 2,500,001 ticks is 2500.001 ms, and the table shows [999]. *)
Lemma debt_example_shows_3_fails : ~ debt_example_shows_3.
Proof.
  intros claim.
  specialize (claim Sample.prog_tick_per_usec Sample.indebted _
                    eq_refl eq_refl
                    (IocgStat_init_ok Sample.prog_tick_per_usec
                       Sample.indebted eq_refl eq_refl)).
  vm_compute in claim. discriminate claim.
Qed.

(** C6 (amended): for a node 2,500,001 raw ticks in debt at one tick per
    microsecond, [debt_ms] is [2500001 / 1 / 1000], the float 2500.001; the
    table's debt column shows [999], the ceiling 2501 capped at 999, and the
    structured record carries the fractional value itself. *)
Theorem debt_example_capped :
  forall prog iocg now path,
    scales_nonzero prog = true ->
    iocg_in_range iocg = true ->
    VTIME_PER_USEC prog = 1 ->
    ioc_gq.abs_vdebt iocg = 2500001 ->
    exists st,
      IocgStat.init prog iocg = Ok st
      /\ (x <- py_int_truediv 2500001 1 ;; py_float_truediv_int x 1000)
         = Ok (IocgStat.debt_ms st)
      /\ math_ceil (IocgStat.debt_ms st) = 2501
      /\ IocgStat.debt_column st = "999"
      /\ In ("debt_ms", "2500.001") (IocgStat.dict st now path).
Proof.
  intros prog iocg now path Hs Hr Hu Hd.
  eexists. split; [apply IocgStat_init_ok; assumption|].
  unfold IocgStat.debt_column, IocgStat.dict.
  cbn [IocgStat.debt_ms]. rewrite Hu, Hd.
  set (debt := PyFloat.mk _ _).
  assert (E : debt = PyFloat.mk false (687195042237907 # 274877906944))
    by (vm_compute; reflexivity).
  rewrite E. clear debt E.
  split; [vm_compute; reflexivity|].
  split; [vm_compute; reflexivity|].
  split; [vm_compute; reflexivity|].
  apply in_or_app. left. do 9 right. left.
  f_equal.
Qed.

Lemma debt_example_capped_witness :
  exists st,
    IocgStat.init Sample.prog_tick_per_usec Sample.indebted = Ok st
    /\ IocgStat.debt_column st = "999".
Proof.
  destruct (debt_example_capped Sample.prog_tick_per_usec Sample.indebted
              PyFloat.zero "/" eq_refl eq_refl eq_refl eq_refl)
    as (st & Hst & _ & _ & Hcol & _).
  exists st. split; assumption.
Defined.

(** ** Strings *)

Lemma append_nil_r s : s +++ "" = s.
Proof. induction s as [|c s IH]; simpl; [reflexivity|now rewrite IH]. Qed.

Lemma append_assoc s t u : (s +++ t) +++ u = s +++ t +++ u.
Proof. induction s as [|c s IH]; simpl; [reflexivity|now rewrite IH]. Qed.

Lemma length_append s t :
  String.length (s +++ t) = (String.length s + String.length t)%nat.
Proof. induction s as [|c s IH]; simpl; [reflexivity|now rewrite IH]. Qed.

Lemma string_forall_app test s t :
  string_forall test (s +++ t) = string_forall test s && string_forall test t.
Proof.
  induction s as [|c s IH]; simpl; [reflexivity|].
  now rewrite IH, andb_assoc.
Qed.

Lemma string_forall_repeat test c n :
  test c = true -> string_forall test (repeat_char c n) = true.
Proof. intros H. induction n as [|n IH]; simpl; [reflexivity|now rewrite H]. Qed.

Lemma rstrip_without c s : string_forall (is_not c) s = true -> rstrip c s = s.
Proof.
  induction s as [|d s IH]; simpl; [reflexivity|].
  intros [Hd Hs]%andb_true_iff. rewrite (IH Hs).
  unfold is_not in Hd. apply negb_true_iff in Hd. rewrite Hd.
  now destruct s.
Qed.

Lemma rstrip_app_keep c pre s :
  rstrip c s <> "" -> rstrip c (pre +++ s) = pre +++ rstrip c s.
Proof.
  intros Hs. induction pre as [|d pre IH]; simpl; [reflexivity|].
  rewrite IH. destruct (pre +++ rstrip c s) eqn:E; [|reflexivity].
  exfalso. destruct pre; simpl in E; [contradiction|discriminate].
Qed.

Lemma rstrip_app_stripped c s : rstrip c (s +++ String c "") = rstrip c s.
Proof.
  induction s as [|d s IH]; simpl.
  - now rewrite Ascii.eqb_refl.
  - now rewrite IH.
Qed.

(** A piece without [c] and not empty stops the stripping. *)
Lemma rstrip_stops c pre s :
  s <> "" -> string_forall (is_not c) s = true ->
  rstrip c (pre +++ s) = pre +++ s.
Proof.
  intros Hne Hs. pose proof (rstrip_without c s Hs) as E.
  rewrite rstrip_app_keep; rewrite E; [reflexivity|exact Hne].
Qed.

Lemma uint_string_without_colon d :
  string_forall (is_not ":") (DecimalString.NilEmpty.string_of_uint d) = true.
Proof. induction d; simpl; auto. Qed.

Lemma str_int_without_colon n : string_forall (is_not ":") (str_int n) = true.
Proof.
  unfold str_int. destruct (Z.to_int n) as [d|d]; simpl;
    destruct d; try reflexivity; apply uint_string_without_colon.
Qed.

Lemma str_int_nonempty n : str_int n <> "".
Proof.
  unfold str_int. destruct (Z.to_int n) as [d|d]; simpl;
    destruct d; discriminate.
Qed.

Lemma format_int_zero_without_colon w n :
  string_forall (is_not ":") (format_int_zero w n) = true.
Proof.
  unfold format_int_zero, zfill. rewrite !string_forall_app.
  rewrite str_int_without_colon, string_forall_repeat by reflexivity.
  now destruct (n <? 0).
Qed.

Lemma format_int_zero_nonempty w n : format_int_zero w n <> "".
Proof.
  unfold format_int_zero, zfill. intros E.
  apply (f_equal String.length) in E.
  rewrite !length_append in E.
  pose proof (str_int_nonempty (Z.abs n)) as Hne.
  destruct (str_int (Z.abs n)); [contradiction|]. simpl in E. lia.
Qed.

(** ** The two renderings *)

Section RingColumns.

Variable slot : pyfloat -> string.
Hypothesis slot_nonempty : forall u, slot u <> "".
Hypothesis slot_without_colon : forall u, string_forall (is_not ":") (slot u) = true.

Lemma columns_fold us :
  forall out,
    fold_left (fun out u => out +++ slot u +++ ":") us out
    = out +++ String.concat "" (map (fun u => slot u +++ ":") us).
Proof.
  induction us as [|u us IH]; intros out; simpl.
  - now rewrite append_nil_r.
  - rewrite IH, !append_assoc. destruct us; reflexivity.
Qed.

Lemma columns_joined us u :
  String.concat "" (map (fun u => slot u +++ ":") us) +++ slot u
  = String.concat ":" (map slot (us ++ [u])).
Proof.
  induction us as [|v us IH]; simpl; [reflexivity|].
  destruct us as [|w us]; simpl in *.
  - now rewrite append_assoc.
  - rewrite <- IH, !append_assoc. reflexivity.
Qed.

(** Appending [slot u +++ ":"] for every slot and stripping the colons at
    the end joins the slots with colons. *)
Lemma columns_stripped us pre :
  rstrip ":" (fold_left (fun out u => out +++ slot u +++ ":") us (pre +++ " "))
  = pre +++ " " +++ String.concat ":" (map slot us).
Proof.
  destruct us as [|u us _] using rev_ind.
  - simpl. apply rstrip_stops; [discriminate|reflexivity].
  - rewrite fold_left_app. cbn [fold_left]. rewrite columns_fold.
    rewrite <- columns_joined.
    set (done := String.concat "" (map (fun u => slot u +++ ":") us)).
    replace (((pre +++ " ") +++ done) +++ slot u +++ ":")
      with ((((pre +++ " ") +++ done) +++ slot u) +++ String ":" "")
      by now rewrite !append_assoc.
    rewrite rstrip_app_stripped.
    rewrite rstrip_stops by (apply slot_nonempty || apply slot_without_colon).
    now rewrite !append_assoc.
Qed.

End RingColumns.

Lemma py_min_int_min a b : py_min_int a b = Z.min a b.
Proof. unfold py_min_int. destruct (Z.ltb_spec b a); lia. Qed.

Lemma py_range_of_nat n : py_range (Z.of_nat n) = map Z.of_nat (seq 0 n).
Proof. unfold py_range. now rewrite Nat2Z.id. Qed.

Lemma table_row_str_row st path :
  IocgStat.table_row_str st path = Spec.row (Spec.node_of st) path.
Proof.
  unfold IocgStat.table_row_str, Spec.row.
  cbn [String.concat Spec.node_of Spec.is_active Spec.weight_inuse
       Spec.weight_active Spec.hweight_inuse_pct Spec.hweight_active_pct
       Spec.inflight_pct Spec.debt_ms Spec.use_delay Spec.delay_ms
       Spec.usage_pct_n].
  set (slot := fun u => format_int_zero 3 (Z.min (py_round u) 999)).
  assert (E : forall out,
             fold_left (fun out u => out +++ IocgStat.usage_column u)
                       (IocgStat.usages st) out
             = fold_left (fun out u => out +++ slot u +++ ":")
                         (IocgStat.usages st) out).
  { intros out. revert out.
    induction (IocgStat.usages st) as [|u us IH]; intros out; simpl;
      [reflexivity|].
    rewrite IH. unfold IocgStat.usage_column, slot.
    now rewrite py_min_int_min. }
  rewrite E.
  set (pre := IocgStat.path_column path +++ " " +++ IocgStat.active_column st
              +++ " " +++ IocgStat.weight_column st +++ " "
              +++ IocgStat.hweight_column st +++ " "
              +++ IocgStat.inflight_column st +++ " "
              +++ IocgStat.debt_column st +++ " " +++ IocgStat.delay_column st).
  replace (IocgStat.path_column path +++ " " +++ IocgStat.active_column st
           +++ " " +++ IocgStat.weight_column st +++ " "
           +++ IocgStat.hweight_column st +++ " "
           +++ IocgStat.inflight_column st +++ " "
           +++ IocgStat.debt_column st +++ " " +++ IocgStat.delay_column st
           +++ " ")
    with (pre +++ " ") by (unfold pre; now rewrite !append_assoc).
  rewrite (columns_stripped slot).
  - unfold pre, IocgStat.path_column, IocgStat.active_column,
      IocgStat.weight_column, IocgStat.hweight_column,
      IocgStat.inflight_column, IocgStat.debt_column, IocgStat.delay_column.
    rewrite !py_min_int_min, !append_assoc.
    destruct (IocgStat.is_active st); reflexivity.
  - intros u. apply format_int_zero_nonempty.
  - intros u. apply format_int_zero_without_colon.
Qed.

Lemma table_preamble_str_preamble devname c :
  IocStat.table_preamble_str devname c
  = Spec.preamble devname (Spec.controller_of c) (IocStat.autop_name c)
      (nonzero (IocStat.user_cost_model c)) (nonzero (IocStat.user_qos_params c)).
Proof.
  unfold IocStat.table_preamble_str, Spec.preamble, Spec.override_marker,
    Spec.state_label, IocStat.state, nonzero.
  cbn [String.concat Spec.controller_of Spec.enabled Spec.running
       Spec.period_ms Spec.period_at Spec.period_vtime_at Spec.busy_level
       Spec.vrate_pct].
  destruct (IocStat.enabled c =? 0), (IocStat.running c),
    (IocStat.user_cost_model c =? 0), (IocStat.user_qos_params c =? 0);
    cbn [negb orb Z.eqb]; rewrite !append_assoc; cbn [String.append];
    rewrite ?append_nil_r; reflexivity.
Qed.

(** ** The controller's statistics *)

Lemma IocStat_init_ok prog c :
  scales_nonzero prog = true ->
  ioc_in_range c = true ->
  IocStat.init prog c
  = Ok {| IocStat.enabled := ioc.enabled c;
          IocStat.running := ioc.running c =? IOC_RUNNING prog;
          IocStat.period_ms := int_quotient (ioc.period_us c) 1000;
          IocStat.period_at := int_quotient (ioc.period_at c) 1000000;
          IocStat.vperiod_at :=
            int_quotient (ioc.period_at_vtime c) (VTIME_PER_SEC prog);
          IocStat.vrate_pct :=
            int_quotient (ioc.vtime_rate c * 100) (VTIME_PER_USEC prog);
          IocStat.busy_level := ioc.busy_level c;
          IocStat.autop_idx := ioc.autop_idx c;
          IocStat.user_cost_model := ioc.user_cost_model c;
          IocStat.user_qos_params := ioc.user_qos_params c;
          IocStat.autop_name :=
            match dict_get (autop_names prog) (ioc.autop_idx c) with
            | Some n => n
            | None => "?"
            end |}.
Proof.
  unfold scales_nonzero, ioc_in_range. rewrite !andb_true_iff, !nonzero_neq.
  intros [[_ Hs] Hu] [[[Hper Hat] Hvat] Hrate].
  unfold IocStat.init.
  rewrite (py_int_truediv_ok (ioc.period_us c) 1000)
    by (discriminate || now apply c_int_small).
  rewrite (py_int_truediv_ok (ioc.period_at c) 1000000)
    by (discriminate || now apply c_int_small).
  rewrite (py_int_truediv_ok _ _ Hs (c_int_small _ Hvat)).
  rewrite (py_int_truediv_ok _ _ Hu (c_int_scaled _ Hrate)).
  reflexivity.
Qed.

(** The nominal rate is exactly 100 percent. *)
Lemma nominal_rate_pct v :
  v <> 0 -> int_quotient (v * 100) v = PyFloat.mk false (inject_Z 100).
Proof.
  intros Hv. unfold int_quotient. f_equal.
  - destruct (Z.ltb_spec (v * 100) 0), (Z.ltb_spec v 0); reflexivity || lia.
  - rewrite (round_Qeq _ (inject_Z 100)); [reflexivity|].
    unfold Qeq, inject_Z. cbn [Qnum Qden].
    rewrite Z2Pos.id by lia. rewrite Z.abs_mul. lia.
Qed.

(** C8, as the specification words it, fails: the busy level is formatted
    in a signed field three wide, so the preamble of the example reads
    [busy= -5] and does not contain [busy=-5]. *)
Lemma preamble_example_as_worded_fails : ~ preamble_example_as_worded.
Proof.
  intros claim.
  destruct (claim Sample.prog Sample.controller "sda" _
              (conj eq_refl (conj eq_refl (conj eq_refl (conj eq_refl eq_refl))))
              (IocStat_init_ok Sample.prog Sample.controller eq_refl eq_refl))
    as (_ & _ & Hbusy & _).
  vm_compute in Hbusy. discriminate Hbusy.
Qed.

(** C8 (amended): the state label is [OFF] when the controller is not
    enabled, otherwise [RUN] if it is running and [IDLE] if not; and for the
    example controller (enabled, running, a period of 100000 us, busy level
    -5, the nominal rate) the preamble reads, after the device name,
    [RUN  per=100.0ms cur_per=...], then [busy= -5 vrate=100.00% params=...]:
    the busy level fills a signed field three wide. *)
Theorem preamble_example :
  forall prog c devname,
    scales_nonzero prog = true ->
    ioc_in_range c = true ->
    exists st,
      IocStat.init prog c = Ok st
      /\ IocStat.state st
         = (if ioc.enabled c =? 0 then "OFF"
            else if ioc.running c =? IOC_RUNNING prog then "RUN" else "IDLE")
      /\ (nominal_controller prog c ->
          IocStat.table_preamble_str devname st
          = devname +++ " RUN  per=100.0ms cur_per="
            +++ format_fixed 0 3 (PFloat (IocStat.period_at st)) +++ ":v"
            +++ format_fixed 0 3 (PFloat (IocStat.vperiod_at st))
            +++ " busy= -5 vrate=100.00% params=" +++ IocStat.autop_name st
            +++ Spec.override_marker (nonzero (IocStat.user_cost_model st))
                                     (nonzero (IocStat.user_qos_params st))).
Proof.
  intros prog c devname Hs Hr.
  eexists. split; [apply IocStat_init_ok; assumption|]. split.
  - unfold IocStat.state, nonzero. cbn [IocStat.enabled IocStat.running].
    now destruct (ioc.enabled c =? 0).
  - intros (Hen & Hrun & Hper & Hbusy & Hrate).
    assert (Hu : VTIME_PER_USEC prog <> 0).
    { unfold scales_nonzero in Hs. rewrite !andb_true_iff, !nonzero_neq in Hs.
      tauto. }
    unfold IocStat.table_preamble_str, IocStat.state, Spec.override_marker.
    cbn [IocStat.enabled IocStat.running IocStat.period_ms IocStat.period_at
         IocStat.vperiod_at IocStat.vrate_pct IocStat.busy_level
         IocStat.autop_name IocStat.user_cost_model IocStat.user_qos_params].
    rewrite Hen, Hrun, Hper, Hbusy, Hrate, Z.eqb_refl, (nominal_rate_pct _ Hu).
    change (nonzero 1) with true. cbv iota.
    change (format_str 4 "RUN") with "RUN ".
    change (str_float (int_quotient 100000 1000)) with "100.0".
    change (format_int_plus 3 (-5)) with " -5".
    change (format_fixed 6 2 (PFloat (PyFloat.mk false (inject_Z 100))))
      with "100.00".
    destruct (nonzero (ioc.user_cost_model c) || nonzero (ioc.user_qos_params c));
      rewrite ?append_assoc; cbn [String.append]; rewrite ?append_nil_r;
      reflexivity.
Qed.

Lemma preamble_example_witness :
  exists st,
    IocStat.init Sample.prog Sample.controller = Ok st
    /\ IocStat.table_preamble_str "sda" st
       = "sda RUN  per=100.0ms cur_per=123.457:v727.596 busy= -5 vrate=100.00% params=ssd_dfl".
Proof.
  destruct (preamble_example Sample.prog Sample.controller "sda"
              eq_refl eq_refl) as (st & Hst & _ & Hline).
  exists st. split; [exact Hst|].
  rewrite Hline
    by exact (conj eq_refl (conj eq_refl (conj eq_refl (conj eq_refl eq_refl)))).
  injection (eq_trans (eq_sym Hst)
               (IocStat_init_ok Sample.prog Sample.controller eq_refl eq_refl))
    as ->.
  reflexivity.
Defined.

(** ** Root lookup *)

(** When every queue of the disk that the lookup can read has no iocost
    data, no controller is found. *)
Lemma locate_roots_without_ioc devname plid entries :
  (forall i blkg,
      In (i, blkg) entries ->
      request_queue.kobj_parent_name (blkcg_gq.q blkg) = Some devname ->
      blkcg_gq.pd_at blkg plid = None) ->
  forall q_id root_iocg,
    locate_roots devname plid entries <> Found q_id root_iocg.
Proof.
  induction entries as [|[i blkg] rest IH]; intros Hall q_id root_iocg;
    simpl; [discriminate|].
  destruct (request_queue.kobj_parent_name (blkcg_gq.q blkg)) as [n|] eqn:En.
  - destruct (String.eqb_spec devname n) as [<-|_].
    + rewrite (Hall i blkg (or_introl eq_refl) En). discriminate.
    + apply IH. intros j b Hin. apply (Hall j b). now right.
  - apply IH. intros j b Hin. apply (Hall j b). now right.
Qed.

(** C9: if at startup the named device cannot be resolved to a controller
    instance, the program prints one message on the error stream and exits
    with status 1; it prints nothing on the output stream and takes no
    snapshot, however many are offered: it does not retry and does not
    enter the sampling loop. *)
Theorem unresolved_device_is_fatal :
  forall re prog syms args snaps root plid filter,
    blkcg_root syms = Some root ->
    blkcg_policy_iocost_plid syms = Some plid ->
    filter_re re args = Ok filter ->
    (forall q_id root_iocg,
        locate_roots (devname args) plid (blkcg.blkg_tree root)
        <> Found q_id root_iocg) ->
    main re prog syms args snaps
    = {| stdout := [];
         stderr := ["Could not find ioc for " +++ devname args];
         ended := Exit 1 |}
    /\ 1 <> 0.
Proof.
  intros re prog syms args snaps root plid filter Hroot Hplid Hre Hnone.
  split; [|discriminate].
  unfold main. rewrite Hroot, Hplid, Hre.
  destruct (locate_roots _ _ _) as [|q|q g] eqn:E; try reflexivity.
  exfalso. exact (Hnone q g eq_refl).
Qed.

Lemma unresolved_device_is_fatal_witness :
  main Re.engine Sample.prog Sample.symbols_without_ioc Sample.table_args
       [Sample.snapshot; Sample.snapshot]
  = {| stdout := [];
       stderr := ["Could not find ioc for sda"];
       ended := Exit 1 |}
  /\ 1 <> 0.
Proof.
  apply (unresolved_device_is_fatal Re.engine Sample.prog
           Sample.symbols_without_ioc Sample.table_args
           [Sample.snapshot; Sample.snapshot]
           Sample.root_without_ioc Sample.plid None);
    try reflexivity.
  intros q_id root_iocg. discriminate.
Defined.

(** ** The sampling loop *)

Section Loop.

Variable re : re_engine.
Variable prog : Prog.
Variable plid : Z.
Variable args : Args.
Variable filter : option (re_pattern re).

Lemma node_loop_app now before after :
  forall output,
    node_loop re prog plid args filter now (before ++ after) output
    = (output <- node_loop re prog plid args filter now before output ;;
       node_loop re prog plid args filter now after output).
Proof.
  induction before as [|entry before IH]; intros output; [reflexivity|].
  simpl. destruct (node_step re prog plid args filter now output entry); [apply IH|reflexivity].
Qed.

Lemma node_step_without_pd now output path blkg :
  blkcg_gq.pd_at blkg plid = None ->
  node_step re prog plid args filter now output (path, blkg) = Ok output.
Proof.
  intros H. unfold node_step. rewrite H.
  now destruct (filtered_out re filter path).
Qed.

Lemma node_loop_with_policy_data now entries :
  forall output,
    node_loop re prog plid args filter now entries output
    = node_loop re prog plid args filter now (List.filter (has_policy_data plid) entries) output.
Proof.
  induction entries as [|[path blkg] entries IH]; intros output; [reflexivity|].
  cbn [List.filter]. unfold has_policy_data at 1. cbn [snd].
  destruct (blkcg_gq.pd_at blkg plid) as [iocg|] eqn:E.
  - cbn [node_loop].
    destruct (node_step re prog plid args filter now output (path, blkg)); [apply IH|reflexivity].
  - cbn [node_loop]. rewrite (node_step_without_pd _ _ _ _ E).
    apply IH.
Qed.

End Loop.

(** C10: a pair the walker yields whose [blkcg_gq] has no iocost policy
    data is passed over by the loop body, in table mode and in structured
    mode alike: the output is left as it was, nothing is raised, and the
    rest of the tick runs as if the pair had not been there. *)
Theorem null_policy_data_skipped :
  forall re prog plid args filter now path blkg before after output,
    blkcg_gq.pd_at blkg plid = None ->
    node_step re prog plid args filter now output (path, blkg) = Ok output
    /\ node_loop re prog plid args filter now
         (before ++ (path, blkg) :: after) output
       = node_loop re prog plid args filter now (before ++ after) output
    /\ forall entries,
        node_loop re prog plid args filter now entries output
        = node_loop re prog plid args filter now
            (List.filter (has_policy_data plid) entries) output.
Proof.
  intros re prog plid args filter now path blkg before after output Hnone.
  split; [now apply node_step_without_pd|]. split.
  - rewrite !node_loop_app. destruct (node_loop _ _ _ _ _ now before output);
      [|reflexivity].
    cbn [bind node_loop]. now rewrite node_step_without_pd.
  - intros entries. apply node_loop_with_policy_data.
Qed.

Lemma null_policy_data_skipped_witness :
  node_step Re.engine Sample.prog Sample.plid Sample.table_args None
            PyFloat.zero "header" Sample.unattached_pair
  = Ok "header"
  /\ node_step Re.engine Sample.prog Sample.plid (Sample.args_with ["db"] true)
               (Some [[Re.Lit "d"; Re.Lit "b"]])
               PyFloat.zero "header" Sample.unattached_pair
     = Ok "header".
Proof.
  split.
  - apply (null_policy_data_skipped Re.engine Sample.prog Sample.plid
             Sample.table_args None PyFloat.zero "db"
             Sample.blkg_without_pd [] [] "header").
    reflexivity.
  - apply (null_policy_data_skipped Re.engine Sample.prog Sample.plid
             (Sample.args_with ["db"] true) (Some [[Re.Lit "d"; Re.Lit "b"]])
             PyFloat.zero "db" Sample.blkg_without_pd [] [] "header").
    reflexivity.
Defined.

(** *** Which pairs a tick shows *)

Lemma concat_cons x xs : String.concat "" (x :: xs) = x +++ String.concat "" xs.
Proof. destruct xs; simpl; [now rewrite append_nil_r|reflexivity]. Qed.

(** What [filter_re] is, in terms of the arguments. *)
Lemma filter_re_cases re args filter :
  filter_re re args = Ok filter ->
  match filter with
  | Some p =>
      exists s, re_str args = Some s /\ s <> "" /\ re_compile re s = Some p
  | None => re_str args = None \/ re_str args = Some ""
  end.
Proof.
  unfold filter_re. destruct (re_str args) as [s|].
  - unfold nonempty. destruct (String.eqb_spec s "") as [->|Hs]; cbn [negb].
    + intros [= <-]. now right.
    + destruct (re_compile re s) as [p|] eqn:E; [|discriminate].
      intros [= <-]. now exists s.
  - intros [= <-]. now left.
Qed.

Section Shown.

Variable re : re_engine.
Variable prog : Prog.
Variable plid : Z.
Variable args : Args.
Variable filter : option (re_pattern re).

Hypothesis scales : scales_nonzero prog = true.

(** The loop body either leaves the output alone or appends the pair's
    line. *)
Lemma node_step_appends now output path blkg :
  (forall iocg, blkcg_gq.pd_at blkg plid = Some iocg ->
                iocg_in_range iocg = true) ->
  node_step re prog plid args filter now output (path, blkg)
  = Ok (if appears re prog plid args filter now (path, blkg)
        then output +++ nl +++ line prog plid args now (path, blkg)
        else output).
Proof.
  intros Hr. unfold appears, line, node_step. cbn [fst snd].
  destruct (filtered_out re filter path); [reflexivity|].
  destruct (blkcg_gq.pd_at blkg plid) as [iocg|]; [|reflexivity].
  pose proof (IocgStat_init_ok prog iocg scales (Hr iocg eq_refl)) as E.
  destruct (IocgStat.init prog iocg) as [st|e]; [|discriminate E].
  cbn [bind].
  destruct (no_filter re filter && negb (IocgStat.is_active st)); [reflexivity|].
  destruct (table_fmt args); reflexivity.
Qed.

Lemma appears_iff now path blkg :
  (forall iocg, blkcg_gq.pd_at blkg plid = Some iocg ->
                iocg_in_range iocg = true) ->
  appears re prog plid args filter now (path, blkg) = true
  <-> exists iocg,
        blkcg_gq.pd_at blkg plid = Some iocg
        /\ match filter with
           | Some p => re_matches re p path = true
           | None => ioc_gq.active_list_empty iocg = false
           end.
Proof.
  intros Hr. unfold appears, node_step, filtered_out, no_filter.
  destruct (blkcg_gq.pd_at blkg plid) as [iocg|].
  - assert (Hst : exists st,
               IocgStat.init prog iocg = Ok st
               /\ IocgStat.is_active st = negb (ioc_gq.active_list_empty iocg)).
    { eexists. split; [apply IocgStat_init_ok; auto|reflexivity]. }
    destruct Hst as (st & -> & Hact). cbn [bind]. rewrite Hact.
    assert (Hline : forall l, nonempty ("" +++ nl +++ l) = true) by reflexivity.
    destruct filter as [p|].
    + destruct (re_matches re p path) eqn:Em; cbn [negb andb].
      * destruct (table_fmt args); rewrite Hline; split; eauto.
      * split; [discriminate|]. intros (i & _ & H). discriminate H.
    + cbn [negb andb].
      destruct (ioc_gq.active_list_empty iocg) eqn:Ea; cbn [negb].
      * split; [discriminate|]. intros (i & [= <-] & H). congruence.
      * destruct (table_fmt args); rewrite Hline; split; eauto.
  - destruct filter as [p|]; [destruct (re_matches re p path)|];
      (split; [discriminate|]); intros (i & H & _); discriminate H.
Qed.

End Shown.

(** C4, as the specification words it, fails twice.  With the pattern [db]
    configured, the pair [db] whose [blkcg_gq] has no iocost data matches
    and is not shown.  With the empty pattern configured, which matches
    every path, no filter is compiled and the idle pair [db] is not
    shown. *)
Lemma filter_policy_as_worded_fails :
  (shown_as_worded Re.engine Sample.plid (Sample.args_with ["db"] false)
     "db" Sample.blkg_without_pd
   /\ filter_re Re.engine (Sample.args_with ["db"] false)
      = Ok (Some [[Re.Lit "d"; Re.Lit "b"]])
   /\ appears Re.engine Sample.prog Sample.plid
        (Sample.args_with ["db"] false) (Some [[Re.Lit "d"; Re.Lit "b"]])
        PyFloat.zero Sample.unattached_pair = false)
  /\ (shown_as_worded Re.engine Sample.plid (Sample.args_with [""] false)
        "db" (Sample.blkg 4096 false)
      /\ filter_re Re.engine (Sample.args_with [""] false) = Ok None
      /\ appears Re.engine Sample.prog Sample.plid
           (Sample.args_with [""] false) None
           PyFloat.zero Sample.idle_pair = false)
  /\ ~ filter_policy_as_worded.
Proof.
  assert (W1 : shown_as_worded Re.engine Sample.plid
                 (Sample.args_with ["db"] false) "db" Sample.blkg_without_pd).
  { left. exists "db", [], "db", [[Re.Lit "d"; Re.Lit "b"]]. repeat split. }
  assert (W2 : shown_as_worded Re.engine Sample.plid
                 (Sample.args_with [""] false) "db" (Sample.blkg 4096 false)).
  { left. exists "", [], "", [[]]. repeat split. }
  split; [|split].
  - split; [exact W1|]. split; reflexivity.
  - split; [exact W2|]. split; [reflexivity|]. vm_compute. reflexivity.
  - intros claim.
    apply (claim Re.engine Sample.prog Sample.plid
                 (Sample.args_with ["db"] false)
                 (Some [[Re.Lit "d"; Re.Lit "b"]]) PyFloat.zero
                 "db" Sample.blkg_without_pd eq_refl) in W1.
    discriminate W1.
Qed.

(** C4 (amended): in every tick the loop appends, in walk order, exactly
    the lines of the pairs that appear, and a pair appears if and only if
    its [blkcg_gq] carries iocost policy data and either (a) the configured
    patterns, joined by [|], make a non-empty regular expression that
    matches the pair's path from the start, whatever the active flag, or
    (b) no pattern is configured, or the joined string is empty, and the
    node is active. *)
Theorem filter_policy :
  forall re prog plid args filter now entries output,
    scales_nonzero prog = true ->
    (forall path blkg iocg,
        In (path, blkg) entries ->
        blkcg_gq.pd_at blkg plid = Some iocg ->
        iocg_in_range iocg = true) ->
    filter_re re args = Ok filter ->
    node_loop re prog plid args filter now entries output
    = Ok (output
          +++ String.concat ""
                (map (fun entry => nl +++ line prog plid args now entry)
                     (List.filter (appears re prog plid args filter now)
                                  entries)))
    /\ forall path blkg,
        In (path, blkg) entries ->
        appears re prog plid args filter now (path, blkg) = true
        <-> shown re plid args path blkg.
Proof.
  intros re prog plid args filter now entries output Hs Hr Hre. split.
  - revert output.
    induction entries as [|[path blkg] entries IH]; intros output.
    + cbn. now rewrite append_nil_r.
    + cbn [node_loop List.filter].
      rewrite (node_step_appends re prog plid args filter Hs)
        by (intros iocg; apply (Hr path blkg); now left).
      cbn [bind]. rewrite IH by (intros p b i Hin; apply (Hr p b i); now right).
      destruct (appears re prog plid args filter now (path, blkg)).
      * cbn [map]. rewrite concat_cons, !append_assoc. reflexivity.
      * reflexivity.
  - intros path blkg Hin.
    rewrite (appears_iff re prog plid args filter Hs)
      by (intros iocg; apply (Hr path blkg); exact Hin).
    pose proof (filter_re_cases re args filter Hre) as Hf.
    unfold shown. split; intros (iocg & Hpd & H); exists iocg; (split; [exact Hpd|]).
    + destruct filter as [p|].
      * left. destruct Hf as (s & Hstr & Hne & Hc). now exists s, p.
      * right. split; assumption.
    + destruct filter as [p|].
      * destruct Hf as (s & Hstr & Hne & Hc).
        destruct H as [(s' & p' & Hstr' & _ & Hc' & Hm)|[[Hnone|Hempty] _]];
          congruence.
      * destruct H as [(s' & p' & Hstr' & Hne' & _)|[_ Hact]];
          [|exact Hact].
        destruct Hf; congruence.
Qed.

Lemma filter_policy_witness :
  node_loop Re.engine Sample.prog Sample.plid
    (Sample.args_with ["db"] false) (Some [[Re.Lit "d"; Re.Lit "b"]])
    PyFloat.zero [Sample.unattached_pair; Sample.idle_pair; Sample.busy_pair]
    "header"
  = Ok ("header"
        +++ String.concat ""
              (map (fun entry =>
                      nl +++ line Sample.prog Sample.plid
                               (Sample.args_with ["db"] false) PyFloat.zero entry)
                   [Sample.idle_pair; Sample.busy_pair])).
Proof.
  apply (filter_policy Re.engine Sample.prog Sample.plid
           (Sample.args_with ["db"] false) (Some [[Re.Lit "d"; Re.Lit "b"]])
           PyFloat.zero
           [Sample.unattached_pair; Sample.idle_pair; Sample.busy_pair]
           "header").
  - reflexivity.
  - intros path blkg iocg [E|[E|[E|[]]]]; injection E as <- <-;
      intros [= <-]; reflexivity.
  - reflexivity.
Defined.

(** ** Further properties *)

(** *** The walk as a whole *)

(** The walker's output is the root's pair followed by the walks of its
    children in sibling order, each under the root's path; a pair is in it
    exactly when every member from the root down to its own passes the
    liveness test and has an accounting node for the device. *)
Theorem walker_output :
  forall prog root q_id include_dying,
    BlkgIterator.init prog root q_id include_dying
    = (if negb include_dying && negb (css_online prog root) then []
       else
         match radix_tree_lookup (blkcg.blkg_tree root) q_id with
         | None => []
         | Some blkg =>
             (if nonempty (blkcg.name root) then blkcg.name root else "/", blkg)
             :: flat_map
                  (fun c => BlkgIterator.walk prog include_dying c q_id
                              (blkcg.name root) [])
                  (blkcg.children root)
         end)
    /\ forall entry,
        In entry (BlkgIterator.init prog root q_id include_dying)
        <-> yields prog include_dying q_id root "" entry.
Proof.
  intros prog root q_id incl. split.
  - unfold BlkgIterator.init. apply walk_unfold.
  - intros entry. apply walk_yields.
Qed.

(** *** The path column *)

Lemma length_repeat_char c n : String.length (repeat_char c n) = n.
Proof. induction n as [|n IH]; simpl; [reflexivity|now rewrite IH]. Qed.

Lemma length_substring s :
  forall n m,
    String.length (substring n m s) = Nat.min m (String.length s - n).
Proof.
  induction s as [|c s IH]; intros [|n] [|m]; simpl; try reflexivity.
  - now rewrite IH, Nat.sub_0_r.
  - now rewrite IH.
  - now rewrite IH.
Qed.

Lemma substring_suffix s :
  forall n,
    (n <= String.length s)%nat ->
    exists pre,
      String.length pre = n
      /\ s = pre +++ substring n (String.length s - n) s.
Proof.
  induction s as [|c s IH]; intros [|n] Hn; simpl in *.
  - now exists "".
  - lia.
  - exists "". split; [reflexivity|]. simpl. f_equal.
    destruct (IH 0%nat) as (pre & Hl & E); [lia|].
    destruct pre; [|discriminate]. now rewrite Nat.sub_0_r in E.
  - destruct (IH n) as (pre & Hl & E); [lia|].
    exists (String c pre). split; [simpl; now rewrite Hl|].
    simpl. now rewrite <- E.
Qed.

(** The table's path column is always 28 characters wide, and a longer path
    keeps its last 28 characters. *)
Theorem path_column_width :
  forall path,
    String.length (IocgStat.path_column path) = 28%nat
    /\ ((28 <= String.length path)%nat ->
        exists dropped, path = dropped +++ IocgStat.path_column path).
Proof.
  intros path. unfold IocgStat.path_column, format_str, ljust, last_chars.
  split.
  - rewrite length_append, length_repeat_char, length_substring. lia.
  - intros Hlen.
    destruct (substring_suffix path (String.length path - 28)) as (pre & _ & E);
      [lia|].
    replace (String.length path - (String.length path - 28))%nat with 28%nat
      in E by lia.
    exists pre. rewrite length_substring.
    replace (28 - Nat.min 28 (String.length path - (String.length path - 28)))%nat
      with 0%nat by lia.
    cbn [repeat_char]. now rewrite append_nil_r.
Qed.

Lemma path_column_width_witness :
  exists dropped,
    "system.slice/system-getty.slice/getty@tty1.service"
    = dropped +++ IocgStat.path_column
                    "system.slice/system-getty.slice/getty@tty1.service".
Proof.
  apply (path_column_width "system.slice/system-getty.slice/getty@tty1.service").
  cbn. lia.
Defined.

(** *** Totality *)

(** Within the ranges of the kernel's types, and with scaling constants that
    are not zero, neither derivation raises: a zero period or a zero rate
    gives numbers, not a division fault. *)
Theorem derivations_total :
  forall prog c iocg,
    scales_nonzero prog = true ->
    ioc_in_range c = true ->
    iocg_in_range iocg = true ->
    (exists st, IocStat.init prog c = Ok st)
    /\ (exists st, IocgStat.init prog iocg = Ok st).
Proof.
  intros prog c iocg Hs Hc Hg. split; eexists.
  - now apply IocStat_init_ok.
  - now apply IocgStat_init_ok.
Qed.

Lemma derivations_total_witness :
  (exists st, IocStat.init Sample.prog Sample.stalled_controller = Ok st)
  /\ (exists st,
        IocgStat.init Sample.prog
          (Sample.iocg_on Sample.stalled_controller 4096 true) = Ok st).
Proof.
  apply (derivations_total Sample.prog Sample.stalled_controller
           (Sample.iocg_on Sample.stalled_controller 4096 true));
    reflexivity.
Defined.

(** *** The specification's filtering examples *)

(** With the pattern [^db/] and the nodes [db/a] and [cache/b], only [db/a]
    is shown, though it is not active. *)
Theorem pattern_example :
  filter_re Re.engine (Sample.args_with ["^db/"] false)
  = Ok (Some [[Re.Bol; Re.Lit "d"; Re.Lit "b"; Re.Lit "/"]])
  /\ List.filter
       (appears Re.engine Sample.prog Sample.plid
          (Sample.args_with ["^db/"] false)
          (Some [[Re.Bol; Re.Lit "d"; Re.Lit "b"; Re.Lit "/"]]) PyFloat.zero)
       [Sample.db_a_idle; Sample.cache_b]
     = [Sample.db_a_idle].
Proof. split; vm_compute; reflexivity. Qed.

(** Without a pattern and with the nodes [a], active, and [b], not active,
    only [a] is shown. *)
Theorem no_filter_example :
  filter_re Re.engine Sample.table_args = Ok None
  /\ List.filter
       (appears Re.engine Sample.prog Sample.plid Sample.table_args None
          PyFloat.zero)
       [Sample.a_active; Sample.b_idle]
     = [Sample.a_active].
Proof. split; vm_compute; reflexivity. Qed.

(** *** The paths of a walk *)

Lemma nonempty_true s : s <> "" -> nonempty s = true.
Proof.
  intros H. unfold nonempty. now destruct (String.eqb_spec s "").
Qed.

Lemma append_nonempty s t : s <> "" -> s +++ t <> "".
Proof. destruct s; [contradiction|discriminate]. Qed.

Lemma label_nonempty p : (if nonempty p then p else "/") <> "".
Proof.
  unfold nonempty. destruct (String.eqb_spec p ""); cbn [negb];
    [discriminate|assumption].
Qed.

(** Every pair of a walk has a path that is not empty, and under a parent
    path that is not empty every path is the parent's, a slash, and the
    rest. *)
Theorem walk_paths :
  forall prog include_dying q_id b parent_path path blkg,
    In (path, blkg)
       (BlkgIterator.walk prog include_dying b q_id parent_path []) ->
    path <> ""
    /\ (parent_path <> "" -> exists rest, path = parent_path +++ "/" +++ rest).
Proof.
  intros prog incl q_id b pp path blkg Hin. apply walk_yields in Hin.
  remember (path, blkg) as entry eqn:Ee. revert path blkg Ee.
  induction Hin as [b pp blkg' V L|b pp blkg' c entry V L Hc Y IH];
    intros path blkg Ee.
  - injection Ee as <- <-. split; [apply label_nonempty|].
    intros Hpp. rewrite (nonempty_true pp Hpp).
    rewrite (nonempty_true _ (append_nonempty pp _ Hpp)).
    now exists (blkcg.name b).
  - destruct (IH path blkg Ee) as [Hne Hrest]. split; [exact Hne|].
    intros Hpp. rewrite (nonempty_true pp Hpp) in Hrest.
    destruct (Hrest (append_nonempty pp _ Hpp)) as (rest & ->).
    exists (blkcg.name b +++ "/" +++ rest). now rewrite !append_assoc.
Qed.

Lemma walk_paths_witness :
  "db/a" <> "" /\ ("db" <> "" -> exists rest, "db/a" = "db" +++ "/" +++ rest).
Proof.
  apply (walk_paths Sample.prog false 7 Sample.db_a "db" "db/a"
           (Sample.blkg 12288 false)).
  cbn. now left.
Defined.

(** *** Dying members *)

Lemma yields_include_dying prog q_id b pp entry :
  yields prog false q_id b pp entry -> yields prog true q_id b pp entry.
Proof.
  induction 1 as [b pp blkg V L|b pp blkg c entry V L Hc Y IH].
  - now apply yields_self.
  - now apply (yields_child prog true q_id b pp blkg c entry).
Qed.

Lemma flat_map_agree {A B : Type} (f g : A -> list B) l :
  Forall (fun a => f a = g a) l -> flat_map f l = flat_map g l.
Proof.
  induction 1 as [|a l Ha _ IH]; simpl; [reflexivity|now rewrite Ha, IH].
Qed.

Lemma walk_all_online prog q_id b :
  all_members (css_online prog) b = true ->
  forall pp,
    BlkgIterator.walk prog false b q_id pp []
    = BlkgIterator.walk prog true b q_id pp [].
Proof.
  induction b as [flags name tree children IH] using blkcg_children_ind.
  cbn [all_members blkcg.children]. intros [Hb Hcs]%andb_true_iff pp.
  rewrite !walk_unfold, Hb. cbn [negb andb blkcg.blkg_tree blkcg.children].
  destruct (radix_tree_lookup tree q_id); [|reflexivity]. f_equal.
  apply flat_map_agree. rewrite forallb_forall in Hcs.
  rewrite Forall_forall in IH |- *. intros c Hc. now apply IH, Hcs.
Qed.

(** Asking for the dying members only adds pairs: whatever the default walk
    yields, the walk with [include_dying] yields too, and over a hierarchy
    whose members are all online the two walks are the same. *)
Theorem include_dying_only_adds :
  forall prog root q_id,
    (forall entry,
        In entry (BlkgIterator.init prog root q_id false) ->
        In entry (BlkgIterator.init prog root q_id true))
    /\ (all_members (css_online prog) root = true ->
        BlkgIterator.init prog root q_id false
        = BlkgIterator.init prog root q_id true).
Proof.
  intros prog root q_id. unfold BlkgIterator.init. split.
  - intros entry Hin. apply walk_yields. apply yields_include_dying.
    now apply walk_yields.
  - intros Hall. now apply walk_all_online.
Qed.

Lemma include_dying_only_adds_witness :
  BlkgIterator.init Sample.prog Sample.root 7 false
  = BlkgIterator.init Sample.prog Sample.root 7 true.
Proof.
  apply (include_dying_only_adds Sample.prog Sample.root 7). reflexivity.
Defined.

(** *** What the root lookup finds *)

(** When the root lookup finds a controller, it is the iocost data of the
    first queue whose disk is named [devname], and [q_id] is that queue's
    id; the entries before it are the ones whose name cannot be read or is
    another disk's. *)
Theorem locate_roots_found :
  forall devname plid entries q_id root_iocg,
    locate_roots devname plid entries = Found q_id root_iocg ->
    exists before i blkg after,
      entries = (before ++ (i, blkg) :: after)%list
      /\ request_queue.kobj_parent_name (blkcg_gq.q blkg) = Some devname
      /\ request_queue.id (blkcg_gq.q blkg) = q_id
      /\ blkcg_gq.pd_at blkg plid = Some root_iocg
      /\ Forall
           (fun entry =>
              request_queue.kobj_parent_name (blkcg_gq.q (snd entry))
              <> Some devname)
           before.
Proof.
  intros devname plid entries q_id root_iocg.
  induction entries as [|[i blkg] rest IH]; cbn [locate_roots]; [discriminate|].
  destruct (request_queue.kobj_parent_name (blkcg_gq.q blkg)) as [n|] eqn:En.
  - destruct (String.eqb_spec devname n) as [<-|Hn].
    + destruct (blkcg_gq.pd_at blkg plid) as [g|] eqn:Eg; [|discriminate].
      intros [= <- <-]. exists [], i, blkg, rest. repeat split; auto.
    + intros H. destruct (IH H) as (before & j & b & after & -> & ? & ? & ? & ?).
      exists ((i, blkg) :: before), j, b, after. repeat split; auto.
      constructor; [|assumption]. cbn [snd]. rewrite En. congruence.
  - intros H. destruct (IH H) as (before & j & b & after & -> & ? & ? & ? & ?).
    exists ((i, blkg) :: before), j, b, after. repeat split; auto.
    constructor; [|assumption]. cbn [snd]. rewrite En. discriminate.
Qed.

Lemma locate_roots_found_witness :
  exists before i blkg after,
    Sample.root_blkgs = (before ++ (i, blkg) :: after)%list
    /\ request_queue.kobj_parent_name (blkcg_gq.q blkg) = Some "sda"
    /\ request_queue.id (blkcg_gq.q blkg) = 7
    /\ blkcg_gq.pd_at blkg Sample.plid = Some (Sample.iocg 4096 true)
    /\ Forall
         (fun entry =>
            request_queue.kobj_parent_name (blkcg_gq.q (snd entry))
            <> Some "sda")
         before.
Proof.
  apply (locate_roots_found "sda" Sample.plid Sample.root_blkgs 7
           (Sample.iocg 4096 true)).
  reflexivity.
Defined.

(** *** When the filter is on *)

Lemma join_loop rs :
  forall acc,
    fold_left
      (fun acc r =>
         match acc with
         | None => Some r
         | Some s => Some (s +++ "|" +++ r)
         end) rs (Some acc)
    = Some (String.concat "|" (acc :: rs)).
Proof.
  induction rs as [|r rs IH]; intros acc; [reflexivity|].
  cbn [fold_left]. rewrite IH. f_equal.
  destruct rs as [|r' rs]; [reflexivity|].
  cbn [String.concat]. now rewrite !append_assoc.
Qed.

Lemma concat_empty r rs : String.concat "|" (r :: rs) = "" -> r = "" /\ rs = [].
Proof.
  destruct rs as [|r' rs]; cbn [String.concat]; [now split|].
  intros E. apply (f_equal String.length) in E.
  rewrite !length_append in E. cbn in E. lia.
Qed.

(** The loop over the [--cgroup] options builds their join by [|], and the
    filter is off in exactly three cases: no option was given, the list is
    empty, or the one option given is the empty string. *)
Theorem filter_switch :
  forall re args,
    re_str args
    = match cgroup args with
      | None | Some [] => None
      | Some (r :: rs) => Some (String.concat "|" (r :: rs))
      end
    /\ (filter_re re args = Ok None
        <-> cgroup args = None \/ cgroup args = Some []
            \/ cgroup args = Some [""]).
Proof.
  intros re args.
  assert (Hstr : re_str args
                 = match cgroup args with
                   | None | Some [] => None
                   | Some (r :: rs) => Some (String.concat "|" (r :: rs))
                   end).
  { unfold re_str. destruct (cgroup args) as [[|r rs]|]; try reflexivity.
    cbn [fold_left]. apply join_loop. }
  split; [exact Hstr|]. split.
  - intros H. apply filter_re_cases in H. rewrite Hstr in H.
    destruct (cgroup args) as [[|r rs]|]; auto.
    destruct H as [H|H]; [discriminate|]. injection H as H.
    apply concat_empty in H as [-> ->]. auto.
  - unfold filter_re. rewrite Hstr.
    intros [->| [->| ->]]; reflexivity.
Qed.

(** *** How a run ends *)

Section Run.

Variable re : re_engine.
Variable prog : Prog.
Variable plid : Z.
Variable args : Args.
Variable filter : option (re_pattern re).
Variable q_id : Z.


End Run.


(** *** A run within range *)

Lemma node_loop_appends re prog plid args filter now entries :
  scales_nonzero prog = true ->
  (forall path blkg iocg,
      In (path, blkg) entries ->
      blkcg_gq.pd_at blkg plid = Some iocg ->
      iocg_in_range iocg = true) ->
  forall output,
    node_loop re prog plid args filter now entries output
    = Ok (output
          +++ String.concat ""
                (map (fun entry => nl +++ line prog plid args now entry)
                     (List.filter (appears re prog plid args filter now)
                                  entries))).
Proof.
  intros Hs. induction entries as [|[path blkg] entries IH]; intros Hr output.
  - cbn. now rewrite append_nil_r.
  - cbn [node_loop List.filter].
    rewrite (node_step_appends re prog plid args filter Hs)
      by (intros iocg; apply (Hr path blkg); now left).
    cbn [bind]. rewrite IH by (intros p b i Hin; apply (Hr p b i); now right).
    destruct (appears re prog plid args filter now (path, blkg)).
    + cbn [map]. rewrite concat_cons, !append_assoc. reflexivity.
    + reflexivity.
Qed.

Lemma tick_in_range re prog plid args filter q_id snap :
  scales_nonzero prog = true ->
  snapshot_in_range prog plid q_id snap ->
  tick re prog plid args filter q_id snap
  = Ok (tick_text re prog plid args filter q_id snap).
Proof.
  intros Hs [Hc Hg]. unfold tick, tick_text, tick_header.
  rewrite (IocStat_init_ok prog (ioc_now snap) Hs Hc). cbn [bind].
  now apply node_loop_appends.
Qed.




(** *** Structured output, line by line *)

Lemma escape_char_printable c :
  string_forall printable (Json.escape_char c) = true.
Proof. destruct c as [[] [] [] [] [] [] [] []]; reflexivity. Qed.

Lemma escape_printable s : string_forall printable (Json.escape s) = true.
Proof.
  induction s as [|c s IH]; [reflexivity|]. cbn [Json.escape].
  now rewrite string_forall_app, escape_char_printable, IH.
Qed.

Lemma quote_printable s : string_forall printable (Json.quote s) = true.
Proof.
  unfold Json.quote. cbn [String.append string_forall].
  rewrite string_forall_app, escape_printable. reflexivity.
Qed.

Lemma concat_printable sep parts :
  string_forall printable sep = true ->
  Forall (fun part => string_forall printable part = true) parts ->
  string_forall printable (String.concat sep parts) = true.
Proof.
  intros Hsep. induction 1 as [|part parts Hp Hall IH]; [reflexivity|].
  cbn [String.concat]. destruct parts as [|part' parts]; [exact Hp|].
  now rewrite !string_forall_app, Hp, Hsep, IH.
Qed.

(** [json.dumps] writes printable ASCII only, whatever the strings of the
    dict hold: no raw line break, control character or character above
    [~] reaches the output. *)
Theorem dumps_printable :
  forall d, string_forall printable (Json.dumps d) = true.
Proof.
  intros d. unfold Json.dumps. cbn [String.append string_forall].
  rewrite string_forall_app. cbn [string_forall]. rewrite andb_true_r.
  apply concat_printable; [reflexivity|].
  apply Forall_forall. intros part (kv & <- & _)%in_map_iff.
  unfold Json.item. rewrite !string_forall_app, !quote_printable. reflexivity.
Qed.

Lemma count_char_app c s t :
  count_char c (s +++ t) = (count_char c s + count_char c t)%nat.
Proof.
  induction s as [|d s IH]; [reflexivity|]. cbn [String.append count_char].
  rewrite IH. lia.
Qed.

Lemma printable_without_newline s :
  string_forall printable s = true -> count_char "010" s = O.
Proof.
  induction s as [|c s IH]; [reflexivity|]. cbn [string_forall count_char].
  intros [Hc Hs]%andb_true_iff. rewrite (IH Hs).
  destruct (Ascii.eqb_spec c "010") as [->|_]; [discriminate Hc|reflexivity].
Qed.

Lemma count_char_lines c (texts : list string) :
  Forall (fun text => count_char c text = 1%nat) texts ->
  count_char c (String.concat "" texts) = List.length texts.
Proof.
  induction 1 as [|text texts Ht _ IH]; [reflexivity|].
  rewrite concat_cons, count_char_app, Ht, IH. reflexivity.
Qed.

(** In structured mode a tick is line-delimited whatever the names hold:
    its text has exactly one line break per pair that appears, so one line
    for the controller and one per node. *)
Theorem structured_tick_lines :
  forall re prog plid args filter q_id snap,
    json args = true ->
    scales_nonzero prog = true ->
    snapshot_in_range prog plid q_id snap ->
    exists text,
      tick re prog plid args filter q_id snap = Ok text
      /\ count_char "010" text
         = List.length
             (List.filter (appears re prog plid args filter (now snap))
                (BlkgIterator.init prog (blkcg_root_now snap) q_id false)).
Proof.
  intros re prog plid args filter q_id snap Hjson Hs Hsnap.
  eexists. split; [now apply tick_in_range|].
  unfold tick_text, tick_header, table_fmt. rewrite Hjson. cbn [negb].
  rewrite count_char_app.
  assert (Hhead : count_char "010"
                    match IocStat.init prog (ioc_now snap) with
                    | Ok iocstat =>
                        Json.dumps (IocStat.dict (devname args) iocstat (now snap))
                    | Raise _ => ""
                    end = O).
  { destruct (IocStat.init prog (ioc_now snap)); [|reflexivity].
    apply printable_without_newline, dumps_printable. }
  rewrite Hhead, count_char_lines, length_map; [reflexivity|].
  apply Forall_forall. intros text (entry & <- & _)%in_map_iff.
  unfold nl. cbn [String.append count_char Ascii.eqb Bool.eqb].
  unfold line, table_fmt. rewrite Hjson. cbn [negb].
  destruct (blkcg_gq.pd_at (snd entry) plid) as [iocg|]; [|reflexivity].
  destruct (IocgStat.init prog iocg); [|reflexivity].
  now rewrite printable_without_newline by apply dumps_printable.
Qed.

Lemma structured_tick_lines_witness :
  exists text,
    tick Re.engine Sample.prog Sample.plid Sample.json_args None 7
         Sample.live_snapshot = Ok text
    /\ count_char "010" text = 2%nat.
Proof.
  apply (structured_tick_lines Re.engine Sample.prog Sample.plid
           Sample.json_args None 7 Sample.live_snapshot);
    try reflexivity.
  split; [reflexivity|].
  intros path blkg iocg [E|[E|[E|[]]]]; injection E as <- <-;
    intros [= <-]; reflexivity.
Defined.

(** *** The fields of the structured records *)

Lemma to_int_proper n :
  Z.to_int n <> Decimal.Pos Decimal.Nil /\ Z.to_int n <> Decimal.Neg Decimal.Nil.
Proof.
  destruct n as [|p|p]; cbn; split; try discriminate;
    intros [= H]; exact (DecimalPos.Unsigned.to_uint_nonnil p H).
Qed.

(** [str] loses nothing of an int. *)
Lemma str_int_inj a b : str_int a = str_int b -> a = b.
Proof.
  unfold str_int. intros E. apply DecimalZ.to_int_inj.
  destruct (to_int_proper a) as [Ha1 Ha2], (to_int_proper b) as [Hb1 Hb2].
  pose proof (DecimalString.NilZero.isi _ Ha1 Ha2) as Ia.
  pose proof (DecimalString.NilZero.isi _ Hb1 Hb2) as Ib.
  rewrite E in Ia. congruence.
Qed.

Lemma append_inj_r p a b : p +++ a = p +++ b -> a = b.
Proof.
  induction p as [|c p IH]; cbn [String.append]; [trivial|].
  intros [= E]. now apply IH.
Qed.

Lemma usage_items_keys us :
  forall start,
    NoDup (map fst (IocgStat.usage_items start us))
    /\ forall key,
        In key (map fst (IocgStat.usage_items start us)) ->
        exists i, start <= i /\ key = "usage_pct_" +++ str_int i.
Proof.
  induction us as [|u us IH]; intros start; cbn [IocgStat.usage_items map fst].
  - split; [constructor|intros key []].
  - destruct (IH (start + 1)) as [Hnd Hkeys]. split.
    + constructor; [|exact Hnd]. intros Hin.
      destruct (Hkeys _ Hin) as (i & Hi & E).
      apply append_inj_r, str_int_inj in E. lia.
    + intros key [<-|Hin].
      * exists start. split; [lia|reflexivity].
      * destruct (Hkeys _ Hin) as (i & Hi & E). exists i. split; [lia|exact E].
Qed.

Lemma usage_items_nth us :
  forall start i u,
    nth_error us i = Some u ->
    In ("usage_pct_" +++ str_int (start + Z.of_nat i), str_float u)
       (IocgStat.usage_items start us).
Proof.
  induction us as [|v us IH]; intros start [|i] u; cbn; try discriminate.
  - intros [= <-]. left. now rewrite Z.add_0_r.
  - intros H. right.
    replace (start + Z.pos (Pos.of_succ_nat i)) with (start + 1 + Z.of_nat i)
      by lia.
    now apply IH.
Qed.

Lemma length_usage_items us :
  forall start, List.length (IocgStat.usage_items start us) = List.length us.
Proof. induction us as [|u us IH]; intros start; cbn; [reflexivity|now rewrite IH]. Qed.

(** The structured records have no repeated key: the controller's has its
    nine fields, a node's its fourteen and one [usage_pct_<i>] per ring
    slot, slot [i] of the ring under key [usage_pct_<i>]. *)
Theorem structured_record_keys :
  forall devname (c : IocStat.t) (st : IocgStat.t) (now : pyfloat) (path : string),
    NoDup (map fst (IocStat.dict devname c now))
    /\ List.length (IocStat.dict devname c now) = 9%nat
    /\ NoDup (map fst (IocgStat.dict st now path))
    /\ List.length (IocgStat.dict st now path)
       = (14 + List.length (IocgStat.usages st))%nat
    /\ forall i u,
        nth_error (IocgStat.usages st) i = Some u ->
        In ("usage_pct_" +++ str_int (Z.of_nat i), str_float u)
           (IocgStat.dict st now path).
Proof.
  intros devname c st now path. split; [|split; [reflexivity|]].
  { cbn. repeat constructor; cbn; intuition discriminate. }
  unfold IocgStat.dict. rewrite map_app, length_app, length_usage_items.
  destruct (usage_items_keys (IocgStat.usages st) 0) as [Hnd Hkeys].
  split; [|split; [reflexivity|]].
  - apply NoDup_app; [|exact Hnd|].
    + cbn. repeat constructor; cbn; intuition discriminate.
    + intros key Hfixed Hring. destruct (Hkeys key Hring) as (i & _ & ->).
      cbn in Hfixed. intuition discriminate.
  - intros i u Hnth. apply in_or_app. right.
    exact (usage_items_nth (IocgStat.usages st) 0 i u Hnth).
Qed.

(** *** The width of the capped columns *)

Lemma py_range_mem n i : 0 <= i < n -> In i (py_range n).
Proof.
  intros Hi. unfold py_range. apply in_map_iff. exists (Z.to_nat i).
  split; [lia|]. apply in_seq. lia.
Qed.

Lemma str_int_three_digits n :
  0 <= n <= 999 -> (String.length (str_int n) <= 3)%nat.
Proof.
  intros Hn.
  assert (H : forallb (fun n => Nat.leb (String.length (str_int n)) 3)
                      (py_range 1000) = true) by (vm_compute; reflexivity).
  rewrite forallb_forall in H. apply Nat.leb_le, H, py_range_mem. lia.
Qed.

Lemma str_int_two_digits n :
  0 <= n <= 99 -> (String.length (str_int n) <= 2)%nat.
Proof.
  intros Hn.
  assert (H : forallb (fun n => Nat.leb (String.length (str_int n)) 2)
                      (py_range 100) = true) by (vm_compute; reflexivity).
  rewrite forallb_forall in H. apply Nat.leb_le, H, py_range_mem. lia.
Qed.

Lemma length_rjust w s :
  (String.length s <= w)%nat -> String.length (rjust w s) = w.
Proof.
  intros H. unfold rjust. rewrite length_append, length_repeat_char. lia.
Qed.

Lemma length_format_int_zero n :
  0 <= n <= 999 -> String.length (format_int_zero 3 n) = 3%nat.
Proof.
  intros Hn. unfold format_int_zero, zfill.
  destruct (Z.ltb_spec n 0); [lia|]. rewrite Z.abs_eq by lia.
  pose proof (str_int_three_digits n Hn).
  rewrite !length_append, length_repeat_char. cbn [String.length]. lia.
Qed.

Lemma capped a cap : 0 <= a -> 0 <= cap -> 0 <= py_min_int a cap <= cap.
Proof. intros Ha Hc. rewrite py_min_int_min. lia. Qed.

Lemma math_ceil_nonneg x : (0 <= PyFloat.value x)%Q -> 0 <= math_ceil x.
Proof.
  intros H. unfold math_ceil. change 0 with (Qceiling 0).
  now apply Qceiling_resp_le.
Qed.

Lemma py_round_nonneg a b : 0 <= a -> 0 < b -> 0 <= py_round (int_quotient a b).
Proof.
  intros Ha Hb. unfold py_round, int_quotient. cbn [PyFloat.neg PyFloat.mag].
  destruct (Z.ltb_spec a 0); [lia|]. destruct (Z.ltb_spec b 0); [lia|].
  cbn [xorb]. apply round_half_even_nonneg, round_nonneg.
Qed.

(** With unsigned counters, the caps keep the columns at their width: the
    debt column is three characters wide, the delay column six, and every
    ring slot three digits and its colon. *)
Theorem capped_columns_width :
  forall prog iocg,
    scales_nonzero prog = true ->
    iocg_in_range iocg = true ->
    0 < HWEIGHT_WHOLE prog ->
    0 < VTIME_PER_USEC prog ->
    counters_unsigned iocg = true ->
    exists st,
      IocgStat.init prog iocg = Ok st
      /\ String.length (IocgStat.debt_column st) = 3%nat
      /\ String.length (IocgStat.delay_column st) = 6%nat
      /\ Forall (fun u => String.length (IocgStat.usage_column u) = 4%nat)
                (IocgStat.usages st).
Proof.
  intros prog iocg Hs Hr Hw Hu Hc.
  unfold counters_unsigned in Hc. rewrite !andb_true_iff, !Z.leb_le in Hc.
  destruct Hc as [[[Hdebt Hdelay] Hnsec] Hslots].
  eexists. split; [apply IocgStat_init_ok; assumption|].
  unfold IocgStat.debt_column, IocgStat.delay_column.
  cbn [IocgStat.debt_ms IocgStat.use_delay IocgStat.delay_ms IocgStat.usages].
  split; [|split].
  - apply length_rjust, str_int_three_digits, capped; [|lia].
    apply math_ceil_nonneg. unfold PyFloat.value, int_quotient.
    cbn [PyFloat.neg PyFloat.mag].
    destruct (Z.ltb_spec (ioc_gq.abs_vdebt iocg) 0); [lia|].
    destruct (Z.ltb_spec (VTIME_PER_USEC prog) 0); [lia|].
    cbn [xorb]. apply round_nonneg.
  - rewrite !length_append, length_format_int_zero.
    + unfold format_int. rewrite length_rjust; [reflexivity|].
      apply str_int_two_digits, capped; lia.
    + apply capped; [|lia]. apply math_ceil_nonneg.
      apply int_quotient_nonneg; lia.
  - apply Forall_forall. intros u (i & <- & _)%in_map_iff.
    unfold IocgStat.usage_column. rewrite length_append, length_format_int_zero.
    + reflexivity.
    + apply capped; [|lia]. unfold slot_pct. apply py_round_nonneg; [|exact Hw].
      apply Z.mul_nonneg_nonneg; [|lia].
      unfold slots_unsigned in Hslots.
      destruct (nth_in_or_default
                  (Z.to_nat ((ioc_gq.usage_idx iocg + i) mod NR_USAGE_SLOTS prog))
                  (ioc_gq.usages iocg) 0) as [Hin| ->]; [|lia].
      rewrite forallb_forall in Hslots. apply Z.leb_le. now apply Hslots.
Qed.

Lemma capped_columns_width_witness :
  exists st,
    IocgStat.init Sample.prog_tick_per_usec Sample.indebted = Ok st
    /\ String.length (IocgStat.debt_column st) = 3%nat
    /\ String.length (IocgStat.delay_column st) = 6%nat
    /\ Forall (fun u => String.length (IocgStat.usage_column u) = 4%nat)
              (IocgStat.usages st).
Proof.
  apply (capped_columns_width Sample.prog_tick_per_usec Sample.indebted);
    reflexivity.
Defined.

(** *** Rotating the usage ring *)

Lemma slot_pct_shifted prog iocg usage_idx i :
  slot_pct prog (with_usage_idx iocg usage_idx) i
  = slot_pct prog iocg (i + (usage_idx - ioc_gq.usage_idx iocg)).
Proof.
  unfold slot_pct. cbn [with_usage_idx ioc_gq.usage_idx ioc_gq.usages].
  replace (ioc_gq.usage_idx iocg + (i + (usage_idx - ioc_gq.usage_idx iocg)))
    with (usage_idx + i) by lia.
  reflexivity.
Qed.

Lemma slot_pct_mod prog iocg i :
  NR_USAGE_SLOTS prog <> 0 ->
  slot_pct prog iocg (i mod NR_USAGE_SLOTS prog) = slot_pct prog iocg i.
Proof.
  intros Hn. unfold slot_pct. now rewrite Z.add_mod_idemp_r.
Qed.

Lemma running_max_covered pct pct' todo todo' start :
  (forall i, In i todo -> exists j, In j todo' /\ pct i = pct' j) ->
  (num_value (running_max pct todo start)
   <= num_value (running_max pct' todo' start))%Q.
Proof.
  intros Hcover.
  destruct (running_max_upper pct' todo' start) as [Hstart Hall].
  destruct (running_max_cases pct todo start) as [->|(i & Hi & ->)].
  - exact Hstart.
  - destruct (Hcover i Hi) as (j & Hj & E). cbn [num_value]. rewrite E.
    now apply Hall.
Qed.

Lemma slots_covered prog iocg usage_idx :
  0 < NR_USAGE_SLOTS prog ->
  forall i,
    In i (py_range (NR_USAGE_SLOTS prog)) ->
    exists j,
      In j (py_range (NR_USAGE_SLOTS prog))
      /\ slot_pct prog (with_usage_idx iocg usage_idx) i = slot_pct prog iocg j.
Proof.
  intros Hn i _.
  exists ((i + (usage_idx - ioc_gq.usage_idx iocg)) mod NR_USAGE_SLOTS prog).
  split.
  - apply py_range_mem, Z.mod_pos_bound, Hn.
  - rewrite slot_pct_shifted, slot_pct_mod by lia. reflexivity.
Qed.

(** The rotation index only rotates the ring: with another [usage_idx] the
    derived ring holds the same percentages, entry [k] of the new ring being
    the entry of the old one that many places further round, and the usage
    figure keeps its value. *)
Theorem usage_rotation :
  forall prog iocg usage_idx,
    scales_nonzero prog = true ->
    iocg_in_range iocg = true ->
    0 < NR_USAGE_SLOTS prog ->
    exists st st',
      IocgStat.init prog iocg = Ok st
      /\ IocgStat.init prog (with_usage_idx iocg usage_idx) = Ok st'
      /\ (num_value (IocgStat.usage st') == num_value (IocgStat.usage st))%Q
      /\ forall k,
          0 <= k < NR_USAGE_SLOTS prog ->
          nth_error (IocgStat.usages st') (Z.to_nat k)
          = nth_error (IocgStat.usages st)
              (Z.to_nat ((k + (usage_idx - ioc_gq.usage_idx iocg))
                         mod NR_USAGE_SLOTS prog)).
Proof.
  intros prog iocg idx Hs Hr Hn.
  do 2 eexists.
  split; [apply IocgStat_init_ok; assumption|].
  split; [apply IocgStat_init_ok; [assumption|exact Hr]|].
  cbn [IocgStat.usage IocgStat.usages].
  fold (running_max (slot_pct prog iocg) (py_range (NR_USAGE_SLOTS prog)) (PInt 0)).
  fold (running_max (slot_pct prog (with_usage_idx iocg idx))
          (py_range (NR_USAGE_SLOTS prog)) (PInt 0)).
  split.
  - apply Qle_antisym; apply running_max_covered.
    + now apply slots_covered.
    + intros i Hi.
      destruct (slots_covered prog (with_usage_idx iocg idx)
                  (ioc_gq.usage_idx iocg) Hn i Hi) as (j & Hj & E).
      exists j. split; [exact Hj|]. exact E.
  - intros k Hk. rewrite !nth_error_map.
    rewrite (py_range_nth _ _ Hk).
    rewrite py_range_nth by (apply Z.mod_pos_bound; exact Hn).
    cbn [option_map]. f_equal.
    rewrite slot_pct_shifted. symmetry. apply slot_pct_mod. lia.
Qed.

Lemma usage_rotation_witness :
  exists st st',
    IocgStat.init Sample.prog (Sample.iocg 4096 true) = Ok st
    /\ IocgStat.init Sample.prog
         (with_usage_idx (Sample.iocg 4096 true) 0) = Ok st'
    /\ (num_value (IocgStat.usage st') == num_value (IocgStat.usage st))%Q.
Proof.
  destruct (usage_rotation Sample.prog (Sample.iocg 4096 true) 0
              eq_refl eq_refl eq_refl) as (st & st' & H & H' & Hmax & _).
  exists st, st'. auto.
Defined.

(** *** The profile label *)

(** The profile label is never an error: it is [?] exactly when the index
    is none of the four profile constants, and the label of the last
    constant in the table that equals the index otherwise. *)
Theorem profile_label :
  forall prog c,
    scales_nonzero prog = true ->
    ioc_in_range c = true ->
    exists st,
      IocStat.init prog c = Ok st
      /\ IocStat.autop_name st
         = (if AUTOP_HDD prog =? ioc.autop_idx c then "hdd"
            else if AUTOP_SSD_QD1 prog =? ioc.autop_idx c then "ssd_qd1"
            else if AUTOP_SSD_DFL prog =? ioc.autop_idx c then "ssd_dfl"
            else if AUTOP_SSD_FAST prog =? ioc.autop_idx c then "ssd_fast"
            else "?")
      /\ (IocStat.autop_name st = "?"
          <-> ~ In (ioc.autop_idx c)
                [AUTOP_SSD_FAST prog; AUTOP_SSD_DFL prog;
                 AUTOP_SSD_QD1 prog; AUTOP_HDD prog]).
Proof.
  intros prog c Hs Hr.
  eexists. split; [apply IocStat_init_ok; assumption|].
  cbn [IocStat.autop_name]. unfold dict_get, autop_names.
  cbn [rev app find fst snd option_map In].
  destruct (Z.eqb_spec (AUTOP_HDD prog) (ioc.autop_idx c));
    [cbn; split; [reflexivity|]; split; [discriminate|tauto]|].
  destruct (Z.eqb_spec (AUTOP_SSD_QD1 prog) (ioc.autop_idx c));
    [cbn; split; [reflexivity|]; split; [discriminate|tauto]|].
  destruct (Z.eqb_spec (AUTOP_SSD_DFL prog) (ioc.autop_idx c));
    [cbn; split; [reflexivity|]; split; [discriminate|tauto]|].
  destruct (Z.eqb_spec (AUTOP_SSD_FAST prog) (ioc.autop_idx c));
    [cbn; split; [reflexivity|]; split; [discriminate|tauto]|].
  cbn. split; [reflexivity|]. split; [tauto|reflexivity].
Qed.

Lemma profile_label_witness :
  exists st,
    IocStat.init Sample.prog Sample.controller = Ok st
    /\ IocStat.autop_name st = "ssd_dfl".
Proof.
  destruct (profile_label Sample.prog Sample.controller eq_refl eq_refl)
    as (st & Hst & Hname & _).
  exists st. split; [exact Hst|exact Hname].
Defined.

(** *** Percentages stay within their range *)

Lemma round_half_even_le y n :
  (y <= inject_Z n)%Q -> PyFloat.round_half_even y <= n.
Proof.
  intros Hy. unfold PyFloat.round_half_even.
  assert (Hf : Qfloor y <= n).
  { rewrite <- (Qfloor_Z n). now apply Qfloor_resp_le. }
  destruct (Qcompare_spec (y - inject_Z (Qfloor y)) (1 # 2)) as [E|_|G];
    [|exact Hf|].
  - assert (Qfloor y < n).
    { destruct (Z.eq_dec (Qfloor y) n) as [En|]; [|lia].
      rewrite En in E. exfalso. lra. }
    destruct (Z.even (Qfloor y)); lia.
  - destruct (Z.eq_dec (Qfloor y) n) as [En|]; [|lia].
    rewrite En in G. exfalso. lra.
Qed.

Lemma ilog2_below x :
  (0 < x)%Q -> (x < inject_Z (2 ^ 53))%Q -> PyFloat.ilog2 x <= 52.
Proof.
  destruct x as [n d]. unfold Qlt, inject_Z. cbn [Qnum Qden].
  rewrite !Z.mul_1_r. intros Hn Hx. cbn [Z.mul] in Hn.
  unfold PyFloat.ilog2. cbn [Qnum Qden].
  assert (Hd : Z.pos d < 2 ^ (Z.log2 (Z.pos d) + 1)).
  { apply Z.log2_spec. lia. }
  assert (Hl : Z.log2 n < 54 + Z.log2 (Z.pos d)).
  { apply Z.log2_lt_pow2; [exact Hn|].
    pose proof (Z.log2_nonneg (Z.pos d)).
    replace (54 + Z.log2 (Z.pos d)) with (53 + (Z.log2 (Z.pos d) + 1)) by lia.
    rewrite Z.pow_add_r by lia.
    assert (0 < 2 ^ 53) by (apply Z.pow_pos_nonneg; lia). nia. }
  destruct (Z.eq_dec (Z.log2 n - Z.log2 (Z.pos d)) 53) as [E|].
  - rewrite E.
    destruct (Qle_bool (PyFloat.pow2 53) (n # d)) eqn:B; [|lia].
    exfalso. apply Qle_bool_iff in B.
    change (PyFloat.pow2 53) with (inject_Z (2 ^ 53)) in B.
    unfold Qle, inject_Z in B. cbn [Qnum Qden] in B. lia.
  - destruct (Qle_bool _ _); lia.
Qed.

Lemma pow2_inverse e :
  e <= 0 -> (PyFloat.pow2 e * inject_Z (2 ^ (- e)) == 1)%Q.
Proof.
  intros He. unfold PyFloat.pow2.
  rewrite Zpower_Qpower by lia.
  replace e with (- - e) at 1 by lia. rewrite Qpower_opp.
  change (inject_Z 2) with 2%Q.
  rewrite Qmult_comm. apply Qmult_inv_r.
  intros H. assert (0 < 2 ^ (- e))%Q by (apply Qpower_0_lt; reflexivity).
  lra.
Qed.

(** Rounding to the binary64 grid does not carry a value past an integer
    the grid holds. *)
Lemma round_le_int x K :
  0 <= K < 2 ^ 53 -> (x <= inject_Z K)%Q -> (PyFloat.round x <= inject_Z K)%Q.
Proof.
  intros HK Hx. unfold PyFloat.round.
  pose proof (Qred_correct x) as Hred.
  destruct (Qle_bool (Qred x) 0) eqn:B.
  - change 0%Q with (inject_Z 0). rewrite <- Zle_Qle. lia.
  - assert (Hpos : (0 < Qred x)%Q).
    { apply Qnot_le_lt. intros H%Qle_bool_iff. congruence. }
    assert (Hlog : PyFloat.ilog2 (Qred x) <= 52).
    { apply ilog2_below; [exact Hpos|]. rewrite Hred.
      apply Qle_lt_trans with (inject_Z K); [exact Hx|].
      rewrite <- Zlt_Qlt. lia. }
    set (e := Z.max (PyFloat.ilog2 (Qred x) - 52) (-1074)).
    assert (He : e <= 0) by lia.
    pose proof (pow2_inverse e He) as Hinv.
    assert (Hp : (0 < PyFloat.pow2 e)%Q) by (apply Qpower_0_lt; reflexivity).
    assert (HP : 0 < 2 ^ (- e)) by (apply Z.pow_pos_nonneg; lia).
    set (P := 2 ^ (- e)) in *.
    assert (HPq : (0 < inject_Z P)%Q) by (change 0%Q with (inject_Z 0);
                                          now rewrite <- Zlt_Qlt).
    assert (Hm : PyFloat.round_half_even (Qred x / PyFloat.pow2 e) <= K * P).
    { apply round_half_even_le. rewrite inject_Z_mult.
      apply Qle_shift_div_r; [exact Hp|].
      rewrite <- Qmult_assoc, (Qmult_comm (inject_Z P)), Hinv, Qmult_1_r.
      now rewrite Hred. }
    rewrite Qred_correct.
    apply Qle_trans with (inject_Z (K * P) * PyFloat.pow2 e)%Q.
    + apply Qmult_le_compat_r; [|now apply Qlt_le_weak].
      now rewrite <- Zle_Qle.
    + rewrite inject_Z_mult, <- Qmult_assoc, (Qmult_comm (inject_Z P)), Hinv,
        Qmult_1_r.
      apply Qle_refl.
Qed.

Lemma int_quotient_pct a b :
  0 <= a <= b -> 0 < b ->
  PyFloat.neg (int_quotient (a * 100) b) = false
  /\ (0 <= PyFloat.mag (int_quotient (a * 100) b) <= 100)%Q.
Proof.
  intros Ha Hb. unfold int_quotient. cbn [PyFloat.neg PyFloat.mag].
  destruct (Z.ltb_spec (a * 100) 0); [lia|].
  destruct (Z.ltb_spec b 0); [lia|]. cbn [xorb].
  split; [reflexivity|]. split; [apply round_nonneg|].
  apply (round_le_int _ 100); [split; [lia|reflexivity]|].
  unfold Qle, inject_Z. cbn [Qnum Qden].
  rewrite Z2Pos.id by lia. rewrite !Z.abs_eq by lia. lia.
Qed.

Lemma length_zfill_two n :
  0 <= n <= 99 -> String.length (zfill 2 "" (str_int n)) = 2%nat.
Proof.
  intros Hn. pose proof (str_int_two_digits n Hn). unfold zfill.
  cbn [String.append String.length].
  rewrite length_append, length_repeat_char. lia.
Qed.

(** A percentage between 0 and 100 fills its six-character field. *)
Lemma length_percentage x :
  PyFloat.neg x = false ->
  (0 <= PyFloat.mag x <= 100)%Q ->
  String.length (format_fixed 6 2 (PFloat x)) = 6%nat.
Proof.
  intros Hneg [Hlo Hhi]. unfold format_fixed, float_of_num, fixed_digits.
  rewrite Hneg. change (10 ^ Z.of_nat 2) with 100.
  set (r := PyFloat.round_half_even (PyFloat.mag x * inject_Z 100)).
  assert (Hr : 0 <= r <= 10000).
  { split.
    - apply round_half_even_nonneg. apply Qmult_le_0_compat; [exact Hlo|].
      discriminate.
    - apply round_half_even_le. change (inject_Z 10000) with (100 * inject_Z 100)%Q.
      apply Qmult_le_compat_r; [exact Hhi|discriminate]. }
  apply length_rjust. cbn [String.append].
  rewrite length_append. cbn [String.length].
  assert (0 <= r / 100 <= 100).
  { split; [apply Z.div_pos; lia|]. apply Z.div_le_upper_bound; lia. }
  assert (0 <= r mod 100 < 100) by (apply Z.mod_pos_bound; lia).
  pose proof (str_int_three_digits (r / 100)).
  rewrite length_zfill_two by lia. lia.
Qed.

(** A hierarchical weight between 0 and [HWEIGHT_WHOLE] gives a percentage
    between 0 and 100: rounding does not carry it past either end, and the
    two of them fill the hweight column exactly, six characters each. *)
Theorem hweight_percentages :
  forall prog iocg,
    scales_nonzero prog = true ->
    iocg_in_range iocg = true ->
    0 < HWEIGHT_WHOLE prog ->
    0 <= ioc_gq.hweight_active iocg <= HWEIGHT_WHOLE prog ->
    0 <= ioc_gq.hweight_inuse iocg <= HWEIGHT_WHOLE prog ->
    exists st,
      IocgStat.init prog iocg = Ok st
      /\ (0 <= PyFloat.value (IocgStat.hwa_pct st) <= 100)%Q
      /\ (0 <= PyFloat.value (IocgStat.hwi_pct st) <= 100)%Q
      /\ String.length (IocgStat.hweight_column st) = 13%nat.
Proof.
  intros prog iocg Hs Hr Hw Ha Hi.
  eexists. split; [apply IocgStat_init_ok; assumption|].
  unfold IocgStat.hweight_column. cbn [IocgStat.hwa_pct IocgStat.hwi_pct].
  destruct (int_quotient_pct _ _ Ha Hw) as [Hna Hma].
  destruct (int_quotient_pct _ _ Hi Hw) as [Hni Hmi].
  unfold PyFloat.value. rewrite Hna, Hni.
  split; [exact Hma|]. split; [exact Hmi|].
  rewrite !length_append, !length_percentage by assumption. reflexivity.
Qed.

Lemma hweight_percentages_witness :
  exists st,
    IocgStat.init Sample.prog (Sample.iocg 4096 true) = Ok st
    /\ String.length (IocgStat.hweight_column st) = 13%nat.
Proof.
  assert (Ha : 0 <= 65536 <= 65536) by lia.
  assert (Hi : 0 <= 32768 <= 65536) by lia.
  destruct (hweight_percentages Sample.prog (Sample.iocg 4096 true)
              eq_refl eq_refl eq_refl Ha Hi)
    as (st & Hst & _ & _ & Hlen).
  exists st. split; assumption.
Defined.

(** *** The root lookup, both ways *)

Lemma locate_roots_skips devname plid before :
  Forall
    (fun entry =>
       request_queue.kobj_parent_name (blkcg_gq.q (snd entry)) <> Some devname)
    before ->
  forall rest,
    locate_roots devname plid (before ++ rest)%list
    = locate_roots devname plid rest.
Proof.
  induction 1 as [|[i blkg] before Hname _ IH]; intros rest; [reflexivity|].
  cbn [app locate_roots]. cbn [snd] in Hname.
  destruct (request_queue.kobj_parent_name (blkcg_gq.q blkg)) as [n|];
    [|apply IH].
  destruct (String.eqb_spec devname n) as [->|_]; [|apply IH].
  now contradiction Hname.
Qed.

(** The root lookup finds a controller exactly when the first queue whose
    disk name reads as [devname] has iocost data attached; the queue's id
    and that data are what it returns.  Later queues of the same name are
    not looked at. *)
Theorem locate_roots_first_match :
  forall devname plid entries q_id root_iocg,
    locate_roots devname plid entries = Found q_id root_iocg
    <-> exists before i blkg after,
          entries = (before ++ (i, blkg) :: after)%list
          /\ Forall
               (fun entry =>
                  request_queue.kobj_parent_name (blkcg_gq.q (snd entry))
                  <> Some devname)
               before
          /\ request_queue.kobj_parent_name (blkcg_gq.q blkg) = Some devname
          /\ request_queue.id (blkcg_gq.q blkg) = q_id
          /\ blkcg_gq.pd_at blkg plid = Some root_iocg.
Proof.
  intros devname plid entries q_id root_iocg. split.
  - intros H.
    destruct (locate_roots_found _ _ _ _ _ H)
      as (before & i & blkg & after & E & Hn & Hq & Hpd & Hb).
    exists before, i, blkg, after. auto.
  - intros (before & i & blkg & after & -> & Hb & Hn & <- & Hpd).
    rewrite (locate_roots_skips _ _ _ Hb). cbn [locate_roots].
    now rewrite Hn, String.eqb_refl, Hpd.
Qed.

(** *** Table output, line by line *)

Lemma uint_string_plain d :
  string_forall (is_not "010") (DecimalString.NilEmpty.string_of_uint d) = true.
Proof. induction d; simpl; auto. Qed.

Lemma str_int_plain n : string_forall (is_not "010") (str_int n) = true.
Proof.
  unfold str_int. destruct (Z.to_int n) as [d|d]; simpl;
    destruct d; try reflexivity; apply uint_string_plain.
Qed.

Lemma substring_forall test s :
  string_forall test s = true ->
  forall n m, string_forall test (substring n m s) = true.
Proof.
  induction s as [|c s IH]; intros H n m.
  - now destruct n, m.
  - cbn [string_forall] in H. apply andb_true_iff in H as [Hc Hs].
    destruct n as [|n], m as [|m]; cbn [substring string_forall]; auto.
    now rewrite Hc, IH.
Qed.

Lemma rjust_plain w s :
  string_forall (is_not "010") s = true ->
  string_forall (is_not "010") (rjust w s) = true.
Proof.
  intros H. unfold rjust.
  now rewrite string_forall_app, string_forall_repeat, H.
Qed.

Lemma ljust_plain w s :
  string_forall (is_not "010") s = true ->
  string_forall (is_not "010") (ljust w s) = true.
Proof.
  intros H. unfold ljust.
  now rewrite string_forall_app, string_forall_repeat, H.
Qed.

Lemma zfill_plain w sign digits :
  string_forall (is_not "010") sign = true ->
  string_forall (is_not "010") digits = true ->
  string_forall (is_not "010") (zfill w sign digits) = true.
Proof.
  intros Hs Hd. unfold zfill.
  now rewrite !string_forall_app, string_forall_repeat, Hs, Hd.
Qed.

Lemma format_int_plain w n : string_forall (is_not "010") (format_int w n) = true.
Proof. apply rjust_plain, str_int_plain. Qed.

Lemma format_int_plus_plain w n :
  string_forall (is_not "010") (format_int_plus w n) = true.
Proof.
  apply rjust_plain. rewrite string_forall_app, str_int_plain.
  now destruct (n <? 0).
Qed.

Lemma format_int_zero_plain w n :
  string_forall (is_not "010") (format_int_zero w n) = true.
Proof.
  apply zfill_plain; [now destruct (n <? 0)|apply str_int_plain].
Qed.

Lemma format_fixed_plain w p v :
  string_forall (is_not "010") (format_fixed w p v) = true.
Proof.
  apply rjust_plain. unfold fixed_digits.
  rewrite !string_forall_app, str_int_plain.
  assert (Hfrac : forall n r,
             string_forall (is_not "010")
               ("." +++ zfill (S n) "" (str_int r)) = true).
  { intros n r. rewrite string_forall_app, zfill_plain; [reflexivity| |];
      (reflexivity || apply str_int_plain). }
  destruct (PyFloat.neg (float_of_num v)), p; rewrite ?Hfrac; reflexivity.
Qed.

Lemma str_float_plain x : string_forall (is_not "010") (str_float x) = true.
Proof.
  unfold str_float. rewrite string_forall_app.
  assert (Hm : forall q, string_forall (is_not "010") (repr_magnitude q) = true).
  { intros q. unfold repr_magnitude.
    destruct (shortest_digits 16 q (ilog10 q) 1) as [d n].
    set (ds := str_int (strip_zeros 18 d)).
    assert (Hds : string_forall (is_not "010") ds = true) by apply str_int_plain.
    repeat match goal with
           | |- context [if ?b then _ else _] => destruct b
           end;
      rewrite ?string_forall_app, ?substring_forall, ?string_forall_repeat,
        ?Hds by (reflexivity || exact Hds);
      try reflexivity.
    all: unfold exponent_str; rewrite ?string_forall_app;
      rewrite zfill_plain by (reflexivity || apply str_int_plain);
      repeat match goal with
             | |- context [if ?b then _ else _] => destruct b
             end; reflexivity. }
  destruct (PyFloat.neg x), (Qeq_bool (PyFloat.mag x) 0);
    cbn [string_forall andb]; try reflexivity; apply Hm.
Qed.

Lemma concat_forall test sep parts :
  string_forall test sep = true ->
  Forall (fun part => string_forall test part = true) parts ->
  string_forall test (String.concat sep parts) = true.
Proof.
  intros Hsep. induction 1 as [|part parts Hp Hall IH]; [reflexivity|].
  cbn [String.concat]. destruct parts as [|part' parts]; [exact Hp|].
  now rewrite !string_forall_app, Hp, Hsep, IH.
Qed.

Lemma plain_without_newline s :
  string_forall (is_not "010") s = true -> count_char "010" s = O.
Proof.
  induction s as [|c s IH]; [reflexivity|]. cbn [string_forall count_char].
  intros [Hc Hs]%andb_true_iff. rewrite (IH Hs).
  unfold is_not in Hc. apply negb_true_iff in Hc. now rewrite Hc.
Qed.

Lemma row_plain st path :
  string_forall (is_not "010") path = true ->
  string_forall (is_not "010") (IocgStat.table_row_str st path) = true.
Proof.
  intros Hpath. rewrite table_row_str_row. unfold Spec.row.
  apply concat_forall; [reflexivity|].
  repeat constructor;
    rewrite ?string_forall_app, ?format_int_plain, ?format_fixed_plain,
      ?format_int_zero_plain;
    try reflexivity.
  - apply ljust_plain. unfold last_chars. now apply substring_forall.
  - now destruct (Spec.is_active (Spec.node_of st) =? 0).
  - apply concat_forall; [reflexivity|].
    apply Forall_forall. intros part (u & <- & _)%in_map_iff.
    apply format_int_zero_plain.
Qed.

Lemma profile_plain prog idx :
  string_forall (is_not "010")
    match dict_get (autop_names prog) idx with
    | Some n => n
    | None => "?"
    end = true.
Proof.
  unfold dict_get, autop_names. cbn [rev app find fst snd option_map].
  repeat match goal with
         | |- context [if ?b then _ else _] => destruct b
         end; reflexivity.
Qed.

Lemma preamble_plain devname c :
  string_forall (is_not "010") devname = true ->
  string_forall (is_not "010") (IocStat.autop_name c) = true ->
  string_forall (is_not "010") (IocStat.table_preamble_str devname c) = true.
Proof.
  intros Hdev Hname. rewrite table_preamble_str_preamble. unfold Spec.preamble.
  apply concat_forall; [reflexivity|].
  repeat constructor;
    rewrite ?string_forall_app, ?format_int_plus_plain, ?format_fixed_plain,
      ?str_float_plain, ?Hname;
    try reflexivity; try assumption.
  - apply ljust_plain. unfold Spec.state_label.
    repeat match goal with
           | |- context [if ?b then _ else _] => destruct b
           end; reflexivity.
  - unfold Spec.override_marker.
    destruct (nonzero (IocStat.user_cost_model c)),
      (nonzero (IocStat.user_qos_params c)); reflexivity.
Qed.

(** In table mode a tick is line-delimited as long as the device name and
    the paths of the walk hold no line break: its text has the blank
    line's break, the header's, and one per pair that appears. *)
Theorem table_tick_lines :
  forall re prog plid args filter q_id snap,
    json args = false ->
    string_forall (is_not "010") (devname args) = true ->
    (forall path blkg,
        In (path, blkg)
           (BlkgIterator.init prog (blkcg_root_now snap) q_id false) ->
        string_forall (is_not "010") path = true) ->
    scales_nonzero prog = true ->
    snapshot_in_range prog plid q_id snap ->
    exists text,
      tick re prog plid args filter q_id snap = Ok text
      /\ count_char "010" text
         = (2 + List.length
                  (List.filter (appears re prog plid args filter (now snap))
                     (BlkgIterator.init prog (blkcg_root_now snap) q_id false)))%nat.
Proof.
  intros re prog plid args filter q_id snap Hjson Hdev Hpaths Hs Hsnap.
  eexists. split; [now apply tick_in_range|].
  unfold tick_text, tick_header, table_fmt. rewrite Hjson. cbn [negb].
  destruct Hsnap as [Hc _].
  rewrite (IocStat_init_ok prog (ioc_now snap) Hs Hc).
  rewrite !count_char_app.
  rewrite (plain_without_newline (IocStat.table_preamble_str _ _))
    by (apply preamble_plain; [exact Hdev|apply profile_plain]).
  rewrite (plain_without_newline IocStat.table_header_str) by reflexivity.
  rewrite count_char_lines, length_map; [reflexivity|].
  apply Forall_forall. intros text (entry & <- & Hin)%in_map_iff.
  apply filter_In in Hin as [Hin _]. destruct entry as [path blkg].
  unfold nl. cbn [String.append count_char Ascii.eqb Bool.eqb].
  unfold line, table_fmt. rewrite Hjson. cbn [negb fst snd].
  destruct (blkcg_gq.pd_at blkg plid) as [iocg|]; [|reflexivity].
  destruct (IocgStat.init prog iocg); [|reflexivity].
  rewrite plain_without_newline; [reflexivity|].
  apply row_plain. now apply (Hpaths path blkg).
Qed.

Lemma table_tick_lines_witness :
  exists text,
    tick Re.engine Sample.prog Sample.plid Sample.table_args None 7
         Sample.live_snapshot = Ok text
    /\ count_char "010" text = 4%nat.
Proof.
  apply (table_tick_lines Re.engine Sample.prog Sample.plid
           Sample.table_args None 7 Sample.live_snapshot);
    try reflexivity.
  - intros path blkg [E|[E|[E|[]]]]; injection E as <- _; reflexivity.
  - split; [reflexivity|].
    intros path blkg iocg [E|[E|[E|[]]]]; injection E as <- <-;
      intros [= <-]; reflexivity.
Defined.

(** ** The table and the structured output of one object *)


(** *** The binary64 grid *)

Lemma pow2_pos e : (0 < PyFloat.pow2 e)%Q.
Proof. apply Qpower_0_lt. reflexivity. Qed.

Lemma pow10_pos e : (0 < PyFloat.pow10 e)%Q.
Proof. apply Qpower_0_lt. reflexivity. Qed.

Lemma pow2_add a b : (PyFloat.pow2 (a + b) == PyFloat.pow2 a * PyFloat.pow2 b)%Q.
Proof. apply Qpower_plus. discriminate. Qed.

Lemma pow10_add a b : (PyFloat.pow10 (a + b) == PyFloat.pow10 a * PyFloat.pow10 b)%Q.
Proof. apply Qpower_plus. discriminate. Qed.

Lemma pow2_nat k : 0 <= k -> (PyFloat.pow2 k == inject_Z (2 ^ k))%Q.
Proof. intros Hk. unfold PyFloat.pow2. now rewrite Zpower_Qpower. Qed.

Lemma pow10_nat k : 0 <= k -> (PyFloat.pow10 k == inject_Z (10 ^ k))%Q.
Proof. intros Hk. unfold PyFloat.pow10. now rewrite Zpower_Qpower. Qed.

Lemma pow2_succ e : (PyFloat.pow2 (e + 1) == 2 * PyFloat.pow2 e)%Q.
Proof. rewrite pow2_add. change (PyFloat.pow2 1) with 2%Q. ring. Qed.

Lemma pow2_le a b : a <= b -> (PyFloat.pow2 a <= PyFloat.pow2 b)%Q.
Proof. intros H. apply Qpower_le_compat_l; [exact H|]. discriminate. Qed.

Lemma pow2_lt a b : a < b -> (PyFloat.pow2 a < PyFloat.pow2 b)%Q.
Proof. intros H. apply Qpower_lt_compat_l; [exact H|]. reflexivity. Qed.

Lemma pow2_lt_inv a b : (PyFloat.pow2 a < PyFloat.pow2 b)%Q -> a < b.
Proof. intros H. apply (Qpower_lt_compat_l_inv 2); [exact H|reflexivity]. Qed.

(** [ilog2 x] is the exponent of the binade of [x]. *)
Lemma ilog2_spec x :
  (0 < x)%Q ->
  (PyFloat.pow2 (PyFloat.ilog2 x) <= x)%Q
  /\ (x < PyFloat.pow2 (PyFloat.ilog2 x + 1))%Q.
Proof.
  intros Hx. destruct x as [n d].
  assert (Hn : 0 < n).
  { unfold Qlt in Hx. cbn in Hx. lia. }
  unfold PyFloat.ilog2. cbn [Qnum Qden].
  set (a := Z.log2 n). set (b := Z.log2 (Z.pos d)).
  assert (Ha : 2 ^ a <= n < 2 ^ (a + 1)).
  { unfold a. rewrite Z.add_1_r. now apply Z.log2_spec. }
  assert (Hb : 2 ^ b <= Z.pos d < 2 ^ (b + 1)).
  { unfold b. rewrite Z.add_1_r. now apply Z.log2_spec. }
  assert (Ha0 : 0 <= a) by apply Z.log2_nonneg.
  assert (Hb0 : 0 <= b) by apply Z.log2_nonneg.
  assert (Hpa : 0 < 2 ^ a) by (apply Z.pow_pos_nonneg; lia).
  assert (Hpb : 0 < 2 ^ b) by (apply Z.pow_pos_nonneg; lia).
  assert (Hq : forall k, (PyFloat.pow2 (a - b + k) ==
                          inject_Z (2 ^ a) * PyFloat.pow2 k / inject_Z (2 ^ b))%Q).
  { intros k. replace (a - b + k) with (a + k - b) by lia.
    unfold PyFloat.pow2. rewrite Qpower_minus by discriminate.
    rewrite Qpower_plus by discriminate.
    rewrite (Zpower_Qpower 2 a), (Zpower_Qpower 2 b) by lia. reflexivity. }
  assert (Hbq : (0 < inject_Z (2 ^ b))%Q).
  { change 0%Q with (inject_Z 0). now rewrite <- Zlt_Qlt. }
  assert (Hup : (n # d < PyFloat.pow2 (a - b + 1))%Q).
  { rewrite Hq. change (PyFloat.pow2 1) with 2%Q.
    apply Qlt_shift_div_l; [exact Hbq|].
    unfold Qlt, Qmult, inject_Z. cbn [Qnum Qden].
    rewrite Z.pow_add_r in Ha by lia. change (2 ^ 1) with 2 in Ha.
    rewrite Pos2Z.inj_mul. nia. }
  assert (Hlo : (PyFloat.pow2 (a - b - 1) <= n # d)%Q).
  { replace (a - b - 1) with (a - b + -1) by lia. rewrite Hq.
    change (PyFloat.pow2 (-1)) with (1 # 2)%Q.
    apply Qle_shift_div_r; [exact Hbq|].
    unfold Qle, Qmult, inject_Z. cbn [Qnum Qden].
    rewrite Z.pow_add_r in Hb by lia. change (2 ^ 1) with 2 in Hb.
    nia. }
  destruct (Qle_bool (PyFloat.pow2 (a - b)) (n # d)) eqn:B.
  - apply Qle_bool_iff in B. now split.
  - split; [exact Hlo|]. replace (a - b - 1 + 1) with (a - b) by lia.
    apply Qnot_le_lt. intros H%Qle_bool_iff. congruence.
Qed.

Lemma ilog2_unique x l :
  (PyFloat.pow2 l <= x)%Q -> (x < PyFloat.pow2 (l + 1))%Q -> PyFloat.ilog2 x = l.
Proof.
  intros Hlo Hup.
  assert (Hx : (0 < x)%Q) by (pose proof (pow2_pos l); lra).
  destruct (ilog2_spec x Hx) as [Hlo' Hup'].
  assert (PyFloat.ilog2 x < l + 1).
  { apply pow2_lt_inv. lra. }
  assert (l < PyFloat.ilog2 x + 1).
  { apply pow2_lt_inv. lra. }
  lia.
Qed.

Lemma ilog2_Qeq x y : (0 < x)%Q -> (x == y)%Q -> PyFloat.ilog2 x = PyFloat.ilog2 y.
Proof.
  intros Hx E. destruct (ilog2_spec x Hx) as [Hlo Hup].
  symmetry. apply ilog2_unique; rewrite <- E; assumption.
Qed.

(** A value within half a unit of an integer rounds to it. *)
Lemma round_half_even_near N y :
  (inject_Z N - (1 # 2) < y)%Q -> (y < inject_Z N + (1 # 2))%Q ->
  PyFloat.round_half_even y = N.
Proof.
  intros Hlo Hup. unfold PyFloat.round_half_even.
  pose proof (Qfloor_le y) as Hf. pose proof (Qlt_floor y) as Hf'.
  rewrite inject_Z_plus in Hf'. change (inject_Z 1) with 1%Q in Hf'.
  assert (Hcase : Qfloor y = N \/ Qfloor y = N - 1).
  { assert (inject_Z (Qfloor y) < inject_Z (N + 1))%Q.
    { rewrite inject_Z_plus. change (inject_Z 1) with 1%Q. lra. }
    assert (inject_Z (N - 2) < inject_Z (Qfloor y))%Q.
    { unfold Z.sub. rewrite inject_Z_plus. change (inject_Z (- (2))) with (-2)%Q. lra. }
    rewrite <- Zlt_Qlt in *. lia. }
  destruct Hcase as [E|E]; rewrite E in *.
  - destruct (Qcompare_spec (y - inject_Z N) (1 # 2)) as [H|H|H]; [lra|reflexivity|lra].
  - unfold Z.sub in *. rewrite inject_Z_plus in *.
    change (inject_Z (- (1))) with (-1)%Q in *.
    destruct (Qcompare_spec (y - (inject_Z N + -1)) (1 # 2)) as [H|H|H]; [lra|lra|lia].
Qed.

Lemma round_half_even_int N : PyFloat.round_half_even (inject_Z N) = N.
Proof. apply round_half_even_near; lra. Qed.

Lemma round_half_even_bounds y :
  PyFloat.round_half_even y = Qfloor y \/ PyFloat.round_half_even y = Qfloor y + 1.
Proof.
  unfold PyFloat.round_half_even.
  destruct (Qcompare _ _); [destruct (Z.even _)| |]; auto.
Qed.

Lemma round_half_even_close y :
  (Qabs (inject_Z (PyFloat.round_half_even y) - y) <= 1 # 2)%Q.
Proof.
  unfold PyFloat.round_half_even.
  pose proof (Qfloor_le y) as Hf. pose proof (Qlt_floor y) as Hf'.
  rewrite inject_Z_plus in Hf'. change (inject_Z 1) with 1%Q in Hf'.
  apply Qabs_Qle_condition.
  destruct (Qcompare_spec (y - inject_Z (Qfloor y)) (1 # 2)) as [H|H|H].
  - destruct (Z.even (Qfloor y)).
    + lra.
    + rewrite inject_Z_plus. change (inject_Z 1) with 1%Q. lra.
  - lra.
  - rewrite inject_Z_plus. change (inject_Z 1) with 1%Q. lra.
Qed.

(** The rounding, once the zero case is set apart. *)
Lemma round_pos x :
  (0 < x)%Q ->
  let e := Z.max (PyFloat.ilog2 x - 52) (-1074) in
  (PyFloat.round x
   == inject_Z (PyFloat.round_half_even (x / PyFloat.pow2 e)) * PyFloat.pow2 e)%Q.
Proof.
  intros Hx e. unfold PyFloat.round.
  pose proof (Qred_correct x) as Hred.
  destruct (Qle_bool (Qred x) 0) eqn:B.
  - apply Qle_bool_iff in B. lra.
  - rewrite Qred_correct.
    assert (El : PyFloat.ilog2 (Qred x) = PyFloat.ilog2 x).
    { apply ilog2_Qeq; lra. }
    rewrite El. fold e.
    assert (Ef : (Qred x / PyFloat.pow2 e == x / PyFloat.pow2 e)%Q) by now rewrite Hred.
    unfold PyFloat.round_half_even.
    rewrite (Qfloor_comp _ _ Ef).
    assert (Ec : (Qred x / PyFloat.pow2 e - inject_Z (Qfloor (x / PyFloat.pow2 e))
                  ?= 1 # 2)%Q
                 = (x / PyFloat.pow2 e - inject_Z (Qfloor (x / PyFloat.pow2 e))
                    ?= 1 # 2)%Q).
    { now rewrite Ef. }
    rewrite Ec. reflexivity.
Qed.



Lemma ilog2_lt x k : (0 < x)%Q -> (x < PyFloat.pow2 k)%Q -> PyFloat.ilog2 x < k.
Proof.
  intros Hx H. destruct (ilog2_spec x Hx) as [Hlo _].
  apply pow2_lt_inv. lra.
Qed.

Lemma ilog2_ge x k : (PyFloat.pow2 k <= x)%Q -> k <= PyFloat.ilog2 x.
Proof.
  intros H. assert (Hx : (0 < x)%Q) by (pose proof (pow2_pos k); lra).
  destruct (ilog2_spec x Hx) as [_ Hup].
  assert (k < PyFloat.ilog2 x + 1) by (apply pow2_lt_inv; lra). lia.
Qed.



(** A rational close enough to a value of the grid rounds to it. *)
Lemma round_near M E q :
  1 <= M < 2 ^ 53 -> -1074 <= E -> 2 ^ 52 <= M \/ E = -1074 ->
  (Qabs (q - inject_Z M * PyFloat.pow2 E)
   <= inject_Z M * PyFloat.pow2 E * seventeen)%Q ->
  (PyFloat.round q == inject_Z M * PyFloat.pow2 E)%Q.
Proof.
  intros HM HE Hnorm Hq.
  pose proof (pow2_pos E) as HP. set (P := PyFloat.pow2 E) in *.
  set (t := (q / P)%Q).
  assert (Eq : (q == t * P)%Q).
  { unfold t. field. lra. }
  assert (HMq : (1 <= inject_Z M)%Q /\ (inject_Z M <= 9007199254740991)%Q).
  { change 1%Q with (inject_Z 1).
    change 9007199254740991%Q with (inject_Z (2 ^ 53 - 1)).
    rewrite <- !Zle_Qle. lia. }
  apply Qabs_Qle_condition in Hq. unfold seventeen in Hq.
  assert (Ht : (- (inject_Z M * (1 # 20000000000000000)) <= t - inject_Z M)%Q
               /\ (t - inject_Z M <= inject_Z M * (1 # 20000000000000000))%Q).
  { assert (Hd : ((t - inject_Z M) * P == q - inject_Z M * P)%Q).
    { rewrite Eq. ring. }
    assert (H1 : (- (inject_Z M * (1 # 20000000000000000)) * P
                  <= (t - inject_Z M) * P)%Q) by (rewrite Hd; lra).
    assert (H2 : ((t - inject_Z M) * P
                  <= inject_Z M * (1 # 20000000000000000) * P)%Q) by (rewrite Hd; lra).
    apply Qmult_le_r in H1; [|exact HP]. apply Qmult_le_r in H2; [|exact HP].
    split; assumption. }
  assert (Hqpos : (0 < q)%Q).
  { rewrite Eq. apply Qmult_lt_0_compat; lra. }
  rewrite (round_pos q Hqpos). cbv zeta.
  set (l := PyFloat.ilog2 q).
  assert (Hup : l - 52 <= E).
  { assert (l < E + 53); [|lia].
    apply ilog2_lt; [exact Hqpos|].
    rewrite Z.add_comm, pow2_add. fold P. rewrite Eq.
    apply Qmult_lt_r; [exact HP|].
    change (PyFloat.pow2 53) with 9007199254740992%Q. lra. }
  assert (Hcases : Z.max (l - 52) (-1074) = E
                   \/ (Z.max (l - 52) (-1074) = E - 1 /\ l = E + 51 /\ M = 2 ^ 52)).
  { destruct (Z.eq_dec E (-1074)) as [E0|NE]; [left; lia|].
    destruct Hnorm as [Hn|]; [|lia].
    assert (HMn : (4503599627370496 <= inject_Z M)%Q).
    { change 4503599627370496%Q with (inject_Z (2 ^ 52)). now rewrite <- Zle_Qle. }
    assert (Hlo : E + 51 <= l).
    { apply ilog2_ge. rewrite Z.add_comm, pow2_add. fold P. rewrite Eq.
      apply Qmult_le_r; [exact HP|].
      change (PyFloat.pow2 51) with 2251799813685248%Q. lra. }
    destruct (Z.eq_dec l (E + 51)) as [El|Nl]; [right|left; lia].
    split; [lia|]. split; [exact El|].
    destruct (ilog2_spec q Hqpos) as [_ Hlt]. fold l in Hlt.
    rewrite El in Hlt. replace (E + 51 + 1) with (52 + E) in Hlt by lia.
    rewrite pow2_add in Hlt. fold P in Hlt. rewrite Eq in Hlt.
    apply Qmult_lt_r in Hlt; [|exact HP].
    change (PyFloat.pow2 52) with 4503599627370496%Q in Hlt.
    assert (inject_Z M < inject_Z (2 ^ 52 + 1))%Q.
    { change (inject_Z (2 ^ 52 + 1)) with 4503599627370497%Q. lra. }
    rewrite <- Zlt_Qlt in *. lia. }
  destruct Hcases as [-> | (-> & Hl & ->)].
  - fold P. fold t. rewrite (round_half_even_near M); [reflexivity| |]; lra.
  - assert (EP : (PyFloat.pow2 (E - 1) == P * (1 # 2))%Q).
    { unfold Z.sub. rewrite pow2_add. reflexivity. }
    assert (Et : (q / PyFloat.pow2 (E - 1) == 2 * t)%Q).
    { rewrite EP. unfold t. field. lra. }
    change (inject_Z (2 ^ 52)) with 4503599627370496%Q in *.
    rewrite (round_half_even_near (2 ^ 53)).
    + rewrite EP. change (inject_Z (2 ^ 53)) with 9007199254740992%Q. ring.
    + rewrite Et. change (inject_Z (2 ^ 53)) with 9007199254740992%Q. lra.
    + rewrite Et. change (inject_Z (2 ^ 53)) with 9007199254740992%Q.
      (* here q < x, so 2t < 2^53 *)
      destruct (ilog2_spec q Hqpos) as [_ Hlt]. fold l in Hlt.
      rewrite Hl in Hlt. replace (E + 51 + 1) with (52 + E) in Hlt by lia.
      rewrite pow2_add in Hlt. fold P in Hlt. rewrite Eq in Hlt.
      apply Qmult_lt_r in Hlt; [|exact HP].
      change (PyFloat.pow2 52) with 4503599627370496%Q in Hlt. lra.
Qed.



Lemma round_half_even_below N y :
  (y < inject_Z N + (1 # 2))%Q -> PyFloat.round_half_even y <= N.
Proof.
  intros Hy. unfold PyFloat.round_half_even.
  pose proof (Qfloor_le y) as Hf.
  assert (Hfl : Qfloor y <= N).
  { assert (inject_Z (Qfloor y) < inject_Z (N + 1))%Q.
    { rewrite inject_Z_plus. change (inject_Z 1) with 1%Q. lra. }
    rewrite <- Zlt_Qlt in *. lia. }
  destruct (Z.eq_dec (Qfloor y) N) as [E|NE].
  - rewrite E. destruct (Qcompare_spec (y - inject_Z N) (1 # 2)) as [H|H|H];
      [lra|lia|lra].
  - destruct (Qcompare _ _); [destruct (Z.even _)| |]; lia.
Qed.

Lemma round_half_even_ge N y :
  (inject_Z N <= y)%Q -> N <= PyFloat.round_half_even y.
Proof.
  intros Hy.
  assert (N <= Qfloor y).
  { rewrite <- (Qfloor_Z N). now apply Qfloor_resp_le. }
  destruct (round_half_even_bounds y); lia.
Qed.

(** Every non-zero value of [round] is on the grid: a significand below
    [2^53] at an exponent no lower than [-1074], normalised unless the
    exponent is the lowest one. *)
Lemma round_form z :
  (0 < PyFloat.round z)%Q ->
  exists M E,
    1 <= M < 2 ^ 53 /\ -1074 <= E /\ (2 ^ 52 <= M \/ E = -1074)
    /\ (PyFloat.round z == inject_Z M * PyFloat.pow2 E)%Q.
Proof.
  intros Hr.
  assert (Hz : (0 < z)%Q).
  { apply Qnot_le_lt. intros Hle. unfold PyFloat.round in Hr.
    pose proof (Qred_correct z) as Hred.
    destruct (Qle_bool (Qred z) 0) eqn:B; [lra|].
    assert (~ (Qred z <= 0)%Q) by (intros H%Qle_bool_iff; congruence). lra. }
  pose proof (round_pos z Hz) as Er. cbv zeta in Er. rewrite Er in Hr.
  set (l := PyFloat.ilog2 z) in *.
  set (e := Z.max (l - 52) (-1074)) in *.
  pose proof (pow2_pos e) as HP. set (P := PyFloat.pow2 e) in *.
  set (t := (z / P)%Q) in *.
  assert (Ez : (z == t * P)%Q) by (unfold t; field; lra).
  destruct (ilog2_spec z Hz) as [Hlo Hup]. fold l in Hlo, Hup.
  set (m := PyFloat.round_half_even t) in *.
  assert (Hm1 : 1 <= m).
  { assert (0 < m); [|lia]. rewrite Zlt_Qlt.
    change (inject_Z 0) with 0%Q.
    apply Qnot_le_lt. intros Hle.
    assert (inject_Z m * P <= 0 * P)%Q by (apply Qmult_le_compat_r; lra). lra. }
  assert (Hm2 : m <= 2 ^ 53).
  { apply round_half_even_below.
    assert (t * P < 9007199254740992 * P)%Q.
    { rewrite <- Ez.
      apply Qlt_le_trans with (PyFloat.pow2 (l + 1)); [exact Hup|].
      change 9007199254740992%Q with (PyFloat.pow2 53).
      unfold P. rewrite <- pow2_add. apply pow2_le. lia. }
    apply Qmult_lt_r in H; [|exact HP].
    change (inject_Z (2 ^ 53)) with 9007199254740992%Q. lra. }
  assert (Hm3 : -1074 < e -> 2 ^ 52 <= m).
  { intros He. apply round_half_even_ge.
    assert (4503599627370496 * P <= t * P)%Q.
    { rewrite <- Ez.
      apply Qle_trans with (PyFloat.pow2 l); [|exact Hlo].
      change 4503599627370496%Q with (PyFloat.pow2 52).
      unfold P. rewrite <- pow2_add. apply pow2_le. lia. }
    apply Qmult_le_r in H; [|exact HP].
    change (inject_Z (2 ^ 52)) with 4503599627370496%Q. lra. }
  destruct (Z.eq_dec m (2 ^ 53)) as [Em|Nm].
  - exists (2 ^ 52), (e + 1). repeat split; try lia.
    rewrite Er, Em. rewrite pow2_succ. fold P.
    change (inject_Z (2 ^ 53)) with 9007199254740992%Q.
    change (inject_Z (2 ^ 52)) with 4503599627370496%Q. ring.
  - exists m, e. repeat split; try lia. exact Er.
Qed.

Lemma round_canonical z : Qred (PyFloat.round z) = PyFloat.round z.
Proof.
  unfold PyFloat.round.
  destruct (Qle_bool (Qred z) 0); [reflexivity|]. apply Qred_complete, Qred_correct.
Qed.

(** Two values of [round] that denote the same rational are the same
    fraction. *)
Lemma round_eq a b :
  (PyFloat.round a == PyFloat.round b)%Q -> PyFloat.round a = PyFloat.round b.
Proof.
  intros E. rewrite <- (round_canonical a), <- (round_canonical b).
  now apply Qred_complete.
Qed.

Lemma round_zero z : (z <= 0)%Q -> PyFloat.round z = 0%Q.
Proof.
  intros Hz. unfold PyFloat.round.
  destruct (Qle_bool (Qred z) 0) eqn:B; [reflexivity|].
  pose proof (Qred_correct z).
  assert (~ (Qred z <= 0)%Q) by (intros H'%Qle_bool_iff; congruence).
  exfalso. lra.
Qed.

Lemma round_on_grid M E :
  1 <= M < 2 ^ 53 -> -1074 <= E -> 2 ^ 52 <= M \/ E = -1074 ->
  (PyFloat.round (inject_Z M * PyFloat.pow2 E) == inject_Z M * PyFloat.pow2 E)%Q.
Proof.
  intros HM HE Hn. apply round_near; try assumption.
  setoid_replace (inject_Z M * PyFloat.pow2 E - inject_Z M * PyFloat.pow2 E)%Q
    with 0%Q by ring.
  cbn [Qabs]. change (Qabs 0) with 0%Q.
  pose proof (pow2_pos E).
  assert (1 <= inject_Z M)%Q.
  { change 1%Q with (inject_Z 1). rewrite <- Zle_Qle. lia. }
  unfold seventeen.
  apply Qmult_le_0_compat; [|discriminate].
  apply Qmult_le_0_compat; lra.
Qed.

(** Rounding is idempotent. *)
Lemma round_idempotent z : PyFloat.round (PyFloat.round z) = PyFloat.round z.
Proof.
  destruct (Qlt_le_dec 0 (PyFloat.round z)) as [Hpos|Hle].
  - destruct (round_form z Hpos) as (M & E & HM & HE & Hn & Ez).
    apply round_eq. rewrite (round_Qeq _ _ Ez), Ez.
    now apply round_on_grid.
  - rewrite (round_zero _ Hle). pose proof (round_nonneg z).
    rewrite <- (round_canonical z). symmetry.
    apply (Qred_complete _ 0). lra.
Qed.

(** Below the overflow threshold, rounding stays below [2^1024]. *)
Lemma round_below_threshold z :
  (z < inject_Z PyFloat.overflow_threshold)%Q ->
  (PyFloat.round z < PyFloat.pow2 1024)%Q.
Proof.
  intros Hz.
  destruct (Qlt_le_dec 0 z) as [Hpos|Hle];
    [|rewrite (round_zero _ Hle); apply pow2_pos].
  rewrite (round_pos z Hpos). cbv zeta.
  set (l := PyFloat.ilog2 z).
  set (e := Z.max (l - 52) (-1074)).
  pose proof (pow2_pos e) as HP. set (P := PyFloat.pow2 e) in *.
  set (t := (z / P)%Q).
  assert (Ez : (z == t * P)%Q) by (unfold t; field; lra).
  destruct (ilog2_spec z Hpos) as [Hlo Hup]. fold l in Hlo, Hup.
  assert (Hl : l < 1024).
  { apply ilog2_lt; [exact Hpos|].
    apply Qlt_trans with (inject_Z PyFloat.overflow_threshold); [exact Hz|].
    rewrite pow2_nat by lia. rewrite <- Zlt_Qlt. reflexivity. }
  assert (Hm : PyFloat.round_half_even t <= 2 ^ 53).
  { apply round_half_even_below.
    assert (t * P < 9007199254740992 * P)%Q.
    { rewrite <- Ez.
      apply Qlt_le_trans with (PyFloat.pow2 (l + 1)); [exact Hup|].
      change 9007199254740992%Q with (PyFloat.pow2 53).
      unfold P. rewrite <- pow2_add. apply pow2_le. lia. }
    apply Qmult_lt_r in H; [|exact HP].
    change (inject_Z (2 ^ 53)) with 9007199254740992%Q. lra. }
  destruct (Z.eq_dec e 971) as [Ee|Ne].
  - assert (Hm' : PyFloat.round_half_even t <= 2 ^ 53 - 1).
    { apply round_half_even_below.
      assert (Ht : (t * P < (9007199254740992 - (1 # 2)) * P)%Q).
      { rewrite <- Ez. apply Qlt_le_trans with (1 := Hz).
        unfold P. rewrite Ee. rewrite pow2_nat by lia.
        change (9007199254740992 - (1 # 2))%Q with ((2 * 9007199254740992 - 1) # 2)%Q.
        unfold Qle, Qmult, inject_Z. cbn [Qnum Qden].
        vm_compute. discriminate. }
      apply Qmult_lt_r in Ht; [|exact HP].
      change (inject_Z (2 ^ 53 - 1)) with 9007199254740991%Q. lra. }
    apply Qle_lt_trans with (inject_Z (2 ^ 53 - 1) * P)%Q.
    + apply Qmult_le_compat_r; [|lra]. now rewrite <- Zle_Qle.
    + unfold P. rewrite Ee. rewrite !pow2_nat by lia.
      rewrite <- inject_Z_mult, <- Zlt_Qlt. reflexivity.
  - assert (He : e <= 970) by lia.
    apply Qle_lt_trans with (inject_Z (2 ^ 53) * P)%Q.
    + apply Qmult_le_compat_r; [|lra]. now rewrite <- Zle_Qle.
    + change (inject_Z (2 ^ 53)) with (PyFloat.pow2 53).
      unfold P. rewrite <- pow2_add. apply pow2_lt. lia.
Qed.

(** The decimal of seventeen significant digits nearest a value of the grid
    rounds back to it. *)
Lemma seventeen_digits z k :
  (0 < PyFloat.round z)%Q ->
  (PyFloat.pow10 k <= PyFloat.round z)%Q ->
  let x := PyFloat.round z in
  let u := PyFloat.pow10 (k - 16) in
  (PyFloat.round (inject_Z (PyFloat.round_half_even (x / u)) * u) == x)%Q.
Proof.
  intros Hpos Hk x u.
  destruct (round_form z Hpos) as (M & E & HM & HE & Hn & Ex).
  fold x in Ex, Hpos, Hk.
  rewrite Ex at 2. apply round_near; try assumption.
  rewrite <- Ex.
  pose proof (pow10_pos (k - 16)) as Hu. fold u in Hu.
  pose proof (round_half_even_close (x / u)) as Hc.
  set (d := PyFloat.round_half_even (x / u)) in *.
  assert (Ed : (inject_Z d * u - x == (inject_Z d - x / u) * u)%Q).
  { field. lra. }
  rewrite Ed, Qabs_Qmult, (Qabs_pos u) by lra.
  apply Qle_trans with ((1 # 2) * u)%Q.
  - apply Qmult_le_compat_r; lra.
  - assert (Eu : (u == PyFloat.pow10 k * (1 # 10000000000000000))%Q).
    { unfold u, Z.sub. rewrite pow10_add. reflexivity. }
    rewrite Eu. unfold seventeen.
    setoid_replace (x * (1 # 20000000000000000))%Q
      with ((1 # 2) * (x * (1 # 10000000000000000)))%Q by ring.
    apply Qmult_le_l; [reflexivity|].
    apply Qmult_le_compat_r; [exact Hk|discriminate].
Qed.



(** *** The decimal exponent *)



Lemma ilog10_estimates :
  forallb ilog10_estimate_ok (map (fun i => Z.of_nat i - 1074) (seq 0 2098)) = true.
Proof. vm_compute. reflexivity. Qed.

Lemma ilog10_estimate l :
  -1074 <= l < 1024 -> ilog10_estimate_ok l = true.
Proof.
  intros Hl. pose proof ilog10_estimates as H.
  rewrite forallb_forall in H. apply H.
  apply in_map_iff. exists (Z.to_nat (l + 1074)). split; [lia|].
  apply in_seq. lia.
Qed.

Lemma ilog10_spec x :
  (PyFloat.pow2 (-1074) <= x)%Q -> (x < PyFloat.pow2 1024)%Q ->
  (PyFloat.pow10 (ilog10 x) <= x)%Q /\ (x < PyFloat.pow10 (ilog10 x + 1))%Q.
Proof.
  intros Hlo Hup.
  assert (Hx : (0 < x)%Q) by (pose proof (pow2_pos (-1074)); lra).
  destruct (ilog2_spec x Hx) as [Hl1 Hl2].
  assert (Hl : -1074 <= PyFloat.ilog2 x < 1024).
  { split; [now apply ilog2_ge|now apply ilog2_lt]. }
  pose proof (ilog10_estimate _ Hl) as Hest.
  unfold ilog10_estimate_ok in Hest. cbv zeta in Hest.
  apply andb_true_iff in Hest as [H1%Qle_bool_iff H2%Qle_bool_iff].
  unfold ilog10. set (k := PyFloat.ilog2 x * 30103 / 100000) in *.
  destruct (Qle_bool (PyFloat.pow10 (k + 1)) x) eqn:B1.
  - apply Qle_bool_iff in B1. split; [exact B1|].
    replace (k + 1 + 1) with (k + 2) by lia. lra.
  - assert (N1 : (x < PyFloat.pow10 (k + 1))%Q).
    { apply Qnot_le_lt. intros H%Qle_bool_iff. congruence. }
    destruct (Qle_bool (PyFloat.pow10 k) x) eqn:B2.
    + apply Qle_bool_iff in B2. now split.
    + assert (N2 : (x < PyFloat.pow10 k)%Q).
      { apply Qnot_le_lt. intros H%Qle_bool_iff. congruence. }
      replace (k - 1 + 1) with k by lia. split; [lra|exact N2].
Qed.

(** *** The digits [repr] chooses *)

Section Digits.

Variable x : Q.
Variable k : Z.
Hypothesis x_grid : exists z, x = PyFloat.round z.
Hypothesis x_low : (PyFloat.pow10 k <= x)%Q.
Hypothesis x_high : (x < PyFloat.pow10 (k + 1))%Q.

Lemma x_pos : (0 < x)%Q.
Proof. pose proof (pow10_pos k). lra. Qed.

Lemma scaled_bounds n :
  1 <= n ->
  10 ^ (n - 1) <= Qfloor (x / PyFloat.pow10 (k - n + 1)) < 10 ^ n.
Proof.
  intros Hn.
  pose proof (pow10_pos (k - n + 1)) as Hu. set (u := PyFloat.pow10 (k - n + 1)) in *.
  assert (E1 : (PyFloat.pow10 k == inject_Z (10 ^ (n - 1)) * u)%Q).
  { rewrite <- pow10_nat by lia. unfold u. rewrite <- pow10_add.
    replace (n - 1 + (k - n + 1)) with k by lia. reflexivity. }
  assert (E2 : (PyFloat.pow10 (k + 1) == inject_Z (10 ^ n) * u)%Q).
  { rewrite <- pow10_nat by lia. unfold u. rewrite <- pow10_add.
    replace (n + (k - n + 1)) with (k + 1) by lia. reflexivity. }
  split.
  - rewrite <- (Qfloor_Z (10 ^ (n - 1))). apply Qfloor_resp_le.
    apply Qle_shift_div_l; [exact Hu|]. now rewrite <- E1.
  - assert (H : (inject_Z (Qfloor (x / u)) < inject_Z (10 ^ n))%Q).
    { apply Qle_lt_trans with (x / u)%Q; [apply Qfloor_le|].
      apply Qlt_shift_div_r; [exact Hu|]. now rewrite <- E2. }
    now rewrite <- Zlt_Qlt in H.
Qed.

Lemma decimal_candidate_spec n d :
  decimal_candidate x k n = Some d ->
  (PyFloat.round (inject_Z d * PyFloat.pow10 (k - n + 1)) == x)%Q
  /\ (d = Qfloor (x / PyFloat.pow10 (k - n + 1))
      \/ d = Qfloor (x / PyFloat.pow10 (k - n + 1)) + 1).
Proof.
  unfold decimal_candidate. cbv zeta.
  set (u := PyFloat.pow10 (k - n + 1)). set (s := (x / u)%Q).
  destruct (Qeq_bool (PyFloat.round (inject_Z (Qfloor s) * u)) x) eqn:Blo;
    destruct (Qeq_bool (PyFloat.round (inject_Z (Qfloor s + 1) * u)) x) eqn:Bhi;
    intros [= <-].
  - apply Qeq_bool_iff in Blo. apply Qeq_bool_iff in Bhi.
    destruct (round_half_even_bounds s) as [-> | ->]; auto.
  - apply Qeq_bool_iff in Blo. auto.
  - apply Qeq_bool_iff in Bhi. auto.
Qed.

Lemma shortest_digits_spec fuel :
  forall n0,
    1 <= n0 -> n0 + Z.of_nat fuel = 17 ->
    let '(d, n) := shortest_digits fuel x k n0 in
    n0 <= n <= 17
    /\ (PyFloat.round (inject_Z d * PyFloat.pow10 (k - n + 1)) == x)%Q
    /\ 10 ^ (n - 1) <= d <= 10 ^ n.
Proof.
  induction fuel as [|fuel IH]; intros n0 Hn0 Hsum; cbn [shortest_digits].
  - assert (n0 = 17) by lia. subst n0.
    split; [lia|]. split.
    + replace (k - 17 + 1) with (k - 16) by lia.
      destruct x_grid as [z Ez]. pose proof x_pos as Hp.
      pose proof (seventeen_digits z k) as H. cbv zeta in H.
      rewrite <- Ez in H. apply H; [exact Hp|exact x_low].
    + pose proof (scaled_bounds 17 ltac:(lia)) as Hb.
      destruct (round_half_even_bounds (x / PyFloat.pow10 (k - 17 + 1))) as [-> | ->];
        lia.
  - destruct (decimal_candidate x k n0) as [d|] eqn:Ec.
    + apply decimal_candidate_spec in Ec as [Hr Hd].
      pose proof (scaled_bounds n0 Hn0) as Hb.
      split; [lia|]. split; [exact Hr|]. destruct Hd; lia.
    + specialize (IH (n0 + 1) ltac:(lia) ltac:(lia)).
      destruct (shortest_digits fuel x k (n0 + 1)) as [d n].
      destruct IH as (Hn & Hr & Hd). split; [lia|]. now split.
Qed.

End Digits.






(** *** Strings of digits *)

Lemma digit_of_range c d : Reading.digit_of c = Some d -> 0 <= d <= 9.
Proof.
  unfold Reading.digit_of. cbv zeta.
  destruct (Z.leb_spec 0 (Z.of_N (N_of_ascii c) - 48));
    destruct (Z.leb_spec (Z.of_N (N_of_ascii c) - 48) 9);
    cbn [andb]; intros [= <-]; lia.
Qed.

Lemma digits_value_app base digit a b :
  forall acc,
    Reading.digits_value base digit (a +++ b) acc
    = match Reading.digits_value base digit a acc with
      | Some v => Reading.digits_value base digit b v
      | None => None
      end.
Proof.
  induction a as [|c a IH]; intros acc; cbn [String.append Reading.digits_value];
    [reflexivity|].
  destruct (digit c); [apply IH|reflexivity].
Qed.

Lemma digits_value_zeros n :
  forall acc,
    Reading.digits_value 10 Reading.digit_of (repeat_char "0" n) acc
    = Some (acc * 10 ^ Z.of_nat n).
Proof.
  induction n as [|n IH]; intros acc; cbn [repeat_char Reading.digits_value].
  - f_equal. change (10 ^ Z.of_nat 0) with 1. lia.
  - change (Reading.digit_of "0") with (Some 0). cbv iota. rewrite IH. f_equal.
    rewrite Nat2Z.inj_succ, Z.pow_succ_r by lia. lia.
Qed.

Lemma digits_value_shift s :
  forall acc v,
    Reading.digits_value 10 Reading.digit_of s 0 = Some v ->
    Reading.digits_value 10 Reading.digit_of s acc
    = Some (acc * 10 ^ Z.of_nat (String.length s) + v).
Proof.
  assert (H : forall acc acc' v,
             Reading.digits_value 10 Reading.digit_of s acc = Some v ->
             Reading.digits_value 10 Reading.digit_of s (acc + acc')
             = Some (acc' * 10 ^ Z.of_nat (String.length s) + v)).
  { induction s as [|c s IH]; intros acc acc' v; cbn [Reading.digits_value String.length].
    - intros [= <-]. f_equal. change (10 ^ Z.of_nat 0) with 1. lia.
    - destruct (Reading.digit_of c) as [d|]; [|discriminate].
      intros Hv.
      replace ((acc + acc') * 10 + d) with ((acc * 10 + d) + acc' * 10) by lia.
      rewrite (IH _ (acc' * 10) v Hv). f_equal.
      rewrite Nat2Z.inj_succ, Z.pow_succ_r by lia. lia. }
  intros acc v Hv. exact (H 0 acc v Hv).
Qed.

Lemma digits_value_range s :
  forall acc v,
    Reading.digits_value 10 Reading.digit_of s acc = Some v ->
    acc * 10 ^ Z.of_nat (String.length s) <= v
    < (acc + 1) * 10 ^ Z.of_nat (String.length s).
Proof.
  induction s as [|c s IH]; intros acc v; cbn [Reading.digits_value String.length].
  - intros [= <-]. change (10 ^ Z.of_nat 0) with 1. lia.
  - destruct (Reading.digit_of c) as [d|] eqn:Ed; [|discriminate].
    apply digit_of_range in Ed. intros Hv. apply IH in Hv.
    rewrite Nat2Z.inj_succ, Z.pow_succ_r by lia.
    assert (0 < 10 ^ Z.of_nat (String.length s)) by (apply Z.pow_pos_nonneg; lia).
    nia.
Qed.

Lemma uint_digits_acc u :
  forall acc,
    Reading.digits_value 10 Reading.digit_of
      (DecimalString.NilEmpty.string_of_uint u) (Z.pos acc)
    = Some (Z.pos (Pos.of_uint_acc u acc)).
Proof.
  induction u; intros acc;
    cbn [DecimalString.NilEmpty.string_of_uint Reading.digits_value Pos.of_uint_acc];
    [reflexivity|..];
    match goal with
    | |- context [Reading.digit_of ?c] =>
        let v := eval cbv in (Reading.digit_of c) in
        change (Reading.digit_of c) with v; cbv iota
    end;
    rewrite <- IHu; f_equal; lia.
Qed.

Lemma uint_digits u :
  Reading.digits_value 10 Reading.digit_of
    (DecimalString.NilEmpty.string_of_uint u) 0
  = Some (Z.of_N (Pos.of_uint u)).
Proof.
  induction u;
    cbn [DecimalString.NilEmpty.string_of_uint Reading.digits_value Pos.of_uint];
    [reflexivity|..];
    match goal with
    | |- context [Reading.digit_of ?c] =>
        let v := eval cbv in (Reading.digit_of c) in
        change (Reading.digit_of c) with v; cbv iota
    end;
    [exact IHu|..];
    match goal with
    | |- Reading.digits_value _ _ _ ?a = _ =>
        change a with (Z.pos (Z.to_pos a))
    end; apply uint_digits_acc.
Qed.

(** [str] of a natural number, as digits. *)
Lemma str_int_uint m :
  0 < m ->
  str_int m = DecimalString.NilEmpty.string_of_uint (Pos.to_uint (Z.to_pos m)).
Proof.
  intros Hm. destruct m as [|p|p]; [lia| |lia].
  unfold str_int. cbn [Z.to_int DecimalString.NilZero.string_of_int Z.to_pos].
  unfold DecimalString.NilZero.string_of_uint.
  destruct (Pos.to_uint p) eqn:E; try reflexivity.
  now apply DecimalPos.Unsigned.to_uint_nonnil in E.
Qed.

Lemma str_int_digits m :
  0 <= m -> Reading.digits_value 10 Reading.digit_of (str_int m) 0 = Some m.
Proof.
  intros Hm. destruct (Z.eq_dec m 0) as [->|Hne]; [reflexivity|].
  rewrite (str_int_uint m) by lia. rewrite uint_digits. f_equal.
  rewrite DecimalPos.Unsigned.of_to. destruct m; cbn; lia.
Qed.

Lemma to_uint_leading p d : Pos.to_uint p <> Decimal.D0 d.
Proof.
  assert (E : Pos.to_uint p = Decimal.unorm (Pos.to_uint p)).
  { rewrite <- DecimalPos.Unsigned.to_of, DecimalPos.Unsigned.of_to. reflexivity. }
  destruct (Decimal.nzhead (Pos.to_uint p)) eqn:Hz.
  - assert (Decimal.unorm (Pos.to_uint p) = Decimal.D0 Decimal.Nil).
    { apply DecimalFacts.unorm_0. exact Hz. }
    exfalso. apply (DecimalPos.Unsigned.to_uint_nonzero p). congruence.
  - exfalso. exact (DecimalFacts.nzhead_nonzero _ _ Hz).
  - rewrite E, DecimalFacts.unorm_nzhead by congruence. rewrite Hz. discriminate.
  - rewrite E, DecimalFacts.unorm_nzhead by congruence. rewrite Hz. discriminate.
  - rewrite E, DecimalFacts.unorm_nzhead by congruence. rewrite Hz. discriminate.
  - rewrite E, DecimalFacts.unorm_nzhead by congruence. rewrite Hz. discriminate.
  - rewrite E, DecimalFacts.unorm_nzhead by congruence. rewrite Hz. discriminate.
  - rewrite E, DecimalFacts.unorm_nzhead by congruence. rewrite Hz. discriminate.
  - rewrite E, DecimalFacts.unorm_nzhead by congruence. rewrite Hz. discriminate.
  - rewrite E, DecimalFacts.unorm_nzhead by congruence. rewrite Hz. discriminate.
  - rewrite E, DecimalFacts.unorm_nzhead by congruence. rewrite Hz. discriminate.
Qed.

(** The number of digits of a positive int. *)
Lemma length_str_int m n :
  1 <= n -> 10 ^ (n - 1) <= m < 10 ^ n ->
  Z.of_nat (String.length (str_int m)) = n.
Proof.
  intros Hn Hm.
  assert (Hpos : 0 < m).
  { assert (0 < 10 ^ (n - 1)) by (apply Z.pow_pos_nonneg; lia). lia. }
  pose proof (str_int_digits m ltac:(lia)) as Hv.
  pose proof (digits_value_range _ _ _ Hv) as Hup.
  pose proof (str_int_uint m Hpos) as E.
  set (s := str_int m) in *.
  assert (Hlow : 10 ^ (Z.of_nat (String.length s) - 1) <= m /\ s <> "").
  { rewrite E in Hv |- *.
    destruct (Pos.to_uint (Z.to_pos m)) eqn:Eu;
      [now apply DecimalPos.Unsigned.to_uint_nonnil in Eu
      |now apply to_uint_leading in Eu|..];
      cbn [DecimalString.NilEmpty.string_of_uint Reading.digits_value String.length] in Hv |- *;
      (split; [|discriminate]);
      match type of Hv with
      | context [Reading.digit_of ?c] =>
          let v := eval cbv in (Reading.digit_of c) in
          change (Reading.digit_of c) with v in Hv; cbv iota in Hv
      end;
      apply digits_value_range in Hv;
      rewrite Nat2Z.inj_succ; replace (Z.succ _ - 1) with
        (Z.of_nat (String.length (DecimalString.NilEmpty.string_of_uint u))) by lia;
      lia. }
  destruct Hlow as [Hlow Hne].
  assert (Hlen : 1 <= Z.of_nat (String.length s)).
  { destruct s; [contradiction|]. cbn [String.length]. lia. }
  assert (Z.of_nat (String.length s) - 1 < n).
  { apply (Z.pow_lt_mono_r_iff 10); lia. }
  assert (n - 1 < Z.of_nat (String.length s)).
  { apply (Z.pow_lt_mono_r_iff 10); lia. }
  lia.
Qed.




(** *** Splitting a text *)

Lemma split_at_none c s :
  string_forall (is_not c) s = true -> Reading.split_at c s = None.
Proof.
  induction s as [|d s IH]; cbn [string_forall Reading.split_at]; [reflexivity|].
  intros [Hd Hs]%andb_true_iff. unfold is_not in Hd.
  apply negb_true_iff in Hd. rewrite Hd, (IH Hs). reflexivity.
Qed.

Lemma split_at_app c a b :
  string_forall (is_not c) a = true ->
  Reading.split_at c (a +++ String c b) = Some (a, b).
Proof.
  induction a as [|d a IH];
    cbn [string_forall String.append Reading.split_at].
  - intros _. now rewrite Ascii.eqb_refl.
  - intros [Hd Ha]%andb_true_iff. unfold is_not in Hd.
    apply negb_true_iff in Hd. rewrite Hd, (IH Ha). reflexivity.
Qed.

(** A string of digits holds nothing but digits. *)
Lemma digits_without c s :
  Reading.digit_of c = None ->
  forall acc v,
    Reading.digits_value 10 Reading.digit_of s acc = Some v ->
    string_forall (is_not c) s = true.
Proof.
  intros Hc. induction s as [|d s IH]; intros acc v;
    cbn [Reading.digits_value string_forall]; [reflexivity|].
  destruct (Reading.digit_of d) eqn:Ed; [|discriminate].
  intros Hv. rewrite (IH _ _ Hv), andb_true_r.
  unfold is_not. apply negb_true_iff. destruct (Ascii.eqb_spec d c) as [->|]; congruence.
Qed.

Lemma str_int_without c m :
  0 <= m -> Reading.digit_of c = None ->
  string_forall (is_not c) (str_int m) = true.
Proof.
  intros Hm Hc. exact (digits_without c _ Hc _ _ (str_int_digits m Hm)).
Qed.

Lemma substring_all s : substring 0 (String.length s) s = s.
Proof. induction s as [|c s IH]; cbn; [reflexivity|now rewrite IH]. Qed.

Lemma substring_split s :
  forall k,
    (k <= String.length s)%nat ->
    substring 0 k s +++ substring k (String.length s - k) s = s.
Proof.
  induction s as [|c s IH]; intros [|k] Hk; cbn [String.length] in *.
  - reflexivity.
  - lia.
  - rewrite Nat.sub_0_r. change (String.length s) with (String.length s).
    exact (substring_all (String c s)).
  - cbn [substring String.append Nat.sub]. f_equal. apply IH; lia.
Qed.

Lemma uint_of_str_int m : 0 <= m -> Reading.uint_of_str (str_int m) = Some m.
Proof.
  intros Hm. unfold Reading.uint_of_str.
  rewrite nonempty_true by apply str_int_nonempty. now apply str_int_digits.
Qed.

Lemma uint_of_padded w m :
  0 <= m -> Reading.uint_of_str (zfill w "" (str_int m)) = Some m.
Proof.
  intros Hm. unfold Reading.uint_of_str, zfill. cbn [String.append].
  rewrite nonempty_true.
  - rewrite digits_value_app, digits_value_zeros.
    rewrite (digits_value_shift _ _ m (str_int_digits m Hm)). f_equal; lia.
  - intros E. apply (f_equal String.length) in E. rewrite length_append in E.
    pose proof (str_int_nonempty m). destruct (str_int m); [contradiction|].
    cbn in E. lia.
Qed.

Lemma exponent_round_trip e :
  Reading.exponent_of_str (exponent_str e) = Some e.
Proof.
  unfold exponent_str. destruct (Z.ltb_spec e 0);
    cbn [String.append Reading.exponent_of_str];
    rewrite uint_of_padded by lia; cbn [option_map]; f_equal; lia.
Qed.

Lemma mantissa_plain ds sd :
  Reading.digits_value 10 Reading.digit_of ds 0 = Some sd -> ds <> "" ->
  Reading.mantissa_of_str ds = Some (inject_Z sd).
Proof.
  intros Hv Hne. unfold Reading.mantissa_of_str.
  rewrite split_at_none by exact (digits_without "." _ eq_refl _ _ Hv).
  unfold Reading.uint_of_str. now rewrite nonempty_true, Hv.
Qed.

Lemma mantissa_point whole fraction v :
  Reading.digits_value 10 Reading.digit_of (whole +++ fraction) 0 = Some v ->
  whole <> "" -> fraction <> "" ->
  Reading.mantissa_of_str (whole +++ String "." fraction)
  = Some (inject_Z v / inject_Z (10 ^ Z.of_nat (String.length fraction)))%Q.
Proof.
  intros Hv Hw Hf. unfold Reading.mantissa_of_str.
  rewrite digits_value_app in Hv.
  destruct (Reading.digits_value 10 Reading.digit_of whole 0) as [w|] eqn:Ew;
    [|discriminate].
  rewrite split_at_app by exact (digits_without "." _ eq_refl _ _ Ew).
  rewrite !nonempty_true by assumption. cbn [andb].
  now rewrite digits_value_app, Ew, Hv.
Qed.

Lemma pow10_neg n :
  0 <= n -> (PyFloat.pow10 (- n) == 1 / inject_Z (10 ^ n))%Q.
Proof.
  intros Hn. unfold PyFloat.pow10. rewrite Qpower_opp.
  rewrite (Zpower_Qpower 10 n) by lia. unfold Qdiv. now rewrite Qmult_1_l.
Qed.

Lemma pow10_nonzero n : 0 <= n -> ~ (inject_Z (10 ^ n) == 0)%Q.
Proof.
  intros Hn. assert (0 < 10 ^ n) by (apply Z.pow_pos_nonneg; lia).
  unfold Qeq, inject_Z. cbn. lia.
Qed.






Lemma over_pow10 v n :
  0 <= n -> (inject_Z v / inject_Z (10 ^ n) == inject_Z v * PyFloat.pow10 (- n))%Q.
Proof.
  intros Hn. rewrite pow10_neg by exact Hn. field. now apply pow10_nonzero.
Qed.

Lemma pow10_join a b c :
  c = a + b -> (PyFloat.pow10 a * PyFloat.pow10 b == PyFloat.pow10 c)%Q.
Proof. intros ->. symmetry. apply pow10_add. Qed.

(** The layout denotes the digits, shifted to the decimal point. *)
Lemma decimal_layout_value sd decpt :
  1 <= sd ->
  exists q,
    Reading.decimal_of_str (decimal_layout (str_int sd) decpt) = Some q
    /\ (q == inject_Z sd
             * PyFloat.pow10 (decpt - Z.of_nat (String.length (str_int sd))))%Q.
Proof.
  intros Hsd.
  pose proof (str_int_digits sd ltac:(lia)) as Hv.
  pose proof (str_int_nonempty sd) as Hne.
  set (ds := str_int sd) in *.
  assert (Hnd : 1 <= Z.of_nat (String.length ds)).
  { destruct ds; [contradiction|]. cbn [String.length]. lia. }
  assert (He : string_forall (is_not "e") ds = true)
    by exact (digits_without "e" _ eq_refl _ _ Hv).
  assert (Hp : string_forall (is_not ".") ds = true)
    by exact (digits_without "." _ eq_refl _ _ Hv).
  unfold decimal_layout. cbv zeta. set (nd := Z.of_nat (String.length ds)) in *.
  destruct ((decpt <=? -4) || (16 <? decpt)) eqn:Bsci.
  - (* scientific *)
    rewrite <- append_assoc. change ("e" +++ exponent_str (decpt - 1))
      with (String "e" (exponent_str (decpt - 1))).
    unfold Reading.decimal_of_str.
    destruct (Z.ltb_spec 1 nd) as [Hlong|Hone].
    + rewrite split_at_app.
      2:{ rewrite string_forall_app. cbn [String.append string_forall].
          now rewrite !substring_forall by exact He. }
      rewrite exponent_round_trip.
      change ("." +++ substring 1 (String.length ds - 1) ds)
        with (String "." (substring 1 (String.length ds - 1) ds)).
      rewrite (mantissa_point _ _ sd).
      * eexists. split; [reflexivity|].
        rewrite length_substring, Nat.min_id.
        rewrite over_pow10 by lia. rewrite <- Qmult_assoc.
        rewrite pow10_join with (c := decpt - nd); [reflexivity|].
        unfold nd. lia.
      * rewrite (substring_split ds 1) by (unfold nd in Hlong; lia). exact Hv.
      * intros E. apply (f_equal String.length) in E.
        rewrite length_substring in E. cbn [String.length] in E. unfold nd in *. lia.
      * intros E. apply (f_equal String.length) in E.
        rewrite length_substring in E. cbn [String.length] in E. unfold nd in *. lia.
    + assert (El : String.length ds = 1%nat) by (unfold nd in *; lia).
      assert (Es : substring 0 1 ds = ds).
      { pose proof (substring_all ds) as Ha. now rewrite El in Ha. }
      rewrite Es, append_nil_r.
      rewrite split_at_app by exact He.
      rewrite exponent_round_trip, (mantissa_plain ds sd Hv Hne).
      eexists. split; [reflexivity|].
      replace (decpt - nd) with (decpt - 1) by (unfold nd; lia). reflexivity.
  - destruct (Z.leb_spec decpt 0) as [Hfrac|Hpos].
    + (* 0.000ddd *)
      change ("0." +++ repeat_char "0" (Z.to_nat (- decpt)) +++ ds)
        with ("0" +++ String "." (repeat_char "0" (Z.to_nat (- decpt)) +++ ds)).
      unfold Reading.decimal_of_str. rewrite split_at_none.
      2:{ cbn [String.append string_forall].
          now rewrite string_forall_app, string_forall_repeat, He. }
      rewrite (mantissa_point _ _ sd).
      * eexists. split; [reflexivity|].
        rewrite length_append, length_repeat_char.
        rewrite over_pow10 by lia.
        replace (- Z.of_nat (Z.to_nat (- decpt) + String.length ds))
          with (decpt - nd) by (unfold nd; lia). reflexivity.
      * cbn [String.append Reading.digits_value].
        change (Reading.digit_of "0") with (Some 0). cbv iota.
        rewrite digits_value_app, digits_value_zeros.
        rewrite (digits_value_shift _ _ sd Hv). f_equal; lia.
      * discriminate.
      * intros E. apply (f_equal String.length) in E.
        rewrite length_append in E. cbn [String.length] in E. unfold nd in *. lia.
    + destruct (Z.leb_spec nd decpt) as [Hint|Hmid].
      * (* ddd000.0 *)
        rewrite <- append_assoc.
        change ".0" with (String "." "0").
        unfold Reading.decimal_of_str. rewrite split_at_none.
        2:{ rewrite !string_forall_app, string_forall_repeat, He by reflexivity.
            reflexivity. }
        rewrite (mantissa_point _ _ (sd * 10 ^ (decpt - nd) * 10)).
        -- eexists. split; [reflexivity|].
           cbn [String.length]. change (10 ^ Z.of_nat 1) with 10.
           rewrite (pow10_nat (decpt - nd)) by lia.
           rewrite !inject_Z_mult. change (inject_Z 10) with 10%Q.
           field.
        -- rewrite digits_value_app, digits_value_app, Hv, digits_value_zeros.
           cbn [Reading.digits_value]. change (Reading.digit_of "0") with (Some 0).
           cbv iota. f_equal. rewrite Z2Nat.id by lia. lia.
        -- intros E. apply (f_equal String.length) in E.
           rewrite length_append in E. cbn [String.length] in E.
           unfold nd in *. lia.
        -- discriminate.
      * (* ddd.ddd *)
        change ("." +++ substring (Z.to_nat decpt)
                         (String.length ds - Z.to_nat decpt) ds)
          with (String "." (substring (Z.to_nat decpt)
                              (String.length ds - Z.to_nat decpt) ds)).
        unfold Reading.decimal_of_str. rewrite split_at_none.
        2:{ rewrite string_forall_app. cbn [string_forall].
            now rewrite !substring_forall by exact He. }
        rewrite (mantissa_point _ _ sd).
        -- eexists. split; [reflexivity|].
           rewrite length_substring, Nat.min_id.
           rewrite over_pow10 by lia.
           replace (- Z.of_nat (String.length ds - Z.to_nat decpt))
             with (decpt - nd) by (unfold nd in *; lia). reflexivity.
        -- rewrite substring_split by (unfold nd in *; lia). exact Hv.
        -- intros E. apply (f_equal String.length) in E.
           rewrite length_substring in E. cbn [String.length] in E.
           unfold nd in *. lia.
        -- intros E. apply (f_equal String.length) in E.
           rewrite length_substring in E. cbn [String.length] in E.
           unfold nd in *. lia.
Qed.






Lemma strip_zeros_spec fuel :
  forall d,
    1 <= d ->
    exists j, 0 <= j /\ d = strip_zeros fuel d * 10 ^ j /\ 1 <= strip_zeros fuel d.
Proof.
  induction fuel as [|fuel IH]; intros d Hd; cbn [strip_zeros].
  - exists 0. change (10 ^ 0) with 1. lia.
  - destruct (Z.eqb_spec (d mod 10) 0) as [Hm|Hm]; cbn [andb].
    + destruct (Z.eqb_spec d 0) as [|_]; [lia|]. cbn [negb].
      assert (Ed : d = 10 * (d / 10)).
      { pose proof (Z.div_mod d 10 ltac:(lia)). lia. }
      destruct (IH (d / 10) ltac:(lia)) as (j & Hj & Ej & Hs).
      exists (j + 1). split; [lia|]. split; [|exact Hs].
      rewrite Z.pow_add_r by lia. change (10 ^ 1) with 10. lia.
    + exists 0. change (10 ^ 0) with 1. lia.
Qed.

Lemma repr_magnitude_layout x :
  repr_magnitude x
  = let k := ilog10 x in
    let '(d, n) := shortest_digits 16 x k 1 in
    decimal_layout (str_int (strip_zeros 18 d))
                   (if d =? 10 ^ n then k + 2 else k + 1).
Proof. reflexivity. Qed.

(** The text of [repr] denotes a decimal that rounds back to the float. *)
Lemma repr_magnitude_value x :
  PyFloat.round x = x -> (0 < x)%Q -> (x < PyFloat.pow2 1024)%Q ->
  exists q,
    Reading.decimal_of_str (repr_magnitude x) = Some q
    /\ PyFloat.round q = x.
Proof.
  intros Hgrid Hpos Hup.
  assert (Hlow : (PyFloat.pow2 (-1074) <= x)%Q).
  { rewrite <- Hgrid in Hpos.
    destruct (round_form x Hpos) as (M & E & HM & HE & _ & Ex).
    rewrite Hgrid in Ex. rewrite Ex.
    apply Qle_trans with (1 * PyFloat.pow2 E)%Q.
    - rewrite Qmult_1_l. now apply pow2_le.
    - apply Qmult_le_compat_r; [|apply Qlt_le_weak, pow2_pos].
      change 1%Q with (inject_Z 1). rewrite <- Zle_Qle. lia. }
  destruct (ilog10_spec x Hlow Hup) as [Hk1 Hk2].
  rewrite repr_magnitude_layout. cbv zeta. set (k := ilog10 x) in *.
  pose proof (shortest_digits_spec x k (ex_intro _ x (eq_sym Hgrid)) Hk1 Hk2
                16 1 ltac:(lia) ltac:(lia)) as Hs.
  destruct (shortest_digits 16 x k 1) as [d n].
  destruct Hs as (Hn & Hr & Hd).
  set (decpt := if d =? 10 ^ n then k + 2 else k + 1).
  set (N := if d =? 10 ^ n then n + 1 else n).
  assert (HN : 1 <= N /\ 10 ^ (N - 1) <= d < 10 ^ N /\ decpt - N = k + 1 - n).
  { unfold N, decpt. destruct (Z.eqb_spec d (10 ^ n)) as [Ed|Nd].
    - replace (n + 1 - 1) with n by lia. rewrite Z.pow_add_r by lia.
      change (10 ^ 1) with 10.
      assert (0 < 10 ^ n) by (apply Z.pow_pos_nonneg; lia). lia.
    - lia. }
  destruct HN as (HN1 & HNd & HNp).
  assert (Hd1 : 1 <= d).
  { assert (0 < 10 ^ (N - 1)) by (apply Z.pow_pos_nonneg; lia). lia. }
  destruct (strip_zeros_spec 18 d Hd1) as (j & Hj & Ej & Hsd).
  set (sd := strip_zeros 18 d) in *.
  assert (HjN : j < N).
  { apply (Z.pow_lt_mono_r_iff 10); [lia|lia|].
    assert (0 < 10 ^ j) by (apply Z.pow_pos_nonneg; lia). nia. }
  assert (Hlen : Z.of_nat (String.length (str_int sd)) = N - j).
  { apply length_str_int; [lia|].
    assert (Hpj : 0 < 10 ^ j) by (apply Z.pow_pos_nonneg; lia).
    assert (E1 : 10 ^ (N - 1) = 10 ^ (N - j - 1) * 10 ^ j).
    { rewrite <- Z.pow_add_r by lia. f_equal. lia. }
    assert (E2 : 10 ^ N = 10 ^ (N - j) * 10 ^ j).
    { rewrite <- Z.pow_add_r by lia. f_equal. lia. }
    split; nia. }
  destruct (decimal_layout_value sd decpt Hsd) as (q & Hq & Eq).
  exists q. split; [exact Hq|].
  rewrite <- Hgrid. apply round_eq. rewrite Hgrid, <- Hr.
  rewrite (round_Qeq q (inject_Z d * PyFloat.pow10 (k - n + 1))); [reflexivity|].
  rewrite Eq, Hlen.
  assert (Ed : (inject_Z d == inject_Z sd * inject_Z (10 ^ j))%Q).
  { rewrite <- inject_Z_mult. now rewrite <- Ej. }
  rewrite Ed.
  rewrite <- (pow10_nat j) by lia. rewrite <- Qmult_assoc.
  rewrite pow10_join with (c := decpt - (N - j)); [reflexivity|lia].
Qed.






(** *** Reading back what [str] wrote *)

Lemma digits_value_stops base digit a c b :
  digit c = None ->
  forall acc, Reading.digits_value base digit (a +++ String c b) acc = None.
Proof.
  intros Hc acc. rewrite digits_value_app.
  destruct (Reading.digits_value base digit a acc); [|reflexivity].
  cbn [Reading.digits_value]. now rewrite Hc.
Qed.

Lemma uint_not_signed s : Reading.uint_of_str (String "-" s) = None.
Proof. reflexivity. Qed.

Lemma mantissa_not_signed s : Reading.mantissa_of_str (String "-" s) = None.
Proof.
  unfold Reading.mantissa_of_str. cbn [Reading.split_at].
  change (Ascii.eqb "-" ".") with false. cbv iota.
  destruct (Reading.split_at "." s) as [[w f]|]; cbn [option_map fst snd];
    [|reflexivity].
  destruct (nonempty (String "-" w) && nonempty f); reflexivity.
Qed.

Lemma decimal_not_signed s : Reading.decimal_of_str (String "-" s) = None.
Proof.
  unfold Reading.decimal_of_str. cbn [Reading.split_at].
  change (Ascii.eqb "-" "e") with false. cbv iota.
  destruct (Reading.split_at "e" s) as [[m e]|]; cbn [option_map fst snd].
  - now rewrite mantissa_not_signed.
  - apply mantissa_not_signed.
Qed.

Lemma unsigned_cases s :
  (exists s', s = String "-" s')
  \/ (Reading.int_of_str s = Reading.uint_of_str s
      /\ forall q,
          Reading.decimal_of_str s = Some q ->
          Reading.float_of_str s
          = if Qle_bool (PyFloat.pow2 1024) (PyFloat.round q) then None
            else Some (PyFloat.mk false (PyFloat.round q))).
Proof.
  destruct s as [|c s]; [right; split; [reflexivity|discriminate]|].
  destruct (Ascii.eqb_spec c "-") as [->|Hc]; [left; now exists s|].
  right. unfold Reading.int_of_str, Reading.float_of_str.
  destruct c as [[] [] [] [] [] [] [] []]; try contradiction;
    (split; [reflexivity|intros q ->; reflexivity]).
Qed.

Lemma int_round_trip n : Reading.int_of_str (str_int n) = Some n.
Proof.
  destruct (Z.le_gt_cases 0 n) as [Hn|Hn].
  - destruct (unsigned_cases (str_int n)) as [[s' E]|[E _]].
    + pose proof (str_int_digits n Hn) as Hv. rewrite E in Hv. discriminate.
    + rewrite E. now apply uint_of_str_int.
  - destruct n as [|p|p]; try lia.
    unfold str_int. cbn [Z.to_int DecimalString.NilZero.string_of_int].
    cbn [Reading.int_of_str].
    change (DecimalString.NilZero.string_of_uint (Pos.to_uint p))
      with (str_int (Z.pos p)).
    rewrite uint_of_str_int by lia. reflexivity.
Qed.

Lemma layout_not_digits ds decpt :
  forall acc,
    Reading.digits_value 10 Reading.digit_of (decimal_layout ds decpt) acc = None.
Proof.
  intros acc. unfold decimal_layout. cbv zeta.
  destruct ((decpt <=? -4) || (16 <? decpt)).
  - rewrite <- append_assoc.
    change ("e" +++ exponent_str (decpt - 1))
      with (String "e" (exponent_str (decpt - 1))).
    now apply digits_value_stops.
  - destruct (decpt <=? 0).
    + change ("0." +++ repeat_char "0" (Z.to_nat (- decpt)) +++ ds)
        with ("0" +++ String "." (repeat_char "0" (Z.to_nat (- decpt)) +++ ds)).
      now apply digits_value_stops.
    + destruct (Z.of_nat (String.length ds) <=? decpt).
      * rewrite <- append_assoc. change ".0" with (String "." "0").
        now apply digits_value_stops.
      * change ("." +++ substring (Z.to_nat decpt)
                         (String.length ds - Z.to_nat decpt) ds)
          with (String "." (substring (Z.to_nat decpt)
                              (String.length ds - Z.to_nat decpt) ds)).
        now apply digits_value_stops.
Qed.

Lemma repr_not_digits x acc :
  Reading.digits_value 10 Reading.digit_of (repr_magnitude x) acc = None.
Proof.
  rewrite repr_magnitude_layout. cbv zeta.
  destruct (shortest_digits 16 x (ilog10 x) 1) as [d n].
  apply layout_not_digits.
Qed.

Lemma binary64_zero x :
  binary64 x -> Qeq_bool (PyFloat.mag x) 0 = true -> PyFloat.mag x = 0%Q.
Proof.
  intros [Hg _] Hz%Qeq_bool_iff. rewrite <- Hg. apply round_zero. lra.
Qed.

Lemma binary64_pos x :
  binary64 x -> Qeq_bool (PyFloat.mag x) 0 = false -> (0 < PyFloat.mag x)%Q.
Proof.
  intros [Hg _] Hz. pose proof (round_nonneg (PyFloat.mag x)) as Hn.
  rewrite Hg in Hn. apply Qeq_bool_neq in Hz.
  destruct (Qlt_le_dec 0 (PyFloat.mag x)) as [H|H]; [exact H|].
  exfalso. apply Hz. lra.
Qed.

Lemma float_body x :
  binary64 x ->
  exists q,
    Reading.decimal_of_str
      (if Qeq_bool (PyFloat.mag x) 0 then "0.0"
       else repr_magnitude (PyFloat.mag x)) = Some q
    /\ PyFloat.round q = PyFloat.mag x.
Proof.
  intros Hx. pose proof Hx as [Hg Hup].
  destruct (Qeq_bool (PyFloat.mag x) 0) eqn:Ez.
  - rewrite (binary64_zero x Hx Ez). eexists. split; reflexivity.
  - apply repr_magnitude_value; [exact Hg|now apply binary64_pos|exact Hup].
Qed.

(** [float(str(x))] is [x]. *)
Lemma float_round_trip x :
  binary64 x -> Reading.float_of_str (str_float x) = Some x.
Proof.
  intros Hx. pose proof Hx as [Hg Hup].
  assert (Hover : Qle_bool (PyFloat.pow2 1024) (PyFloat.mag x) = false).
  { destruct (Qle_bool _ _) eqn:B; [|reflexivity].
    apply Qle_bool_iff in B. lra. }
  destruct (float_body x Hx) as (q & Hq & Er).
  unfold str_float. set (body := if Qeq_bool _ _ then _ else _) in *.
  destruct x as [neg mag]. cbn [PyFloat.neg PyFloat.mag] in *.
  destruct neg.
  - change ("-" +++ body) with (String "-" body).
    unfold Reading.float_of_str. now rewrite Hq, Er, Hover.
  - change ("" +++ body) with body.
    destruct (unsigned_cases body) as [[s' E]|[_ Hf]].
    + rewrite E, decimal_not_signed in Hq. discriminate.
    + now rewrite (Hf q Hq), Er, Hover.
Qed.

Lemma float_not_int x : binary64 x -> Reading.int_of_str (str_float x) = None.
Proof.
  intros Hx. unfold str_float.
  assert (Hbody : forall acc,
             Reading.digits_value 10 Reading.digit_of
               (if Qeq_bool (PyFloat.mag x) 0 then "0.0"
                else repr_magnitude (PyFloat.mag x)) acc = None).
  { intros acc. destruct (Qeq_bool (PyFloat.mag x) 0);
      [reflexivity|apply repr_not_digits]. }
  destruct (float_body x Hx) as (q & Hq & _).
  set (body := if Qeq_bool _ _ then _ else _) in *.
  assert (Hu : Reading.uint_of_str body = None).
  { unfold Reading.uint_of_str. rewrite Hbody. now destruct (nonempty body). }
  destruct (PyFloat.neg x).
  - change ("-" +++ body) with (String "-" body).
    cbn [Reading.int_of_str]. now rewrite Hu.
  - change ("" +++ body) with body in *.
    destruct (unsigned_cases body) as [[s' E]|[Ei _]].
    + rewrite E, decimal_not_signed in Hq. discriminate.
    + now rewrite Ei.
Qed.

Lemma num_round_trip v :
  binary64_num v -> Reading.num_of_str (str_num v) = Some v.
Proof.
  destruct v as [n|x]; cbn [binary64_num str_num]; intros Hv;
    unfold Reading.num_of_str.
  - now rewrite int_round_trip.
  - now rewrite float_not_int, float_round_trip.
Qed.

(** *** Hexadecimal *)

Lemma hex_digits_acc u :
  forall acc,
    Reading.digits_value 16 Reading.hex_digit_of
      (HexadecimalString.NilEmpty.string_of_uint u) (Z.pos acc)
    = Some (Z.pos (Pos.of_hex_uint_acc u acc)).
Proof.
  induction u; intros acc;
    cbn [HexadecimalString.NilEmpty.string_of_uint Reading.digits_value
         Pos.of_hex_uint_acc];
    [reflexivity|..];
    match goal with
    | |- context [Reading.hex_digit_of ?c] =>
        let v := eval cbv in (Reading.hex_digit_of c) in
        change (Reading.hex_digit_of c) with v; cbv iota
    end;
    rewrite <- IHu; f_equal; lia.
Qed.

Lemma hex_digits u :
  Reading.digits_value 16 Reading.hex_digit_of
    (HexadecimalString.NilEmpty.string_of_uint u) 0
  = Some (Z.of_N (Pos.of_hex_uint u)).
Proof.
  induction u;
    cbn [HexadecimalString.NilEmpty.string_of_uint Reading.digits_value
         Pos.of_hex_uint];
    [reflexivity|..];
    match goal with
    | |- context [Reading.hex_digit_of ?c] =>
        let v := eval cbv in (Reading.hex_digit_of c) in
        change (Reading.hex_digit_of c) with v; cbv iota
    end;
    [exact IHu|..];
    match goal with
    | |- Reading.digits_value _ _ _ ?a = _ =>
        change a with (Z.pos (Z.to_pos a))
    end; apply hex_digits_acc.
Qed.

Lemma hex_body n :
  0 <= n ->
  let body := HexadecimalString.NilZero.string_of_int (Z.to_hex_int n) in
  body <> "" /\ Reading.digits_value 16 Reading.hex_digit_of body 0 = Some n.
Proof.
  intros Hn body. destruct n as [|p|p]; [split; [discriminate|reflexivity]| |lia].
  unfold body. cbn [Z.to_hex_int HexadecimalString.NilZero.string_of_int].
  unfold HexadecimalString.NilZero.string_of_uint.
  pose proof (HexadecimalPos.Unsigned.of_to p) as Hof.
  destruct (Pos.to_hex_uint p) eqn:E;
    try (split; [discriminate|]; rewrite <- E, hex_digits, E, Hof; reflexivity).
  cbn in Hof. discriminate.
Qed.

(** [int(hex(n), 16)] is [n]. *)
Lemma hex_round_trip n : Reading.int_of_hex (py_hex n) = Some n.
Proof.
  unfold py_hex.
  destruct (hex_body (Z.abs n) (Z.abs_nonneg n)) as [Hne Hv].
  set (body := HexadecimalString.NilZero.string_of_int _) in *.
  destruct (Z.ltb_spec n 0).
  - change ("-" +++ "0x" +++ body) with (String "-" (String "0" (String "x" body))).
    cbn [Reading.int_of_hex]. rewrite nonempty_true, Hv by exact Hne.
    cbn [option_map]. f_equal. lia.
  - change ("" +++ "0x" +++ body) with (String "0" (String "x" body)).
    cbn [Reading.int_of_hex]. rewrite nonempty_true, Hv by exact Hne.
    f_equal. lia.
Qed.

(** *** The floats the script builds *)

Lemma py_int_truediv_binary64 a b x : py_int_truediv a b = Ok x -> binary64 x.
Proof.
  unfold py_int_truediv. destruct (Z.eqb_spec b 0) as [|Hb]; [discriminate|].
  destruct (Z.leb_spec (PyFloat.overflow_threshold * Z.abs b) (Z.abs a)) as [|Hlt];
    [discriminate|].
  intros [= <-]. unfold binary64, int_quotient. cbn [PyFloat.mag].
  split; [apply round_idempotent|]. apply round_below_threshold.
  unfold Qlt, inject_Z. cbn [Qnum Qden]. rewrite Z2Pos.id by lia. lia.
Qed.

Lemma thousandth_binary64 x :
  binary64 x ->
  binary64 (PyFloat.mk (PyFloat.neg x)
                       (PyFloat.round (PyFloat.mag x / inject_Z 1000))).
Proof.
  intros [Hg Hup]. unfold binary64. cbn [PyFloat.mag].
  split; [apply round_idempotent|]. apply round_below_threshold.
  apply Qlt_shift_div_r; [reflexivity|].
  apply Qlt_trans with (1 := Hup).
  rewrite pow2_nat by lia. rewrite <- inject_Z_mult, <- Zlt_Qlt.
  vm_compute. reflexivity.
Qed.

Lemma py_max_binary64 m x :
  binary64_num m -> binary64_num x -> binary64_num (py_max m x).
Proof. intros Hm Hx. now destruct (py_max_cases m x) as [-> | ->]. Qed.

Lemma usage_loop_binary64 prog iocg usage_idx todo :
  forall usages usage ring,
    IocgStat.usage_loop prog iocg usage_idx todo usages usage = Ok ring ->
    Forall binary64 usages -> binary64_num usage ->
    Forall binary64 (fst ring) /\ binary64_num (snd ring).
Proof.
  induction todo as [|i todo IH]; intros usages usage ring;
    cbn [IocgStat.usage_loop].
  - intros [= <-]. now split.
  - destruct (py_int_truediv _ _) as [upct|] eqn:Eu; cbn [bind]; [|discriminate].
    apply py_int_truediv_binary64 in Eu.
    intros Hr Hus Hu. apply (IH _ _ _ Hr).
    + apply Forall_app. split; [exact Hus|]. now constructor.
    + now apply py_max_binary64.
Qed.

(** Every float of an [IocgStat] and of an [IocStat] is a binary64. *)
Lemma IocgStat_binary64 prog iocg st :
  IocgStat.init prog iocg = Ok st ->
  binary64 (IocgStat.hwa_pct st) /\ binary64 (IocgStat.hwi_pct st)
  /\ binary64_num (IocgStat.inflight_pct st)
  /\ binary64 (IocgStat.debt_ms st) /\ binary64 (IocgStat.delay_ms st)
  /\ Forall binary64 (IocgStat.usages st) /\ binary64_num (IocgStat.usage st).
Proof.
  unfold IocgStat.init.
  destruct (py_int_truediv (ioc_gq.hweight_active iocg * 100) _) as [hwa|] eqn:E1;
    cbn [bind]; [|discriminate].
  destruct (py_int_truediv (ioc_gq.hweight_inuse iocg * 100) _) as [hwi|] eqn:E2;
    cbn [bind]; [|discriminate].
  set (pv := ioc.period_us (ioc_gq.ioc iocg) * ioc.vtime_rate (ioc_gq.ioc iocg)).
  destruct (if nonzero pv then _ else _) as [inflight|] eqn:E3;
    cbn [bind]; [|discriminate].
  destruct (py_int_truediv (ioc_gq.abs_vdebt iocg) _) as [debt|] eqn:E4;
    cbn [bind]; [|discriminate].
  rewrite py_float_truediv_1000. cbn [bind].
  destruct (py_int_truediv (ioc_gq.delay_nsec iocg) _) as [delay|] eqn:E5;
    cbn [bind]; [|discriminate].
  destruct (IocgStat.usage_loop _ _ _ _ _ _) as [ring|] eqn:E6;
    cbn [bind]; [|discriminate].
  intros [= <-].
  cbn [IocgStat.hwa_pct IocgStat.hwi_pct IocgStat.inflight_pct
       IocgStat.debt_ms IocgStat.delay_ms IocgStat.usages IocgStat.usage].
  apply py_int_truediv_binary64 in E1, E2, E4, E5.
  apply usage_loop_binary64 in E6 as [Hr1 Hr2]; [|constructor|exact I].
  assert (Hinf : binary64_num inflight).
  { destruct (nonzero pv).
    - destruct (py_int_truediv _ pv) as [x|] eqn:Ex; cbn [bind] in E3;
        [|discriminate].
      injection E3 as <-. exact (py_int_truediv_binary64 _ _ _ Ex).
    - injection E3 as <-. exact I. }
  exact (conj E1 (conj E2 (conj Hinf (conj (thousandth_binary64 _ E4)
           (conj E5 (conj Hr1 Hr2)))))).
Qed.

Lemma IocStat_binary64 prog c cst :
  IocStat.init prog c = Ok cst ->
  binary64 (IocStat.period_ms cst) /\ binary64 (IocStat.period_at cst)
  /\ binary64 (IocStat.vperiod_at cst) /\ binary64 (IocStat.vrate_pct cst).
Proof.
  unfold IocStat.init.
  destruct (py_int_truediv (ioc.period_us c) _) as [a|] eqn:E1;
    cbn [bind]; [|discriminate].
  destruct (py_int_truediv (ioc.period_at c) _) as [b|] eqn:E2;
    cbn [bind]; [|discriminate].
  destruct (py_int_truediv (ioc.period_at_vtime c) _) as [d|] eqn:E3;
    cbn [bind]; [|discriminate].
  destruct (py_int_truediv (ioc.vtime_rate c * 100) _) as [e|] eqn:E4;
    cbn [bind]; [|discriminate].
  intros [= <-].
  cbn [IocStat.period_ms IocStat.period_at IocStat.vperiod_at IocStat.vrate_pct].
  apply py_int_truediv_binary64 in E1, E2, E3, E4.
  exact (conj E1 (conj E2 (conj E3 E4))).
Qed.

(** *** The fields of a record, read back *)

Lemma bool_round_trip b :
  Reading.int_of_str (str_bool_int b) = Some (if b then 1 else 0).
Proof. now destruct b. Qed.

Lemma prefix_app p s : String.prefix p (p +++ s) = true.
Proof.
  induction p as [|c p IH]; cbn [String.append String.prefix].
  - now destruct s.
  - destruct (ascii_dec c c) as [_|N]; [exact IH|contradiction].
Qed.

Lemma slot_key_eqb i j :
  String.eqb ("usage_pct_" +++ str_int i) ("usage_pct_" +++ str_int j) = (i =? j).
Proof.
  destruct (Z.eqb_spec i j) as [->|Hne]; [apply String.eqb_refl|].
  apply String.eqb_neq. intros E. apply append_inj_r, str_int_inj in E.
  contradiction.
Qed.

Lemma ring_find us :
  forall start k u,
    nth_error us k = Some u ->
    find (fun kv => String.eqb (fst kv)
                      ("usage_pct_" +++ str_int (start + Z.of_nat k)))
         (IocgStat.usage_items start us)
    = Some ("usage_pct_" +++ str_int (start + Z.of_nat k), str_float u).
Proof.
  induction us as [|u0 us IH]; intros start k u Hk; [now destruct k|].
  cbn [IocgStat.usage_items find fst]. rewrite slot_key_eqb.
  destruct k as [|k]; cbn [nth_error] in Hk.
  - injection Hk as ->. replace (start + Z.of_nat 0) with start by lia.
    now rewrite Z.eqb_refl.
  - destruct (Z.eqb_spec start (start + Z.of_nat (S k))) as [E|_]; [lia|].
    replace (start + Z.of_nat (S k)) with (start + 1 + Z.of_nat k) by lia.
    now apply IH.
Qed.

Lemma ring_slots us :
  forall start,
    filter Fields.is_slot (IocgStat.usage_items start us)
    = IocgStat.usage_items start us.
Proof.
  induction us as [|u us IH]; intros start; cbn [IocgStat.usage_items filter];
    [reflexivity|].
  unfold Fields.is_slot at 1. cbn [fst]. rewrite prefix_app. now rewrite IH.
Qed.

Lemma all_some_map {A B : Type} (f : A -> option B) (g : A -> B) l :
  (forall a, In a l -> f a = Some (g a)) ->
  Fields.all_some (map f l) = Some (map g l).
Proof.
  induction l as [|a l IH]; intros H; cbn [map Fields.all_some]; [reflexivity|].
  rewrite (H a (or_introl eq_refl)). cbn [Fields.and_then].
  rewrite IH by (intros b Hb; apply H; now right). reflexivity.
Qed.

Lemma ring_round_trip st now path :
  Forall binary64 (IocgStat.usages st) ->
  Fields.ring (IocgStat.dict st now path) = Some (IocgStat.usages st).
Proof.
  intros Hus. unfold Fields.ring, IocgStat.dict.
  rewrite filter_app, ring_slots, length_app, length_usage_items.
  match goal with
  | |- context [List.length (filter Fields.is_slot ?l)] =>
      change (List.length (filter Fields.is_slot l)) with 0%nat
  end.
  cbn [Nat.add]. rewrite py_range_of_nat, map_map.
  set (us := IocgStat.usages st) in *.
  rewrite (all_some_map _ (fun k => nth k us PyFloat.zero)).
  - f_equal. clear. induction us as [|u us IH]; [reflexivity|].
    cbn [List.length seq map nth]. f_equal.
    rewrite <- seq_shift, map_map. exact IH.
  - intros k Hk%in_seq.
    assert (Hn : nth_error us k = Some (nth k us PyFloat.zero)).
    { apply nth_error_nth'. lia. }
    unfold Fields.float_field, Fields.field.
    cbn [find fst app String.eqb Ascii.eqb Bool.eqb String.append].
    pose proof (ring_find us 0 k _ Hn) as Hf. cbn [Z.add String.append] in Hf.
    rewrite Hf. cbn [option_map snd Fields.and_then].
    apply float_round_trip.
    rewrite Forall_forall in Hus. apply Hus. now apply nth_In; lia.
Qed.

Lemma node_round_trip prog iocg st now path :
  IocgStat.init prog iocg = Ok st ->
  Fields.node (IocgStat.dict st now path) = Some (Spec.node_of st).
Proof.
  intros Hst.
  destruct (IocgStat_binary64 _ _ _ Hst) as (Ha & Hi & Hf & Hd & Hl & Hus & Hu).
  unfold Fields.node. rewrite (ring_round_trip st now path Hus).
  unfold Fields.int_field, Fields.float_field, Fields.num_field,
    Fields.hex_field, Fields.field, IocgStat.dict.
  cbn [find fst snd app String.eqb Ascii.eqb Bool.eqb option_map
       Fields.and_then].
  rewrite bool_round_trip, !int_round_trip, hex_round_trip.
  rewrite !float_round_trip by assumption.
  rewrite !num_round_trip by assumption.
  cbn [Fields.and_then]. reflexivity.
Qed.

Lemma controller_round_trip prog c cst devname now :
  IocStat.init prog c = Ok cst ->
  Fields.controller (IocStat.dict devname cst now) = Some (Spec.controller_of cst).
Proof.
  intros Hst.
  destruct (IocStat_binary64 _ _ _ Hst) as (Hp & Ha & Hv & Hr).
  unfold Fields.controller.
  unfold Fields.int_field, Fields.float_field, Fields.field, IocStat.dict.
  cbn [find fst snd app String.eqb Ascii.eqb Bool.eqb option_map
       Fields.and_then].
  rewrite bool_round_trip, !int_round_trip.
  rewrite !float_round_trip by assumption.
  cbn [Fields.and_then]. reflexivity.
Qed.






(** *** Nothing is lost in the strings *)

(** The structured records lose nothing of the numbers: every numeric field
    of a controller record and of a node record, the address and each ring
    slot included, reads back as the number the script computed, the floats
    bit for bit. *)
Theorem structured_numbers_read_back :
  forall prog c iocg cst st devname now path,
    IocStat.init prog c = Ok cst ->
    IocgStat.init prog iocg = Ok st ->
    binary64 now ->
    Fields.controller (IocStat.dict devname cst now) = Some (Spec.controller_of cst)
    /\ Fields.node (IocgStat.dict st now path) = Some (Spec.node_of st)
    /\ Fields.float_field (IocStat.dict devname cst now) "timestamp" = Some now
    /\ Fields.float_field (IocgStat.dict st now path) "timestamp" = Some now.
Proof.
  intros prog c iocg cst st devname now path Hc Hst Hnow.
  split; [exact (controller_round_trip prog c cst devname now Hc)|].
  split; [exact (node_round_trip prog iocg st now path Hst)|].
  unfold Fields.float_field, Fields.field, IocStat.dict, IocgStat.dict.
  cbn [find fst snd app String.eqb Ascii.eqb Bool.eqb option_map
       Fields.and_then].
  now rewrite (float_round_trip now Hnow).
Qed.

Lemma structured_numbers_read_back_witness :
  exists cst st,
    IocStat.init Sample.prog Sample.controller = Ok cst
    /\ IocgStat.init Sample.prog (Sample.iocg 4096 true) = Ok st
    /\ Fields.controller (IocStat.dict "sda" cst (now Sample.live_snapshot))
       = Some (Spec.controller_of cst)
    /\ Fields.node (IocgStat.dict st (now Sample.live_snapshot) "db/a")
       = Some (Spec.node_of st)
    /\ Fields.float_field (IocStat.dict "sda" cst (now Sample.live_snapshot))
         "timestamp" = Some (now Sample.live_snapshot)
    /\ Fields.float_field (IocgStat.dict st (now Sample.live_snapshot) "db/a")
         "timestamp" = Some (now Sample.live_snapshot).
Proof.
  destruct (IocStat.init Sample.prog Sample.controller) as [cst|] eqn:Ec;
    [|vm_compute in Ec; discriminate].
  destruct (IocgStat.init Sample.prog (Sample.iocg 4096 true)) as [st|] eqn:Est;
    [|vm_compute in Est; discriminate].
  exists cst, st. split; [reflexivity|]. split; [reflexivity|].
  apply (structured_numbers_read_back Sample.prog Sample.controller
           (Sample.iocg 4096 true) cst st "sda" (now Sample.live_snapshot)
           "db/a" Ec Est).
  split; vm_compute; reflexivity.
Defined.
